(** * The layer pipeline of ggplot/layer.py

    Two views of the program are embedded.

    - [PyObj], [Layers], [LayerObject]: the object view. Layers are objects
      in a store, a [Layers] list holds references to them, and
      [item.zorder = i] writes through the reference. This is where object
      identity matters: [Layers.append], [Layers._set_zorder],
      [Layers.extend], [Layers.__iadd__], [Layers.__add__] and
      [layer.__deepcopy__].
    - [Frame], [Utils], [Grouping], [Layer]: the data view. The stages of a
      layer rebind [self.data] to a new dataset and never write into a
      shared one, so here a layer is a record and a dataset is a value.
      [Frame] holds the part of pandas the stages rely on, [Utils] the
      helpers that layer.py imports from modules outside this file.

    The definitions come first, the properties after them. *)

From stdpp Require Import gmap strings list fin_maps.
From Stdlib Require Import ZArith QArith.

Close Scope Q_scope.

Local Open Scope Z_scope.
Local Open Scope string_scope.
Local Open Scope list_scope.

(** ** Python objects in a store *)

Module PyObj.

(** [id(obj)] *)
Definition loc := positive.

(** What an attribute holds: an immutable atom or a reference. *)
Inductive pyval :=
| PNone
| PBool (b : bool)
| PInt (z : Z)
| PRef (r : loc).

#[global] Instance pyval_eq_dec : EqDecision pyval.
Proof. solve_decision. Defined.

(** [obj.__dict__], in insertion order. *)
Definition pydict := list (string * pyval).

(** A layer is an instance with a [__dict__]; everything a layer refers to
    (geom, stat, position, the mappings, the dataframe) is kept as a cell
    whose state holds no reference into the store. *)
Inductive pyobj :=
| Instance (d : pydict)
| Opaque (cls : string) (state : string).

#[global] Instance pyobj_eq_dec : EqDecision pyobj.
Proof. solve_decision. Defined.

Fixpoint dict_get (k : string) (d : pydict) : option pyval :=
  match d with
  | [] => None
  | (k', v) :: rest => if decide (k' = k) then Some v else dict_get k rest
  end.

(** [d[k] = v]: an existing key keeps its place, a new one goes last. *)
Fixpoint dict_set (k : string) (v : pyval) (d : pydict) : pydict :=
  match d with
  | [] => [(k, v)]
  | (k', v') :: rest =>
      if decide (k' = k) then (k, v) :: rest else (k', v') :: dict_set k v rest
  end.

Definition set_in (k : string) (v : pyval) (o : pyobj) : pyobj :=
  match o with
  | Instance d => Instance (dict_set k v d)
  | Opaque cls s => Opaque cls s
  end.

(** [obj.k = v] through a reference. *)
Definition setattr (h : gmap loc pyobj) (r : loc) (k : string) (v : pyval)
  : gmap loc pyobj :=
  alter (set_in k v) r h.

(** [obj.k] through a reference. *)
Definition getattr (h : gmap loc pyobj) (r : loc) (k : string) : option pyval :=
  match h !! r with
  | Some (Instance d) => dict_get k d
  | _ => None
  end.

Definition is_instance (h : gmap loc pyobj) (r : loc) : Prop :=
  ∃ d, h !! r = Some (Instance d).

End PyObj.

(** ** class Layers(list) *)

Module Layers.
Import PyObj.

(** What a method call leaves behind: the store, the contents of [self], and
    the list the call returns ([None] for [append] and [extend]). *)
Record outcome := Outcome {
  heap_after : gmap loc pyobj;
  self_after : list loc;
  returned : option (list loc)
}.

(** [item.zorder = len(self) + 1; return list.append(self, item)] *)
Definition append (h : gmap loc pyobj) (self : list loc) (item : loc) : outcome :=
  {| heap_after := setattr h item "zorder" (PInt (Z.of_nat (length self) + 1));
     self_after := self ++ [item];
     returned := None |}.

(** [for i, item in enumerate(other, start): item.zorder = i] *)
Fixpoint enumerate_zorder (h : gmap loc pyobj) (start : Z) (other : list loc)
  : gmap loc pyobj :=
  match other with
  | [] => h
  | item :: rest => enumerate_zorder (setattr h item "zorder" (PInt start)) (start + 1) rest
  end.

Definition _set_zorder (h : gmap loc pyobj) (self other : list loc)
  : gmap loc pyobj * list loc :=
  (enumerate_zorder h (Z.of_nat (length self) + 1) other, other).

Definition extend (h : gmap loc pyobj) (self other : list loc) : outcome :=
  let '(h', other') := _set_zorder h self other in
  {| heap_after := h'; self_after := self ++ other'; returned := None |}.

(** [list.__iadd__] extends [self] and returns it. *)
Definition __iadd__ (h : gmap loc pyobj) (self other : list loc) : outcome :=
  let '(h', other') := _set_zorder h self other in
  {| heap_after := h'; self_after := self ++ other'; returned := Some (self ++ other') |}.

(** [list.__add__] builds a new list and leaves [self] as it was. *)
Definition __add__ (h : gmap loc pyobj) (self other : list loc) : outcome :=
  let '(h', other') := _set_zorder h self other in
  {| heap_after := h'; self_after := self; returned := Some (self ++ other') |}.

(** The insertion operations, and the list each one produces. *)
Inductive insertion :=
| Append (item : loc)
| Extend (other : list loc)
| IAdd (other : list loc)
| Add (other : list loc).

Definition inserted (op : insertion) : list loc :=
  match op with
  | Append item => [item]
  | Extend other | IAdd other | Add other => other
  end.

Definition run (op : insertion) (h : gmap loc pyobj) (self : list loc) : outcome :=
  match op with
  | Append item => append h self item
  | Extend other => extend h self other
  | IAdd other => __iadd__ h self other
  | Add other => __add__ h self other
  end.

Definition resulting_list (o : outcome) : list loc :=
  match returned o with
  | Some l => l
  | None => self_after o
  end.

(** [obj.zorder], when it is an int. *)
Definition zorder (h : gmap loc pyobj) (r : loc) : option Z :=
  match getattr h r "zorder" with
  | Some (PInt z) => Some z
  | _ => None
  end.

(** [[l.zorder for l in layers] == list(range(1, len(layers) + 1))] *)
Definition zorders_from (start : Z) (h : gmap loc pyobj) (layers : list loc) : Prop :=
  ∀ (i : nat) r, layers !! i = Some r → zorder h r = Some (start + Z.of_nat i).

Definition zorders_ok (h : gmap loc pyobj) (layers : list loc) : Prop :=
  zorders_from 1 h layers.

(** "A list numbered 1..N is numbered 1..M after the insertion", for one
    operation on one store. *)
Definition insertion_keeps_zorders
    (op : insertion) (h : gmap loc pyobj) (self : list loc) : Prop :=
  zorders_ok h self →
  zorders_ok (heap_after (run op h self)) (resulting_list (run op h self)).

(** "After [self + other] the layers of [other] are numbered
    len(self)+1 .. len(self)+len(other) in order", for one store. *)
Definition add_numbers_in_order
    (h : gmap loc pyobj) (self other : list loc) : Prop :=
  zorders_from (Z.of_nat (length self) + 1) (heap_after (__add__ h self other)) other.

End Layers.

(** ** class layer, as an object: construction and copy *)

Module LayerObject.
Import PyObj.

Definition fresh_loc (h : gmap loc pyobj) : loc := fresh (dom h).

(** [layer.__init__]: the attributes in the order the constructor assigns
    them. [self._active_mapping = {}] makes a new dict, [self.zorder = 0]. *)
Definition __init__ (h : gmap loc pyobj)
    (geom stat data mapping position inherit_aes show_legend : pyval)
  : gmap loc pyobj * loc :=
  let active := fresh_loc h in
  let h1 := <[active := Opaque "dict" "{}"]> h in
  let self := fresh_loc h1 in
  (<[self := Instance [("geom", geom); ("stat", stat); ("data", data);
                       ("mapping", mapping); ("position", position);
                       ("inherit_aes", inherit_aes); ("show_legend", show_legend);
                       ("_active_mapping", PRef active); ("zorder", PInt 0)]]> h1,
   self).

Section copy.

(** [__deepcopy__] of an instance met while copying an attribute. *)
Variable instance_deepcopy :
  loc → gmap loc pyobj → gmap loc loc → option (loc * gmap loc pyobj * gmap loc loc).

(** [copy.deepcopy(x, memo)]: an atom is returned as it is; an object already
    in [memo] gives its recorded copy; any other object is duplicated into a
    new cell and recorded. *)
Definition deepcopy (x : pyval) (h : gmap loc pyobj) (memo : gmap loc loc)
  : option (pyval * gmap loc pyobj * gmap loc loc) :=
  match x with
  | PRef r =>
      match memo !! r with
      | Some r' => Some (PRef r', h, memo)
      | None =>
          match h !! r with
          | Some (Opaque cls state) =>
              let r' := fresh_loc h in
              Some (PRef r', <[r' := Opaque cls state]> h, <[r := r']> memo)
          | Some (Instance _) =>
              match instance_deepcopy r h memo with
              | Some (r', h', memo') => Some (PRef r', h', memo')
              | None => None
              end
          | None => None
          end
      end
  | _ => Some (x, h, memo)
  end.

(** [for key, item in old.items(): new[key] = old[key] if key == 'data'
    else deepcopy(old[key], memo)], with [new = result.__dict__]. *)
Fixpoint copy_items (old : pydict) (result : loc)
    (h : gmap loc pyobj) (memo : gmap loc loc)
  : option (gmap loc pyobj * gmap loc loc) :=
  match old with
  | [] => Some (h, memo)
  | (key, item) :: rest =>
      if decide (key = "data") then
        copy_items rest result (setattr h result key item) memo
      else
        match deepcopy item h memo with
        | Some (v, h', memo') => copy_items rest result (setattr h' result key v) memo'
        | None => None
        end
  end.

End copy.

(** [layer.__deepcopy__(self, memo)]. The fuel bounds how deep layers nested
    in attributes of layers may go; a layer whose attributes hold no other
    layer needs one unit. *)
Fixpoint __deepcopy__ (fuel : nat) (self : loc)
    (h : gmap loc pyobj) (memo : gmap loc loc)
  : option (loc * gmap loc pyobj * gmap loc loc) :=
  match fuel with
  | O => None
  | S fuel' =>
      match h !! self with
      | Some (Instance old) =>
          let result := fresh_loc h in
          let h0 := <[result := Instance []]> h in
          let memo0 := <[self := result]> memo in
          match copy_items (__deepcopy__ fuel') old result h0 memo0 with
          | Some (h', memo') => Some (result, h', memo')
          | None => None
          end
      | _ => None
      end
  end.

(** An attribute value that [deepcopy] duplicates without entering another
    layer: an atom, the layer being copied, or an object that is no layer. *)
Definition plain_value (h : gmap loc pyobj) (self : loc) (v : pyval) : Prop :=
  match v with
  | PRef r => r = self ∨ ∃ cls state, h !! r = Some (Opaque cls state)
  | _ => True
  end.

(** [v'] is the copy that [memo] records for [v]. *)
Definition copied (memo : gmap loc loc) (v v' : pyval) : Prop :=
  match v with
  | PRef r => ∃ r', memo !! r = Some r' ∧ v' = PRef r'
  | _ => v' = v
  end.

(** What holds of the store [hc] and the memo [mc] all along the loop of
    [__deepcopy__] that copies [self], an object of the store [h], into
    [result]. *)
Record copy_inv (h : gmap loc pyobj) (self result : loc)
    (hc : gmap loc pyobj) (mc : gmap loc loc) : Prop := CopyInv {
  inv_old : ∀ r, is_Some (h !! r) → hc !! r = h !! r;
  inv_result_new : h !! result = None;
  inv_result : is_instance hc result;
  inv_self : mc !! self = Some result;
  inv_memo : ∀ r r', mc !! r = Some r' →
    h !! r' = None ∧ is_Some (hc !! r') ∧
    (r ≠ self → r' ≠ result ∧ is_Some (h !! r) ∧ hc !! r' = h !! r)
}.

(** [new] duplicates [old], an attribute dictionary of the store [h], in the
    store [h']: [data] holds the very same value, every other attribute that
    is an atom holds that atom, and every other attribute that refers to an
    object refers to an object that [h] does not have, with the state of the
    original (or to [result], where the original refers to [self]). *)
Definition duplicates (h h' : gmap loc pyobj) (self result : loc)
    (old new : pydict) : Prop :=
  new.*1 = old.*1 ∧
  ∀ k v, (k, v) ∈ old →
    if decide (k = "data") then dict_get k new = Some v
    else match v with
         | PRef r => ∃ r', dict_get k new = Some (PRef r') ∧ h !! r' = None ∧
                           if decide (r = self) then r' = result
                           else h' !! r' = h !! r
         | _ => dict_get k new = Some v
         end.

End LayerObject.

(** ** Concrete stores used in the examples below *)

Module ObjectExamples.
Import PyObj Layers LayerObject.

(** A store with a geom, a stat, a position, a mapping and a dataframe. *)
Definition base_heap : gmap loc pyobj :=
  <[1%positive := Opaque "geom_point" "{}"]>
  (<[2%positive := Opaque "stat_identity" "{}"]>
  (<[3%positive := Opaque "position_identity" "{}"]>
  (<[4%positive := Opaque "aes" "{x: x, y: y}"]>
  (<[5%positive := Opaque "DataFrame" "x=[1,2,3]; y=[4,5,6]"]> ∅)))).

Definition new_layer (h : gmap loc pyobj) : gmap loc pyobj * loc :=
  __init__ h (PRef 1%positive) (PRef 2%positive) (PRef 5%positive)
    (PRef 4%positive) (PRef 3%positive) (PBool true) PNone.

(** Two layers [a] and [b], both just constructed (zorder 0). *)
Definition heap_ab : gmap loc pyobj := (new_layer (new_layer base_heap).1).1.
Definition layer_a : loc := (new_layer base_heap).2.
Definition layer_b : loc := (new_layer (new_layer base_heap).1).2.

(** [layers = Layers(); layers.append(a)] *)
Definition one_layer : outcome := append heap_ab [] layer_a.

End ObjectExamples.

(** ** Exceptions and results *)

Module Exn.

Inductive exn :=
| GgplotError (msg : string)
| KeyError (key : string)
| IndexError (msg : string)
| ValueError (msg : string)
| TypeError (msg : string)
| NameError (msg : string)
| AttributeError (msg : string).

(** [str(e)] *)
Definition str (e : exn) : string :=
  match e with
  | GgplotError msg | IndexError msg | ValueError msg | TypeError msg
  | NameError msg | AttributeError msg => msg
  | KeyError key => "'" +:+ key +:+ "'"
  end.

(** What a call that may raise gives. *)
Inductive result (A : Type) :=
| Ok (a : A)
| Raise (e : exn).
Arguments Ok {A} a.
Arguments Raise {A} e.

(** Sequencing: the first exception raised ends the computation. *)
#[global] Instance result_bind : MBind result := λ A B k r,
  match r with
  | Ok a => k a
  | Raise e => Raise e
  end.

Definition raises {A : Type} (r : result A) : Prop :=
  match r with
  | Ok _ => False
  | Raise _ => True
  end.

End Exn.

(** ** Datasets: the part of pandas that layer.py uses *)

Module Frame.
Import Exn.

(** A cell. [VList] stands for a compound, unhashable value. *)
Inductive value :=
| VInt (z : Z)
| VFloat (q : Q)
| VBool (b : bool)
| VStr (s : string)
| VNaN
| VList (items : list Z).

#[global] Instance Q_eq_dec : EqDecision Q.
Proof. solve_decision. Defined.

#[global] Instance value_eq_dec : EqDecision value.
Proof. solve_decision. Defined.

Inductive dtype := int64 | float64 | bool_ | object_ | category.

#[global] Instance dtype_eq_dec : EqDecision dtype.
Proof. solve_decision. Defined.

(** [dtype.kind] *)
Definition kind (d : dtype) : string :=
  match d with
  | int64 => "i"
  | float64 => "f"
  | bool_ => "b"
  | object_ | category => "O"
  end.

Record Series := mkSeries { dtype_of : dtype; values : list value }.

#[global] Instance Series_eq_dec : EqDecision Series.
Proof. solve_decision. Defined.

(** [index] is [len(df.index)]: a frame has that many rows even when it has
    no column. Columns are kept in order. *)
Record DataFrame := mkFrame { index : nat; columns : list (string * Series) }.

(** [len(df)] *)
Definition len (df : DataFrame) : nat := index df.

(** [pd.DataFrame()] *)
Definition empty_frame : DataFrame := {| index := 0; columns := [] |}.

(** [pd.DataFrame(index=data.index)] *)
Definition frame_with_index (data : DataFrame) : DataFrame :=
  {| index := index data; columns := [] |}.

(** [for col in df] *)
Definition names (df : DataFrame) : list string := (columns df).*1.

(** [col in df] *)
Definition has_column (df : DataFrame) (col : string) : bool :=
  bool_decide (col ∈ names df).

(** The column that carries a label: the first one, should several carry
    it. What [df[col]] gives in that case is told in [getitem]. *)
Fixpoint lookup_column (col : string) (cols : list (string * Series)) : option Series :=
  match cols with
  | [] => None
  | (name, s) :: rest => if decide (name = col) then Some s else lookup_column col rest
  end.

(** How many columns of [df] carry the label [col]. *)
Definition count_label (df : DataFrame) (col : string) : nat :=
  length (filter (λ c, c = col) (names df)).

(** [df[col]] where layer.py assigns it to one column ([evaled[ae] =
    data[col]]): the column of that label. For a label that several columns
    carry, pandas hands back the frame of those columns, and assigning a
    frame of several columns to one column raises [ValueError]. *)
Definition getitem (df : DataFrame) (col : string) : result Series :=
  match lookup_column col (columns df) with
  | Some s =>
      if decide (count_label df col = 1%nat) then Ok s
      else Raise (ValueError "Wrong number of items passed")
  | None => Raise (KeyError col)
  end.

(** [df[names]]: the sub-frame of the named columns, for names that one
    column each carries. *)
Definition select (df : DataFrame) (cols : list string) : DataFrame :=
  {| index := index df;
     columns := omap (λ c, (λ s, (c, s)) <$> lookup_column c (columns df)) cols |}.

(** A column that exists keeps its place, a new one goes last. *)
Fixpoint store_column (col : string) (s : Series) (cols : list (string * Series))
  : list (string * Series) :=
  match cols with
  | [] => [(col, s)]
  | (name, s') :: rest =>
      if decide (name = col) then (col, s) :: rest
      else (name, s') :: store_column col s rest
  end.

(** The dtype pandas gives a column of such cells. Ints are those of int64:
    a Python int outside that range gives an unsigned or object column,
    which this model does not have. *)
Definition value_dtype (v : value) : dtype :=
  match v with
  | VInt _ => int64
  | VFloat _ | VNaN => float64
  | VBool _ => bool_
  | VStr _ | VList _ => object_
  end.

(** A scalar is repeated down the rows. *)
Definition broadcast (v : value) (n : nat) : Series :=
  {| dtype_of := value_dtype v; values := replicate n v |}.

(** [astype(np.float)] on a cell: an int becomes the float of equal value
    (floats are kept as rationals here; rounding of ints beyond 2^53 is not
    modelled). *)
Definition cell_to_float (v : value) : value :=
  match v with
  | VInt z => VFloat (inject_Z z)
  | VBool b => VFloat (inject_Z (if b then 1 else 0))
  | v => v
  end.

Definition astype_float (s : Series) : Series :=
  {| dtype_of := float64; values := cell_to_float <$> values s |}.

(** [series.reindex(frame.index)] over positional indexes: rows the series
    lacks are NaN, which an int column can only hold as float. *)
Definition reindex (n : nat) (s : Series) : Series :=
  if decide (n ≤ length (values s))%nat then
    {| dtype_of := dtype_of s; values := take n (values s) |}
  else
    let s' := if decide (dtype_of s = int64) then astype_float s else s in
    {| dtype_of := dtype_of s';
       values := values s' ++ replicate (n - length (values s)) VNaN |}.

(** The values Python code hands around: aesthetic mappings hold them and
    expression evaluation returns them. A str is [PStr] and a list is
    [PList]; [PScalar] is a number, or a cell taken out of a vector;
    [PObject] is an object that is neither a str nor a number and cannot be
    iterated, such as [None] or a function. *)
Inductive pyvalue :=
| PStr (s : string)
| PScalar (v : value)
| PList (s : Series)
| PSeries (s : Series)
| PObject (type_name : string).

(** [str(type(x))] *)
Definition type_name (x : pyvalue) : string :=
  match x with
  | PStr _ => "<class 'str'>"
  | PScalar v =>
      match v with
      | VInt _ => "<class 'int'>"
      | VFloat _ | VNaN => "<class 'float'>"
      | VBool _ => "<class 'bool'>"
      | VStr _ => "<class 'str'>"
      | VList _ => "<class 'list'>"
      end
  | PList _ => "<class 'list'>"
  | PSeries _ => "<class 'pandas.core.series.Series'>"
  | PObject t => t
  end.

(** [df[col] = s] for a frame that has no row yet and a list-like [s]: the
    frame takes the length of [s]. *)
Definition adopt_index (df : DataFrame) (col : string) (s : Series) : DataFrame :=
  let n := length (values s) in
  {| index := n;
     columns := store_column col s (prod_map id (reindex n) <$> columns df) |}.

(** [df[col] = x]: a str or a number is repeated down the rows, a list is
    the column itself (also a list that was a cell of a vector), a Series is
    aligned to the rows. *)
Definition setitem (df : DataFrame) (col : string) (x : pyvalue) : result DataFrame :=
  match x with
  | PStr s =>
      Ok {| index := index df;
            columns := store_column col (broadcast (VStr s) (index df)) (columns df) |}
  | PScalar (VList inner) =>
      let s := {| dtype_of := int64; values := VInt <$> inner |} in
      if decide (index df = 0%nat) then Ok (adopt_index df col s)
      else if decide (length (values s) = index df) then
        Ok {| index := index df; columns := store_column col s (columns df) |}
      else Raise (ValueError "Length of values does not match length of index")
  | PScalar v =>
      Ok {| index := index df;
            columns := store_column col (broadcast v (index df)) (columns df) |}
  | PList s =>
      if decide (index df = 0%nat) then Ok (adopt_index df col s)
      else if decide (length (values s) = index df) then
        Ok {| index := index df; columns := store_column col s (columns df) |}
      else Raise (ValueError "Length of values does not match length of index")
  | PSeries s =>
      if decide (index df = 0%nat) then Ok (adopt_index df col s)
      else Ok {| index := index df;
                 columns := store_column col (reindex (index df) s) (columns df) |}
  | PObject t =>
      Raise (TypeError ("cannot set a column from an object of type " +:+ t))
  end.

(** [pd.concat([a, b], axis=1)]: the columns of [a], then those of [b], over
    the union of the two (positional) indexes. A name that both have occurs
    twice in the result. *)
Definition concat_columns (a b : DataFrame) : DataFrame :=
  let n := (index a `max` index b)%nat in
  {| index := n; columns := prod_map id (reindex n) <$> (columns a ++ columns b) |}.

(** Every column has one cell per row. *)
Definition well_formed (df : DataFrame) : Prop :=
  Forall (λ c, length (values c.2) = index df) (columns df).

(** [hash(v)] does not raise [TypeError]. *)
Definition hashable (v : value) : bool :=
  match v with
  | VList _ => false
  | _ => true
  end.

(** [com.is_list_like(x)]: a list and a Series are list-like; a str, a number
    and an object that cannot be iterated are not. *)
Definition is_list_like (x : pyvalue) : bool :=
  match x with
  | PList _ | PSeries _ => true
  | _ => false
  end.

(** [not cbook.iterable(x) and cbook.is_numlike(x)] *)
Definition is_number (x : pyvalue) : bool :=
  match x with
  | PScalar (VInt _ | VFloat _ | VBool _ | VNaN) => true
  | _ => false
  end.

End Frame.

(** ** Helpers that layer.py imports from .utils and .aes *)

Module Utils.
Import Exn Frame.

(** An [aes]: a dict from aesthetic names to mapped values, in insertion
    order. *)
Definition aes := list (string * pyvalue).

Fixpoint aes_get (k : string) (d : aes) : option pyvalue :=
  match d with
  | [] => None
  | (k', v) :: rest => if decide (k' = k) then Some v else aes_get k rest
  end.

(** [d[k] = v] *)
Fixpoint aes_set (k : string) (v : pyvalue) (d : aes) : aes :=
  match d with
  | [] => [(k, v)]
  | (k', v') :: rest =>
      if decide (k' = k) then (k, v) :: rest else (k', v') :: aes_set k v rest
  end.

(** Modelled from the spec: [defaults(d1, d2)] of .utils is not part of
    layer.py. The spec has the layer mapping "overlaid on" the plot-level
    mapping: a copy of [d1] with the entries of [d2] whose key [d1] lacks. *)
Definition defaults (d1 d2 : aes) : aes :=
  d1 ++ filter (λ kv, kv.1 ∉ d1.*1) d2.

(** Modelled from the spec: the test behind [is_calculated_aes] of .aes. A
    calculated aesthetic is mapped to a name "bracketed by a reserved
    token", as in y = '..count..'. *)
Definition is_calculated (expr : string) : bool :=
  String.prefix ".." expr
  && bool_decide (String.substring (String.length expr - 2) 2 expr = "..")
  && bool_decide (4 < String.length expr)%nat.

(** Modelled from the spec: [strip_dots] of .aes, which is "stripped of the
    marker to find the real computed column name". *)
Definition strip_dots (expr : string) : string :=
  String.substring 2 (String.length expr - 4) expr.

(** Modelled from the spec: [is_calculated_aes(aesthetics)] of .aes, the
    names of the aesthetics mapped to a marked name. *)
Definition is_calculated_aes (aesthetics : aes) : list string :=
  omap (λ kv, match kv.2 with
              | PStr expr => if is_calculated expr then Some kv.1 else None
              | _ => None
              end) aesthetics.

(** Modelled from the spec: [DISCRETE_KINDS] of .utils, the dtype kinds of
    "categorical, boolean, or string-like" columns (object, bool, unicode,
    bytes). *)
Definition DISCRETE_KINDS : list string := ["O"; "b"; "U"; "S"].

(** The cells of row [i], one per column ([None] where a column is short). *)
Definition row (df : DataFrame) (i : nat) : list (option value) :=
  (λ c, values c.2 !! i) <$> columns df.

Definition rows (df : DataFrame) : list (list (option value)) :=
  row df <$> seq 0 (index df).

(** The distinct elements of a list, in the order they first appear. *)
Fixpoint distinct {A} `{EqDecision A} (l : list A) : list A :=
  match l with
  | [] => []
  | x :: rest => x :: filter (λ y, y ≠ x) (distinct rest)
  end.

Fixpoint first_index {A} `{EqDecision A} (x : A) (l : list A) : nat :=
  match l with
  | [] => 0
  | y :: rest => if decide (y = x) then 0 else S (first_index x rest)
  end.

(** Modelled from the spec: [ninteraction(df, drop=True)] of .utils (every
    call in layer.py passes drop=True). "Collect the set of distinct
    composite keys, rank them, and map each row to the rank of its key"; the
    rank taken here is the order of first appearance, one of the two orders
    the spec names. *)
Definition ninteraction (df : DataFrame) : list Z :=
  let keys := rows df in
  (λ k, Z.of_nat (S (first_index k (distinct keys)))) <$> keys.

(** Modelled from the spec: [check_required_aesthetics] of .utils. "Missing
    required aesthetics raise a MissingAestheticError naming the renderer
    and the missing aesthetic(s)". *)
Definition check_required_aesthetics
    (required present : list string) (name : string) : result unit :=
  match filter (λ ae, ae ∉ present) required with
  | [] => Ok tt
  | missing =>
      Raise (GgplotError (name +:+ " requires the following missing aesthetics: "
                          +:+ String.concat ", " missing))
  end.

(** Modelled from the spec: the scale system, which layer.py only calls.
    [add_defaults] "registers observed aesthetic/column pairs";
    [transform_df] is a function from datasets to datasets. *)
Record Scales := mkScales {
  registered : list (string * string);
  transform_df : DataFrame → DataFrame
}.

Definition add_defaults (scales : Scales) (data : DataFrame)
    (aesthetics : list (string * string)) : Scales :=
  {| registered := registered scales ++ aesthetics;
     transform_df := transform_df scales |}.

End Utils.

(** ** Grouping: the module-level functions of layer.py *)

Module Grouping.
Import Exn Frame Utils.

Definition NO_GROUP : Z := -1.

(** [discrete_columns(df, ignore)], from the column [for col in df] has
    reached. For a label that several columns carry, [df[col]] is a frame,
    and [df[col].dtype] raises [AttributeError]. [df[col].iloc[0]] raises
    [IndexError] on a column without cells; a column whose first cell is
    unhashable is skipped. *)
Fixpoint discrete_columns_from (df : DataFrame) (cols : list (string * Series))
    (ignore : list string) : result (list string) :=
  match cols with
  | [] => Ok []
  | (col, s) :: rest =>
      if decide (count_label df col = 1%nat) then
        if bool_decide (kind (dtype_of s) ∈ DISCRETE_KINDS) && bool_decide (col ∉ ignore)
        then
          match values s with
          | [] => Raise (IndexError "single positional indexer is out-of-bounds")
          | v :: _ =>
              if hashable v then
                lst ← discrete_columns_from df rest ignore; Ok (col :: lst)
              else discrete_columns_from df rest ignore
          end
        else discrete_columns_from df rest ignore
      else Raise (AttributeError "'DataFrame' object has no attribute 'dtype'")
  end.

Definition discrete_columns (df : DataFrame) (ignore : list string)
  : result (list string) :=
  discrete_columns_from df (columns df) ignore.

(** The list of ids that [ninteraction] returns, as the value assigned. *)
Definition id_list (ids : list Z) : pyvalue :=
  PList {| dtype_of := int64; values := VInt <$> ids |}.

Definition add_group (data : DataFrame) : result DataFrame :=
  if decide (len data = 0%nat) then Ok data
  else if negb (has_column data "group") then
    disc ← discrete_columns data ["label"];
    match disc with
    | _ :: _ => setitem data "group" (id_list (ninteraction (select data disc)))
    | [] => setitem data "group" (PScalar (VInt NO_GROUP))
    end
  else setitem data "group" (id_list (ninteraction (select data ["group"]))).

(** The cells of a column as ints, when they all are. *)
Fixpoint ints_of (cells : list value) : option (list Z) :=
  match cells with
  | [] => Some []
  | VInt z :: rest =>
      match ints_of rest with
      | Some zs => Some (z :: zs)
      | None => None
      end
  | _ :: _ => None
  end.

(** [data['group']] as a list of ints, when it is one. *)
Definition group_ids (df : DataFrame) : option (list Z) :=
  match lookup_column "group" (columns df) with
  | Some s => ints_of (values s)
  | None => None
  end.

End Grouping.

(** ** class layer: the pipeline stages *)

Module Layer.
Import Exn Frame Utils Grouping.

(** Parameters handed from [setup_params] to [compute_layer], and the panel
    token: both are passed through without being looked at. *)
Definition params := list (string * pyvalue).
Definition panel := nat.

(** The units a layer delegates to, by the hooks layer.py calls. Each hook
    may raise. *)
Record Geom := mkGeom {
  geom_class_name : string;
  aes_params : aes;
  REQUIRED_AES : list string;
  geom_setup_data : DataFrame → result DataFrame
}.

Record Stat := mkStat {
  stat_setup_params : DataFrame → result params;
  stat_use_defaults : DataFrame → result DataFrame;
  stat_setup_data : DataFrame → result DataFrame;
  stat_compute_layer : DataFrame → params → panel → result DataFrame;
  DEFAULT_AES : aes;
  retransform : bool
}.

Record Position := mkPosition {
  position_setup_params : DataFrame → result params;
  position_setup_data : DataFrame → params → result DataFrame;
  position_compute_layer : DataFrame → params → panel → result DataFrame
}.

Record layer := mkLayer {
  geom : Geom;
  stat : Stat;
  data : DataFrame;
  mapping : aes;
  position : Position;
  inherit_aes : bool;
  show_legend : option bool;
  _active_mapping : aes;
  zorder : Z
}.

(** The plot a stage is given: its mapping, its scales, and its environment,
    which evaluates an expression over a dataset ([env.eval(col,
    inner_namespace=data)]) to a value or raises. *)
Record Plot := mkPlot {
  plot_mapping : aes;
  scales : Scales;
  environment : string → DataFrame → result pyvalue
}.

(** [self.data = d] *)
Definition set_data (self : layer) (d : DataFrame) : layer :=
  {| geom := geom self; stat := stat self; data := d; mapping := mapping self;
     position := position self; inherit_aes := inherit_aes self;
     show_legend := show_legend self; _active_mapping := _active_mapping self;
     zorder := zorder self |}.

(** [self._active_mapping = m] *)
Definition set_active_mapping (self : layer) (m : aes) : layer :=
  {| geom := geom self; stat := stat self; data := data self; mapping := mapping self;
     position := position self; inherit_aes := inherit_aes self;
     show_legend := show_legend self; _active_mapping := m;
     zorder := zorder self |}.

Definition _TPL_EVAL_FAIL (ae col err : string) : string :=
  "Could not evaluate the '" +:+ ae +:+ "' mapping: '" +:+ col
  +:+ "' (original error: " +:+ err +:+ ")".

Definition _TPL_BAD_EVAL_TYPE (ae col type err : string) : string :=
  "The '" +:+ ae +:+ "' mapping: '" +:+ col +:+ "' produced a value of type '"
  +:+ type +:+ "',but only single items and lists/arrays can be used. "
  +:+ "(original error: " +:+ err +:+ ")".

Definition LENGTH_MISMATCH : string :=
  "Aesthetics must either be length one, or the same length as the data".

Definition UNKNOWN_AESTHETIC (ae : string) : string :=
  "Do not know how to deal with aesthetic '" +:+ ae +:+ "'".

(** [layer_mapping]: the mapping that is active in this layer, which is also
    what [self._active_mapping] becomes. *)
Definition layer_mapping (self : layer) (plot_aes : aes) : aes :=
  let aesthetics :=
    if inherit_aes self then defaults (mapping self) plot_aes else mapping self in
  let calculated := is_calculated_aes aesthetics in
  filter (λ kv, (kv.1 ∉ (aes_params (geom self)).*1) ∧ (kv.1 ∉ calculated)) aesthetics.

(** [len(col)] and [col[0]] of a list-like. *)
Definition list_len (col : pyvalue) : nat :=
  match col with
  | PList s | PSeries s => length (values s)
  | _ => 0
  end.

(** The elements of a list-like. *)
Definition items (col : pyvalue) : list value :=
  match col with
  | PList s | PSeries s => values s
  | _ => []
  end.

(** [col[0]]: a cell that holds a list is that list. *)
Definition first_item (col : pyvalue) : pyvalue :=
  match col with
  | PList s | PSeries s =>
      match values s with
      | VList inner :: _ => PList {| dtype_of := int64; values := VInt <$> inner |}
      | v :: _ => PScalar v
      | [] => col
      end
  | _ => col
  end.

(** The body of the loop [for ae, col in aesthetics.items()]. The state is
    [evaled] and [has_aes_params]. *)
Definition resolve_aesthetic (env : string → DataFrame → result pyvalue)
    (data : DataFrame) (ae : string) (col : pyvalue) (st : DataFrame * bool)
  : result (DataFrame * bool) :=
  match col with
  | PStr expr =>
      if has_column data expr then
        c ← getitem data expr;
        evaled ← setitem st.1 ae (PSeries c);
        Ok (evaled, st.2)
      else
        match env expr data with
        | Raise e => Raise (GgplotError (_TPL_EVAL_FAIL ae expr (str e)))
        | Ok new_val =>
            match setitem st.1 ae new_val with
            | Raise e =>
                Raise (GgplotError
                         (_TPL_BAD_EVAL_TYPE ae expr (type_name new_val) (str e)))
            | Ok evaled => Ok (evaled, st.2)
            end
        end
  | _ =>
      if is_list_like col then
        let n := list_len col in
        if bool_decide (len data ≠ 0%nat) && bool_decide (n ≠ len data) &&
           bool_decide (n ≠ 1%nat)
        then Raise (GgplotError LENGTH_MISMATCH)
        else
          let col' := if decide (n = 1%nat) then first_item col else col in
          evaled ← setitem st.1 ae col';
          Ok (evaled, true)
      else if is_number col then
        evaled ← setitem st.1 ae col;
        Ok (evaled, st.2)
      else Raise (GgplotError (UNKNOWN_AESTHETIC ae))
  end.

Fixpoint resolve_aesthetics (env : string → DataFrame → result pyvalue)
    (data : DataFrame) (aesthetics : aes) (st : DataFrame * bool)
  : result (DataFrame * bool) :=
  match aesthetics with
  | [] => Ok st
  | (ae, col) :: rest =>
      st' ← resolve_aesthetic env data ae col st;
      resolve_aesthetics env data rest st'
  end.

(** [if s.dtype == np.int: s = s.astype(np.float)] *)
Definition widen (s : Series) : Series :=
  if decide (dtype_of s = int64) then astype_float s else s.

(** [for col in evaled: evaled[col] = ...] with the test above. *)
Definition widen_ints (evaled : DataFrame) : DataFrame :=
  {| index := index evaled; columns := prod_map id widen <$> columns evaled |}.

(** [with suppress(KeyError): aesthetics['group'] = self.geom.aes_params['group']] *)
Definition override_group (self : layer) (aesthetics : aes) : aes :=
  match aes_get "group" (aes_params (geom self)) with
  | Some g => aes_set "group" g aesthetics
  | None => aesthetics
  end.

(** The mapping the loop of [compute_aesthetics] runs over. *)
Definition active_aesthetics (self : layer) (plot : Plot) : aes :=
  override_group self (layer_mapping self (plot_mapping plot)).

(** The PANEL assignment that ends [compute_aesthetics]. *)
Definition set_panel (data evaled : DataFrame) (has_aes_params : bool)
  : result DataFrame :=
  if bool_decide (len data = 0%nat) && has_aes_params then
    setitem evaled "PANEL" (PScalar (VInt 1))
  else
    p ← getitem data "PANEL";
    setitem evaled "PANEL" (PSeries p).

(** The dataframe built by [compute_aesthetics] before [add_group], with the
    flag [has_aes_params]. *)
Definition evaluate (self : layer) (plot : Plot) : result (DataFrame * bool) :=
  st ← resolve_aesthetics (environment plot) (data self) (active_aesthetics self plot)
         (frame_with_index (data self), false);
  Ok (widen_ints st.1, st.2).

(** [compute_aesthetics(self, plot)]: the layer and the scales it leaves.
    [self._active_mapping] is the dict the loop ran over, group override
    included, since [layer_mapping] returns the very dict it stores. *)
Definition compute_aesthetics (self : layer) (plot : Plot) : result (layer * Scales) :=
  st ← evaluate self plot;
  let scales' := add_defaults (scales plot) st.1 ((λ c, (c, c)) <$> names st.1) in
  evaled ← set_panel (data self) st.1 st.2;
  grouped ← add_group evaled;
  Ok (set_data (set_active_mapping self (active_aesthetics self plot)) grouped, scales').

(** The stages below return [type(data)()] on an empty dataset and [None]
    otherwise: the first component is the returned value. *)
Definition compute_statistic (self : layer) (p : panel)
  : result (option DataFrame * layer) :=
  if decide (len (data self) = 0%nat) then Ok (Some empty_frame, self)
  else
    ps ← stat_setup_params (stat self) (data self);
    d ← stat_use_defaults (stat self) (data self);
    d ← stat_setup_data (stat self) d;
    d ← stat_compute_layer (stat self) d ps p;
    Ok (None, set_data self d).

(** The loop of [map_statistic] over the calculated aesthetics: [new] and
    [stat_data]. *)
Fixpoint collect_statistics (data : DataFrame) (aesthetics : aes)
    (calculated : list string) (new : list (string * string)) (stat_data : DataFrame)
  : result (list (string * string) * DataFrame) :=
  match calculated with
  | [] => Ok (new, stat_data)
  | ae :: rest =>
      match aes_get ae aesthetics with
      | Some (PStr expr) =>
          let col := strip_dots expr in
          if decide (ae ≠ col) then
            c ← getitem data col;
            stat_data' ← setitem stat_data ae (PSeries c);
            collect_statistics data aesthetics rest (new ++ [(ae, col)]) stat_data'
          else
            collect_statistics data aesthetics rest (new ++ [(ae, col)]) stat_data
      | _ => Raise (TypeError "strip_dots of a mapping that is no string")
      end
  end.

(** The aesthetics [map_statistic] assembles from layer, plot and stat. *)
Definition statistic_aesthetics (self : layer) (plot : Plot) : aes :=
  let aesthetics :=
    if inherit_aes self then defaults (mapping self) (plot_mapping plot)
    else mapping self in
  defaults aesthetics (DEFAULT_AES (stat self)).

(** [map_statistic(self, plot)]: what it returns, the layer and the scales. *)
Definition map_statistic (self : layer) (plot : Plot)
  : result (option DataFrame * layer * Scales) :=
  if decide (len (data self) = 0%nat) then Ok (Some empty_frame, self, scales plot)
  else
    let aesthetics := statistic_aesthetics self plot in
    st ← collect_statistics (data self) aesthetics (is_calculated_aes aesthetics)
           [] empty_frame;
    match st.1 with
    | [] => Ok (Some (data self), self, scales plot)
    | _ :: _ =>
        let scales' := add_defaults (scales plot) (data self) st.1 in
        let stat_data :=
          if retransform (stat self) then transform_df scales' st.2 else st.2 in
        Ok (None, set_data self (concat_columns (data self) stat_data), scales')
    end.

Definition setup_data (self : layer) : result (option DataFrame * layer) :=
  if decide (len (data self) = 0%nat) then Ok (Some empty_frame, self)
  else
    d ← geom_setup_data (geom self) (data self);
    _ ← check_required_aesthetics (REQUIRED_AES (geom self))
          (names d ++ (aes_params (geom self)).*1) (geom_class_name (geom self));
    Ok (None, set_data self d).

Definition compute_position (self : layer) (p : panel) : result layer :=
  ps ← position_setup_params (position self) (data self);
  d ← position_setup_data (position self) (data self) ps;
  d ← position_compute_layer (position self) d ps p;
  Ok (set_data self d).

End Layer.

(** ** Concrete layers and plots used in the examples below *)

Module DataExamples.
Import Exn Frame Utils Grouping Layer.

Definition ints (l : list Z) : Series := {| dtype_of := int64; values := VInt <$> l |}.
Definition strs (l : list string) : Series := {| dtype_of := object_; values := VStr <$> l |}.
Definition floats (l : list Z) : Series :=
  {| dtype_of := float64; values := (λ z, VFloat (inject_Z z)) <$> l |}.

(** A geom, a stat and a position whose hooks hand the data back. *)
Definition geom_point : Geom :=
  {| geom_class_name := "geom_point"; aes_params := []; REQUIRED_AES := ["x"; "y"];
     geom_setup_data := Ok |}.

Definition stat_identity : Stat :=
  {| stat_setup_params := λ _, Ok []; stat_use_defaults := Ok; stat_setup_data := Ok;
     stat_compute_layer := λ d _ _, Ok d; DEFAULT_AES := []; retransform := false |}.

Definition position_identity : Position :=
  {| position_setup_params := λ _, Ok []; position_setup_data := λ d _, Ok d;
     position_compute_layer := λ d _ _, Ok d |}.

(** [data['x'].iloc[0]]: there is no first cell in a column without rows. *)
Definition first_x (d : DataFrame) : result value :=
  c ← getitem d "x";
  match values c with
  | v :: _ => Ok v
  | [] => Raise (IndexError "single positional indexer is out-of-bounds")
  end.

(** A geom, a stat and a position whose hooks read the first x of the data
    they are given. *)
Definition geom_first_x : Geom :=
  {| geom_class_name := "geom_first_x"; aes_params := []; REQUIRED_AES := ["x"];
     geom_setup_data := λ d, _ ← first_x d; Ok d |}.

Definition stat_first_x : Stat :=
  {| stat_setup_params := λ d, v ← first_x d; Ok [("first", PScalar v)];
     stat_use_defaults := Ok; stat_setup_data := Ok;
     stat_compute_layer := λ d _ _, Ok d; DEFAULT_AES := []; retransform := false |}.

Definition position_first_x : Position :=
  {| position_setup_params := λ d, v ← first_x d; Ok [("first", PScalar v)];
     position_setup_data := λ d _, Ok d;
     position_compute_layer := λ d _ _, Ok d |}.

Definition new_layer (d : DataFrame) (m : aes) : layer :=
  {| geom := geom_point; stat := stat_identity; data := d; mapping := m;
     position := position_identity; inherit_aes := true; show_legend := None;
     _active_mapping := []; zorder := 0 |}.

(** A layer whose geom, stat and position read the first x. *)
Definition new_layer_first_x (d : DataFrame) (m : aes) : layer :=
  {| geom := geom_first_x; stat := stat_first_x; data := d; mapping := m;
     position := position_first_x; inherit_aes := true; show_legend := None;
     _active_mapping := []; zorder := 0 |}.

(** An environment in which no name is defined. *)
Definition no_names (expr : string) (d : DataFrame) : result pyvalue :=
  Raise (NameError ("name '" +:+ expr +:+ "' is not defined")).

Definition scales0 : Scales := {| registered := []; transform_df := id |}.

Definition plot0 : Plot :=
  {| plot_mapping := []; scales := scales0; environment := no_names |}.

(** An environment that evaluates the text of one list, and no name. *)
Definition eval_literal (expr : string) (d : DataFrame) : result pyvalue :=
  if decide (expr = "[1, 2, 3]") then Ok (PList {| dtype_of := int64;
                                                   values := [VInt 1; VInt 2; VInt 3] |})
  else no_names expr d.

Definition plot_literal : Plot :=
  {| plot_mapping := []; scales := scales0; environment := eval_literal |}.

(** Five rows, in one panel. *)
Definition data5 : DataFrame :=
  {| index := 5;
     columns := [("x", ints [1; 2; 3; 4; 5]); ("PANEL", ints [1; 1; 1; 1; 1])] |}.

(** No row. *)
Definition data0 : DataFrame :=
  {| index := 0; columns := [("x", ints []); ("PANEL", ints [])] |}.

(** The dataset of the end-to-end scenario of the spec. *)
Definition data_xc : DataFrame :=
  {| index := 3;
     columns := [("x", ints [1; 2; 3]); ("c", strs ["a"; "b"; "a"]);
                 ("PANEL", ints [1; 1; 1])] |}.

(** Two rows with the same discrete value and an explicit group. *)
Definition data_grouped : DataFrame :=
  {| index := 2;
     columns := [("c", strs ["a"; "a"]); ("group", floats [1; 2])] |}.

(** The output of a summary statistic: y, ymin and ymax per x. *)
Definition data_summary : DataFrame :=
  {| index := 2;
     columns := [("x", floats [1; 2]); ("y", floats [5; 6]);
                 ("ymin", floats [4; 5]); ("ymax", floats [7; 8]);
                 ("PANEL", ints [1; 1]); ("group", ints [1; 1])] |}.

End DataExamples.

(** ** What the claims about the pipeline say, for one input *)

Module Statements.
Import Exn Frame Utils Grouping Layer.

(** "[compute_aesthetics] raises the length-mismatch error." *)
Definition raises_length_mismatch (self : layer) (plot : Plot) : Prop :=
  compute_aesthetics self plot = Raise (GgplotError LENGTH_MISMATCH).

(** "[compute_aesthetics] raises the evaluation error for [ae], mapped to
    [expr], with cause [e]." *)
Definition raises_eval_fail (self : layer) (plot : Plot)
    (ae expr : string) (e : exn) : Prop :=
  compute_aesthetics self plot = Raise (GgplotError (_TPL_EVAL_FAIL ae expr (str e))).

(** The cell a column holds for the scalar [v]: [v] itself, or the float of
    equal value when [v] is an int (int columns are widened). *)
Definition stored_cell (v : value) : value :=
  match v with
  | VInt z => VFloat (inject_Z z)
  | v => v
  end.

(** "The resolved dataset's column for [ae] has one cell per row of the
    source, each holding [v]." *)
Definition column_holds (self : layer) (plot : Plot) (ae : string) (v : value) : Prop :=
  ∃ l' sc s,
    compute_aesthetics self plot = Ok (l', sc) ∧
    lookup_column ae (columns (data l')) = Some s ∧
    values s = replicate (len (data self)) (stored_cell v).

(** "Two rows with the same tuple of discrete-column values get the same
    group id." *)
Definition same_key_same_id (d : DataFrame) : Prop :=
  ∀ d' disc ids (i j : nat),
    add_group d = Ok d' →
    discrete_columns d ["label"] = Ok disc →
    group_ids d' = Some ids →
    (i < len d)%nat → (j < len d)%nat →
    row (select d disc) i = row (select d disc) j →
    ids !! i = ids !! j.

(** [ids] codes the rows of [df]: one id per row, equal ids exactly for
    equal rows, and the ids used are exactly 1..K for K the number of
    distinct rows. *)
Definition codes_rows (df : DataFrame) (ids : list Z) : Prop :=
  length ids = index df ∧
  (∀ (i j : nat) a b, ids !! i = Some a → ids !! j = Some b →
     (a = b ↔ row df i = row df j)) ∧
  (∀ z : Z, z ∈ ids ↔ (1 ≤ z ≤ Z.of_nat (length (distinct (rows df))))%Z).

(** "After [compute_aesthetics] PANEL is the constant 1 when the source has
    no row and an aesthetic was given as a vector; otherwise it is the PANEL
    column of the source." *)
Definition panel_one_or_copied (self : layer) (plot : Plot) : Prop :=
  ∀ l' sc,
    compute_aesthetics self plot = Ok (l', sc) →
    lookup_column "PANEL" (columns (data l'))
    = if bool_decide (len (data self) = 0%nat) &&
         existsb (λ kv, is_list_like kv.2) (active_aesthetics self plot)
      then Some (broadcast (VInt 1) (len (data l')))
      else lookup_column "PANEL" (columns (data self)).

(** "The stage does not raise on this layer." *)
Definition does_not_raise {A} (r : result A) : Prop := ¬ raises r.

End Statements.

(** ** More on the object view: sequences of insertions, shared attributes *)

Module ObjectSequences.
Import PyObj Layers LayerObject ObjectExamples.

(** [for item in items: layers.append(item)] *)
Fixpoint append_each (h : gmap loc pyobj) (self items : list loc) : outcome :=
  match items with
  | [] => {| heap_after := h; self_after := self; returned := None |}
  | item :: rest =>
      append_each (heap_after (append h self item)) (self_after (append h self item)) rest
  end.

(** The last place of [r] in [l]. *)
Fixpoint last_index (r : loc) (l : list loc) : option nat :=
  match l with
  | [] => None
  | x :: rest =>
      match last_index r rest with
      | Some i => Some (S i)
      | None => if decide (x = r) then Some 0%nat else None
      end
  end.

(** A layer whose [mapping] and [_active_mapping] are one and the same
    object (the aes at 4). *)
Definition heap_shared : gmap loc pyobj :=
  <[20%positive := Instance [("geom", PRef 1%positive); ("stat", PRef 2%positive);
                             ("data", PRef 5%positive); ("mapping", PRef 4%positive);
                             ("position", PRef 3%positive); ("inherit_aes", PBool true);
                             ("show_legend", PNone);
                             ("_active_mapping", PRef 4%positive);
                             ("zorder", PInt 0)]]> base_heap.

Definition layer_shared : loc := 20%positive.

End ObjectSequences.

(** ** More of class layer: drawing parameters, and what the stages add *)

Module LayerDetails.
Import Exn Frame Utils Grouping Layer.

(** [d.update(other)] *)
Fixpoint update (d other : aes) : aes :=
  match other with
  | [] => d
  | (k, v) :: rest => update (aes_set k v d) rest
  end.

(** The keyword arguments that [layer.draw] hands to [geom.draw_layer]:
    [params = deepcopy(self.geom.params); params.update(self.stat.params);
    params['zorder'] = self.zorder]. The two [params] dicts are attributes of
    the geom and of the stat; they are taken as arguments. *)
Definition draw_params (geom_params stat_params : params) (self : layer) : params :=
  aes_set "zorder" (PScalar (VInt (zorder self))) (update geom_params stat_params).

(** [layer.draw(panel, coord)], for a geom whose [draw_layer] hook is
    [draw_layer]. *)
Definition draw {A : Type} (draw_layer : DataFrame → panel → A → params → result unit)
    (geom_params stat_params : params) (self : layer) (p : panel) (coord : A)
  : result unit :=
  draw_layer (data self) p coord (draw_params geom_params stat_params self).

(** The names of a frame after [df[k] = ...]: [k] keeps its place when the
    frame has it, and goes last otherwise. *)
Definition with_name (k : string) (l : list string) : list string :=
  if decide (k ∈ l) then l else l ++ [k].

(** The column [map_statistic] makes for the calculated aesthetic [ae]:
    none when [ae] is mapped to its own name. *)
Definition statistic_column (data : DataFrame) (aesthetics : aes) (ae : string)
  : option (string * Series) :=
  match aes_get ae aesthetics with
  | Some (PStr expr) =>
      if decide (ae ≠ strip_dots expr) then
        (λ c, (ae, c)) <$> lookup_column (strip_dots expr) (columns data)
      else None
  | _ => None
  end.

(** The pair [map_statistic] registers for the calculated aesthetic [ae]. *)
Definition statistic_pair (aesthetics : aes) (ae : string) : option (string * string) :=
  match aes_get ae aesthetics with
  | Some (PStr expr) => Some (ae, strip_dots expr)
  | _ => None
  end.

(** The frame [stat_data] that [map_statistic] builds: it has no row until
    it gets a column. *)
Definition statistic_frame (data : DataFrame) (aesthetics : aes)
    (calculated : list string) : DataFrame :=
  let cols := omap (statistic_column data aesthetics) calculated in
  {| index := match cols with [] => 0 | _ :: _ => index data end; columns := cols |}.

(** Every aesthetic mapped to a calculated name other than its own names,
    with the dots stripped, a column of the data. *)
Definition computed_columns_present (data : DataFrame) (aesthetics : aes) : Prop :=
  ∀ ae expr,
    (ae, PStr expr) ∈ aesthetics → is_calculated expr = true →
    ae ≠ strip_dots expr → has_column data (strip_dots expr) = true.

(** A mapped value that [compute_aesthetics] resolves over [d] without
    evaluating an expression: the name of a column, a number, or a vector of
    one item that is no list, or of one item per row. *)
Definition resolvable (d : DataFrame) (col : pyvalue) : Prop :=
  match col with
  | PStr expr => has_column d expr = true
  | PScalar _ => is_number col = true
  | PList s | PSeries s =>
      match values s with
      | [v] => hashable v = true
      | cells => length cells = len d
      end
  | PObject _ => False
  end.

(** A column that [discrete_columns] tests: of a discrete kind and not to be
    ignored. *)
Definition candidate (ignore : list string) (c : string * Series) : Prop :=
  kind (dtype_of c.2) ∈ DISCRETE_KINDS ∧ c.1 ∉ ignore.

#[global] Instance candidate_dec ignore c : Decision (candidate ignore c).
Proof. unfold candidate. apply _. Defined.

End LayerDetails.

(** ** class Layers: the stages over every layer *)

Module LayersStages.
Import Exn Frame Utils Grouping Layer.

(** [for l in self: l.stage(...)], where a stage may change what it is given
    besides the layer (the scales of the plot). The first exception ends the
    loop. *)
Fixpoint for_each {S : Type} (stage : S → layer → result (S * layer))
    (s : S) (layers : list layer) : result (S * list layer) :=
  match layers with
  | [] => Ok (s, [])
  | l :: rest =>
      st ← stage s l;
      st' ← for_each stage st.1 rest;
      Ok (st'.1, st.2 :: st'.2)
  end.

(** [plot] with its scales replaced. *)
Definition with_scales (plot : Plot) (sc : Scales) : Plot :=
  {| plot_mapping := plot_mapping plot; scales := sc; environment := environment plot |}.

(** The [data] property: [[l.data for l in self]]. *)
Definition data (layers : list layer) : list DataFrame := Layer.data <$> layers.

Definition setup_data (layers : list layer) : result (unit * list layer) :=
  for_each (λ _ l, st ← Layer.setup_data l; Ok (tt, st.2)) tt layers.

Definition compute_aesthetics (layers : list layer) (plot : Plot)
  : result (Scales * list layer) :=
  for_each (λ sc l, st ← Layer.compute_aesthetics l (with_scales plot sc); Ok (st.2, st.1))
    (scales plot) layers.

Definition compute_statistic (layers : list layer) (p : panel)
  : result (unit * list layer) :=
  for_each (λ _ l, st ← Layer.compute_statistic l p; Ok (tt, st.2)) tt layers.

Definition map_statistic (layers : list layer) (plot : Plot)
  : result (Scales * list layer) :=
  for_each (λ sc l, st ← Layer.map_statistic l (with_scales plot sc); Ok (st.2, st.1.2))
    (scales plot) layers.

Definition compute_position (layers : list layer) (p : panel)
  : result (unit * list layer) :=
  for_each (λ _ l, l' ← Layer.compute_position l p; Ok (tt, l')) tt layers.

(** [for l in self: l.data = scales.transform_df(l.data)] *)
Definition transform (layers : list layer) (sc : Scales) : list layer :=
  (λ l, set_data l (transform_df sc (Layer.data l))) <$> layers.

End LayersStages.

(** * Properties *)

(** ** Attribute access *)

Section attributes.
Import PyObj.

Lemma dict_get_set_eq k v d : dict_get k (dict_set k v d) = Some v.
Proof.
  induction d as [|[k' v'] d IH]; simpl.
  - by rewrite decide_True.
  - destruct (decide (k' = k)) as [->|Hne]; simpl.
    + by rewrite decide_True.
    + by rewrite decide_False.
Qed.

Lemma dict_get_set_ne k k' v d :
  k ≠ k' → dict_get k' (dict_set k v d) = dict_get k' d.
Proof.
  intros Hne. induction d as [|[k0 v0] d IH]; simpl.
  - by rewrite decide_False.
  - destruct (decide (k0 = k)) as [->|Hk0]; simpl.
    + by rewrite !decide_False.
    + destruct (decide (k0 = k')); [done | apply IH].
Qed.

Lemma dict_set_keys_in k v d :
  k ∈ d.*1 → (dict_set k v d).*1 = d.*1.
Proof.
  induction d as [|[k0 v0] d IH]; simpl; [by intros ?%elem_of_nil|].
  intros Hin. destruct (decide (k0 = k)) as [->|Hne]; simpl; [done|].
  f_equal. apply IH. apply elem_of_cons in Hin as [?|?]; [congruence|done].
Qed.

Lemma dict_set_keys_notin k v d :
  k ∉ d.*1 → (dict_set k v d).*1 = d.*1 ++ [k].
Proof.
  induction d as [|[k0 v0] d IH]; simpl; [done|].
  intros Hnin. apply not_elem_of_cons in Hnin as [Hne Hnin].
  rewrite decide_False by done. simpl. f_equal. by apply IH.
Qed.

Lemma getattr_setattr_eq h r k v :
  is_instance h r → getattr (setattr h r k v) r k = Some v.
Proof.
  intros [d Hd]. unfold getattr, setattr.
  rewrite lookup_alter_eq, Hd. simpl. apply dict_get_set_eq.
Qed.

Lemma getattr_setattr_ne_key h r r' k k' v :
  k ≠ k' → getattr (setattr h r k v) r' k' = getattr h r' k'.
Proof.
  intros Hne. unfold getattr, setattr.
  destruct (decide (r = r')) as [<-|Hr].
  - rewrite lookup_alter_eq. destruct (h !! r) as [[d|c s]|]; simpl; try done.
    by apply dict_get_set_ne.
  - by rewrite lookup_alter_ne.
Qed.

Lemma getattr_setattr_ne_loc h r r' k k' v :
  r ≠ r' → getattr (setattr h r k v) r' k' = getattr h r' k'.
Proof. intros Hne. unfold getattr, setattr. by rewrite lookup_alter_ne. Qed.

Lemma setattr_lookup_ne h r r' k v :
  r ≠ r' → setattr h r k v !! r' = h !! r'.
Proof. intros Hne. unfold setattr. by rewrite lookup_alter_ne. Qed.

Lemma setattr_is_instance h r r' k v :
  is_instance (setattr h r k v) r' ↔ is_instance h r'.
Proof.
  unfold is_instance, setattr. destruct (decide (r = r')) as [<-|Hne].
  - rewrite lookup_alter_eq. destruct (h !! r) as [[d|c s]|]; simpl;
      split; intros [d' Hd']; try discriminate; eauto.
  - by rewrite lookup_alter_ne.
Qed.

Lemma setattr_dom h r k v : dom (setattr h r k v) = dom h.
Proof.
  unfold setattr. apply set_eq. intros x. rewrite !elem_of_dom.
  destruct (decide (r = x)) as [<-|Hne].
  - rewrite lookup_alter_eq. destruct (h !! r); simpl; split; intros [? ?]; eauto; done.
  - by rewrite lookup_alter_ne.
Qed.

End attributes.

(** ** Layers: zorder bookkeeping *)

Section layers_zorder.
Import PyObj Layers.

Lemma zorder_lookup_eq (h1 h2 : gmap loc pyobj) r :
  h1 !! r = h2 !! r → zorder h1 r = zorder h2 r.
Proof. intros Heq. unfold zorder, getattr. by rewrite Heq. Qed.

Lemma zorder_setattr h r z :
  is_instance h r → zorder (setattr h r "zorder" (PInt z)) r = Some z.
Proof. intros Hi. unfold zorder. by rewrite getattr_setattr_eq. Qed.

Lemma enumerate_zorder_notin h start other r :
  r ∉ other → enumerate_zorder h start other !! r = h !! r.
Proof.
  revert h start. induction other as [|item rest IH]; intros h start Hnin; [done|].
  apply not_elem_of_cons in Hnin as [Hne Hnin]. simpl.
  rewrite IH by done. by apply setattr_lookup_ne.
Qed.

Lemma enumerate_zorder_other_attr h start other r k :
  k ≠ "zorder" → getattr (enumerate_zorder h start other) r k = getattr h r k.
Proof.
  intros Hk. revert h start. induction other as [|item rest IH]; intros h start; [done|].
  simpl. rewrite IH. by apply getattr_setattr_ne_key.
Qed.

Lemma enumerate_zorder_dom h start other :
  dom (enumerate_zorder h start other) = dom h.
Proof.
  revert h start. induction other as [|item rest IH]; intros h start; [done|].
  simpl. by rewrite IH, setattr_dom.
Qed.

(** A layer keeps the number of its last place in [other]. *)
Lemma enumerate_zorder_last h start other (i : nat) r :
  other !! i = Some r → r ∉ drop (S i) other → is_instance h r →
  zorder (enumerate_zorder h start other) r = Some (start + Z.of_nat i).
Proof.
  revert h start i. induction other as [|item rest IH]; intros h start i Hi Hlast Hinst;
    [done|].
  destruct i as [|i]; simpl in *.
  - injection Hi as ->. rewrite drop_0 in Hlast.
    rewrite (zorder_lookup_eq _ (setattr h r "zorder" (PInt start))).
    + rewrite zorder_setattr by done. f_equal. lia.
    + by apply enumerate_zorder_notin.
  - rewrite (IH _ _ i) by (try done; by apply setattr_is_instance).
    f_equal. lia.
Qed.

Lemma NoDup_not_later {A} (l : list A) (i : nat) x :
  NoDup l → l !! i = Some x → x ∉ drop (S i) l.
Proof.
  intros Hnd Hi Hin. apply list_elem_of_lookup in Hin as [j Hj].
  rewrite lookup_drop in Hj.
  pose proof (NoDup_lookup _ _ _ _ Hnd Hi Hj). lia.
Qed.

Lemma run_heap_after op h self :
  heap_after (run op h self)
  = enumerate_zorder h (Z.of_nat (length self) + 1) (inserted op).
Proof. by destruct op. Qed.

Lemma run_resulting_list op h self :
  resulting_list (run op h self) = self ++ inserted op.
Proof. by destruct op. Qed.

End layers_zorder.

Section layers_claims.
Import PyObj Layers LayerObject ObjectExamples.

Lemma zorders_ok_one_layer :
  zorders_ok (heap_after one_layer) (self_after one_layer).
Proof.
  intros [|i] r Hi; simpl in Hi; [|done].
  injection Hi as <-. by vm_compute.
Qed.

(** C1, as stated, fails when the appended layer is already a member:
    [layers = Layers(); layers.append(a); layers.append(a)] leaves
    [[a, a]] with [a.zorder == 2] at both places. *)
Lemma append_member_breaks_zorders :
  zorders_ok (heap_after one_layer) (self_after one_layer) ∧
  ¬ insertion_keeps_zorders (Append layer_a) (heap_after one_layer) (self_after one_layer).
Proof.
  split; [apply zorders_ok_one_layer|].
  intros Hkeep. specialize (Hkeep zorders_ok_one_layer 0%nat layer_a eq_refl).
  vm_compute in Hkeep. discriminate.
Qed.

(** C1, amended: when the inserted layers are pairwise distinct objects and
    none of them is already a member, every insertion operation (append,
    extend, [+=], [+]) turns a list numbered 1..N into the list
    [self ++ inserted] numbered 1..M, writes no attribute other than
    [zorder], and adds or removes no object. *)
Theorem insertion_of_new_layers_keeps_zorders
    (op : insertion) (h : gmap loc pyobj) (self : list loc) :
  zorders_ok h self →
  NoDup (inserted op) →
  (∀ r, r ∈ inserted op → r ∉ self) →
  (∀ r, r ∈ inserted op → is_instance h r) →
  resulting_list (run op h self) = self ++ inserted op ∧
  zorders_ok (heap_after (run op h self)) (resulting_list (run op h self)) ∧
  (∀ r k, k ≠ "zorder" → getattr (heap_after (run op h self)) r k = getattr h r k) ∧
  dom (heap_after (run op h self)) = dom h.
Proof.
  intros Hok Hnd Hnew Hinst.
  rewrite run_resulting_list, run_heap_after.
  split; [done|]. split; [|split].
  - intros i r Hi. destruct (decide (i < length self)%nat) as [Hlt|Hge].
    + rewrite lookup_app_l in Hi by done.
      rewrite (zorder_lookup_eq _ h); [by apply Hok|].
      apply enumerate_zorder_notin. intros Hin.
      apply (Hnew r Hin). apply list_elem_of_lookup. eauto.
    + rewrite lookup_app_r in Hi by lia.
      rewrite (enumerate_zorder_last _ _ _ (i - length self) r); try done.
      * f_equal. lia.
      * by apply NoDup_not_later.
      * apply Hinst. apply list_elem_of_lookup. eauto.
  - intros r k Hk. by apply enumerate_zorder_other_attr.
  - apply enumerate_zorder_dom.
Qed.

Lemma insertion_of_new_layers_keeps_zorders_witness :
  resulting_list (run (Append layer_b) (heap_after one_layer) (self_after one_layer))
  = [layer_a; layer_b] ∧
  zorder (heap_after (run (Append layer_b) (heap_after one_layer) (self_after one_layer)))
    layer_b = Some 2.
Proof.
  destruct (insertion_of_new_layers_keeps_zorders
              (Append layer_b) (heap_after one_layer) (self_after one_layer))
    as (Hres & Hz & _).
  - apply zorders_ok_one_layer.
  - apply NoDup_singleton.
  - intros r Hr%list_elem_of_singleton Hin%list_elem_of_singleton. by subst.
  - intros r Hr%list_elem_of_singleton. subst. eexists. by vm_compute.
  - split; [exact Hres|]. rewrite Hres in Hz. exact (Hz 1%nat layer_b eq_refl).
Defined.

(** C10, as stated, fails when an object occurs twice in the right operand:
    after [Layers() + [a, a]] the object [a] has zorder 2, so the first
    place of the operand does not read 1. *)
Lemma add_repeated_layer_not_in_order :
  ¬ add_numbers_in_order heap_ab [] [layer_a; layer_a].
Proof.
  intros Hord. specialize (Hord 0%nat layer_a eq_refl).
  vm_compute in Hord. discriminate.
Qed.

(** C10, amended: [self + other] (and likewise [extend] and [+=], which leave
    the same store) writes [zorder] into the layers of [other] in place: the
    layer at place [i] of [other] ends with zorder [len(self) + 1 + i],
    provided the same object does not occur again later in [other] (an
    object keeps the number of its last place). The sum is returned as a new
    list, [self] keeps its contents, and objects outside [other] are not
    touched. *)
Theorem add_numbers_operand_in_place
    (h : gmap loc pyobj) (self other : list loc) (i : nat) (r : loc) :
  other !! i = Some r →
  r ∉ drop (S i) other →
  is_instance h r →
  zorder (heap_after (__add__ h self other)) r
    = Some (Z.of_nat (length self) + 1 + Z.of_nat i) ∧
  returned (__add__ h self other) = Some (self ++ other) ∧
  self_after (__add__ h self other) = self ∧
  heap_after (extend h self other) = heap_after (__add__ h self other) ∧
  heap_after (__iadd__ h self other) = heap_after (__add__ h self other) ∧
  (∀ r', r' ∉ other → heap_after (__add__ h self other) !! r' = h !! r').
Proof.
  intros Hi Hlast Hinst. repeat split; try done.
  - simpl. by apply enumerate_zorder_last.
  - intros r' Hr'. simpl. by apply enumerate_zorder_notin.
Qed.

Lemma add_numbers_operand_in_place_witness :
  zorder (heap_after (__add__ (heap_after one_layer) (self_after one_layer) [layer_b]))
    layer_b = Some 2 ∧
  zorder heap_ab layer_b = Some 0.
Proof.
  split; [|by vm_compute].
  refine (proj1 (add_numbers_operand_in_place
                   (heap_after one_layer) (self_after one_layer) [layer_b] 0 layer_b
                   eq_refl _ _)).
  - simpl. apply not_elem_of_nil.
  - eexists. by vm_compute.
Defined.

End layers_claims.

(** ** layer.__deepcopy__ *)

Section deepcopy_facts.
Import PyObj LayerObject.

Variable rec :
  loc → gmap loc pyobj → gmap loc loc → option (loc * gmap loc pyobj * gmap loc loc).
Variables (h : gmap loc pyobj) (self result : loc).

Lemma fresh_loc_None (g : gmap loc pyobj) : g !! fresh_loc g = None.
Proof. apply not_elem_of_dom. unfold fresh_loc. apply is_fresh. Qed.

Lemma copied_mono (m m' : gmap loc loc) v v' :
  m ⊆ m' → copied m v v' → copied m' v v'.
Proof.
  intros Hsub. destruct v as [| | |r]; simpl; try done.
  intros (r' & Hr' & ->). exists r'. split; [|done].
  by eapply lookup_weaken.
Qed.

Lemma copy_inv_setattr hc mc k v :
  copy_inv h self result hc mc → copy_inv h self result (setattr hc result k v) mc.
Proof.
  intros [Hold Hnew Hres Hself Hmemo]. split; try done.
  - intros r Hr. rewrite setattr_lookup_ne; [by apply Hold|].
    intros <-. rewrite Hnew in Hr. by destruct Hr.
  - by apply setattr_is_instance.
  - intros r r' Hr. destruct (Hmemo r r' Hr) as (Hfresh & Hsome & Hcopy).
    split; [done|]. split.
    + apply elem_of_dom. rewrite setattr_dom. by apply elem_of_dom.
    + intros Hne. destruct (Hcopy Hne) as (Hr' & Hsr & Heq).
      repeat split; try done. by rewrite setattr_lookup_ne.
Qed.

Lemma deepcopy_plain hc mc v :
  copy_inv h self result hc mc → plain_value h self v →
  ∃ v' h' m', deepcopy rec v hc mc = Some (v', h', m') ∧
    copy_inv h self result h' m' ∧ mc ⊆ m' ∧ copied m' v v' ∧
    h' !! result = hc !! result.
Proof.
  intros Hinv Hplain. destruct v as [| | |r]; simpl;
    try (by eexists _, _, _; split_and!).
  destruct (mc !! r) as [r'|] eqn:Hmr.
  { eexists _, _, _. split_and!; [done| done | done | by exists r' | done]. }
  destruct Hinv as [Hold Hnew Hres Hself Hmemo].
  destruct Hplain as [->|(cls & state & Hr)]; [congruence|].
  assert (hc !! r = Some (Opaque cls state)) as Hcr
    by (rewrite Hold; [done | by rewrite Hr]).
  rewrite Hcr. pose proof (fresh_loc_None hc) as Hf.
  set (r' := fresh_loc hc) in *.
  assert (h !! r' = None) as Hhr'.
  { destruct (h !! r') eqn:E; [|done].
    rewrite Hold in Hf by (by rewrite E). congruence. }
  assert (r ≠ self) as Hrs by congruence.
  eexists _, _, _. split; [done|]. split; [split|split_and!].
  - intros r0 Hr0. rewrite lookup_insert_ne; [by apply Hold|].
    intros <-. rewrite Hhr' in Hr0. by destruct Hr0.
  - done.
  - destruct Hres as [d Hd]. exists d. rewrite lookup_insert_ne; [done|congruence].
  - by rewrite lookup_insert_ne.
  - intros r0 r0' Hr0. destruct (decide (r = r0)) as [<-|Hne].
    + rewrite lookup_insert_eq in Hr0. injection Hr0 as <-.
      split; [done|]. split; [by rewrite lookup_insert_eq|].
      intros _. destruct Hres as [d Hd].
      repeat split; [congruence | by rewrite Hr | by rewrite lookup_insert_eq, Hr].
    + rewrite lookup_insert_ne in Hr0 by done.
      destruct (Hmemo r0 r0' Hr0) as (Hfresh & Hsome & Hcopy).
      assert (r' ≠ r0') as Hne' by (intros <-; rewrite Hf in Hsome; by destruct Hsome).
      split; [done|]. split; [by rewrite lookup_insert_ne|].
      intros Hr0s. destruct (Hcopy Hr0s) as (? & ? & ?).
      repeat split; try done. by rewrite lookup_insert_ne.
  - by apply insert_subseteq.
  - exists r'. by rewrite lookup_insert_eq.
  - destruct Hres as [d Hd]. rewrite lookup_insert_ne; [done|congruence].
Qed.

End deepcopy_facts.

Section deepcopy_loop.
Import PyObj LayerObject.

Variable rec :
  loc → gmap loc pyobj → gmap loc loc → option (loc * gmap loc pyobj * gmap loc loc).
Variables (h : gmap loc pyobj) (self result : loc).

Lemma setattr_result_dict hc k v cur :
  hc !! result = Some (Instance cur) →
  setattr hc result k v !! result = Some (Instance (dict_set k v cur)).
Proof. intros Hc. unfold setattr. by rewrite lookup_alter_eq, Hc. Qed.

Lemma copy_items_plain todo :
  ∀ hc mc cur,
    copy_inv h self result hc mc →
    hc !! result = Some (Instance cur) →
    NoDup (cur.*1 ++ todo.*1) →
    Forall (λ kv, kv.1 ≠ "data" → plain_value h self kv.2) todo →
    ∃ h' m' new,
      copy_items rec todo result hc mc = Some (h', m') ∧
      copy_inv h self result h' m' ∧ mc ⊆ m' ∧
      h' !! result = Some (Instance new) ∧
      new.*1 = cur.*1 ++ todo.*1 ∧
      (∀ k, k ∈ cur.*1 → dict_get k new = dict_get k cur) ∧
      (∀ k v, (k, v) ∈ todo →
         ∃ v', dict_get k new = Some v' ∧
               if decide (k = "data") then v' = v else copied m' v v').
Proof.
  induction todo as [|[key item] rest IH]; intros hc mc cur Hinv Hcur Hnd Hplain.
  { exists hc, mc, cur. simpl. split_and!; try done.
    - by rewrite app_nil_r.
    - by intros k v ?%elem_of_nil. }
  simpl in Hnd. apply Forall_cons in Hplain as [Hitem Hrest]. simpl in Hitem.
  assert (key ∉ cur.*1) as Hkey.
  { apply NoDup_app in Hnd as (_ & Hdisj & _). intros Hin.
    apply (Hdisj _ Hin). by left. }
  assert (NoDup ((cur.*1 ++ [key]) ++ rest.*1)) as Hnd'
    by (by rewrite <- app_assoc).
  (* what the rest of the loop gives once [new[key] = v] is done *)
  assert (∀ hc1 mc1 v,
    copy_inv h self result hc1 mc1 → hc1 !! result = Some (Instance cur) → mc ⊆ mc1 →
    (if decide (key = "data") then v = item else copied mc1 item v) →
    ∃ h' m' new,
      copy_items rec rest result (setattr hc1 result key v) mc1 = Some (h', m') ∧
      copy_inv h self result h' m' ∧ mc ⊆ m' ∧
      h' !! result = Some (Instance new) ∧
      new.*1 = cur.*1 ++ key :: rest.*1 ∧
      (∀ k, k ∈ cur.*1 → dict_get k new = dict_get k cur) ∧
      (∀ k v0, (k, v0) ∈ (key, item) :: rest →
         ∃ v', dict_get k new = Some v' ∧
               if decide (k = "data") then v' = v0 else copied m' v0 v')) as Hstep.
  { intros hc1 mc1 v Hinv1 Hcur1 Hsub Hv.
    destruct (IH (setattr hc1 result key v) mc1 (dict_set key v cur))
      as (h' & m' & new & Hrun & Hinv' & Hsub' & Hnew & Hkeys & Hkept & Hdone).
    - by apply copy_inv_setattr.
    - by apply setattr_result_dict.
    - by rewrite dict_set_keys_notin.
    - done.
    - rewrite dict_set_keys_notin in Hkeys, Hkept by done.
      exists h', m', new. split_and!; try done.
      + by transitivity mc1.
      + by rewrite Hkeys, <- app_assoc.
      + intros k Hk. rewrite Hkept by (apply elem_of_app; by left).
        apply dict_get_set_ne. congruence.
      + intros k v0 [Heq|Hin]%elem_of_cons; [|by apply Hdone].
        injection Heq as -> ->. exists v. split.
        * rewrite Hkept by (apply elem_of_app; right; by apply list_elem_of_singleton).
          apply dict_get_set_eq.
        * destruct (decide (key = "data")); [done|]. by eapply copied_mono. }
  simpl. destruct (decide (key = "data")) as [Hdata|Hdata].
  - apply Hstep; try done; by rewrite decide_True.
  - destruct (deepcopy_plain rec h self result hc mc item Hinv (Hitem Hdata))
      as (v' & h1 & m1 & -> & Hinv1 & Hsub1 & Hcopied & Hres1).
    apply Hstep; try done; first [by rewrite Hres1 | by rewrite decide_False].
Qed.

End deepcopy_loop.

Section deepcopy_claims.
Import PyObj LayerObject ObjectExamples.

(** C9: [copy.deepcopy] of a layer returns a new layer object whose [data]
    attribute holds the very same reference as the original's, while every
    other attribute is duplicated: an atom (inherit_aes, show_legend, zorder)
    is carried over, and an object (geom, stat, position, mapping,
    _active_mapping) is replaced by a new object with the same state that the
    original store does not have. The objects of the original store are left
    as they were. One unit of fuel is enough for a layer whose attributes
    hold no other layer. *)
Theorem deepcopy_shares_data_duplicates_rest
    (fuel : nat) (h : gmap loc pyobj) (self : loc) (old : pydict) :
  h !! self = Some (Instance old) →
  NoDup old.*1 →
  Forall (λ kv, kv.1 ≠ "data" → plain_value h self kv.2) old →
  ∃ result h' memo' new,
    __deepcopy__ (S fuel) self h ∅ = Some (result, h', memo') ∧
    h !! result = None ∧
    (∀ r, is_Some (h !! r) → h' !! r = h !! r) ∧
    h' !! result = Some (Instance new) ∧
    duplicates h h' self result old new.
Proof.
  intros Hself Hnd Hplain. simpl. rewrite Hself.
  set (result := fresh_loc h).
  pose proof (fresh_loc_None h) as Hfresh. fold result in Hfresh.
  assert (copy_inv h self result (<[result := Instance []]> h) (<[self := result]> ∅))
    as Hinv.
  { split.
    - intros r Hr. rewrite lookup_insert_ne; [done|].
      intros <-. rewrite Hfresh in Hr. by destruct Hr.
    - done.
    - exists []. by rewrite lookup_insert_eq.
    - by rewrite lookup_insert_eq.
    - intros r r' Hr. destruct (decide (self = r)) as [<-|Hne].
      + rewrite lookup_insert_eq in Hr. injection Hr as <-.
        split; [done|]. split; [by rewrite lookup_insert_eq | done].
      + rewrite lookup_insert_ne in Hr by done. by rewrite lookup_empty in Hr. }
  destruct (copy_items_plain (__deepcopy__ fuel) h self result old
              (<[result := Instance []]> h) (<[self := result]> ∅) [])
    as (h' & m' & new & -> & Hinv' & Hsub & Hnew & Hkeys & _ & Hdone);
    [done | by rewrite lookup_insert_eq | done | done |].
  exists result, h', m', new. destruct Hinv' as [Hold _ _ Hms Hmemo].
  split_and!; try done. split; [done|].
  intros k v Hin. destruct (Hdone k v Hin) as (v' & Hget & Hv').
  destruct (decide (k = "data")) as [Hk|Hk]; [by subst v'|].
  destruct v as [| | |r]; simpl in Hv'; try (by subst v').
  destruct Hv' as (r' & Hr' & ->). exists r'.
  destruct (Hmemo r r' Hr') as (Hnone & _ & Hcopy).
  split_and!; try done.
  destruct (decide (r = self)) as [->|Hne]; [congruence|].
  by destruct (Hcopy Hne) as (_ & _ & ?).
Qed.

Lemma deepcopy_shares_data_duplicates_rest_witness :
  ∃ result h' memo' new,
    __deepcopy__ 1 layer_a heap_ab ∅ = Some (result, h', memo') ∧
    heap_ab !! result = None ∧
    (∀ r, is_Some (heap_ab !! r) → h' !! r = heap_ab !! r) ∧
    h' !! result = Some (Instance new) ∧
    duplicates heap_ab h' layer_a result
      [("geom", PRef 1%positive); ("stat", PRef 2%positive);
       ("data", PRef 5%positive); ("mapping", PRef 4%positive);
       ("position", PRef 3%positive); ("inherit_aes", PBool true);
       ("show_legend", PNone); ("_active_mapping", PRef 6%positive);
       ("zorder", PInt 0)] new.
Proof.
  apply (deepcopy_shares_data_duplicates_rest 0 heap_ab layer_a).
  - by vm_compute.
  - apply (bool_decide_unpack _). by vm_compute.
  - repeat apply Forall_cons_2; try apply Forall_nil_2; simpl; intros Hk;
      try done; right; eexists _, _; by vm_compute.
Defined.

(** The copy made from [layer_a]: [data] is still the dataframe at 5, the
    other objects are new cells. *)
Example deepcopy_layer_a :
  ∃ h' memo',
    __deepcopy__ 1 layer_a heap_ab ∅ = Some (10%positive, h', memo') ∧
    h' !! 10%positive
    = Some (Instance
        [("geom", PRef 11%positive); ("stat", PRef 12%positive);
         ("data", PRef 5%positive); ("mapping", PRef 13%positive);
         ("position", PRef 14%positive); ("inherit_aes", PBool true);
         ("show_legend", PNone); ("_active_mapping", PRef 15%positive);
         ("zorder", PInt 0)]) ∧
    h' !! 11%positive = heap_ab !! 1%positive.
Proof. eexists _, _. split; [by vm_compute|]. split; by vm_compute. Qed.

End deepcopy_claims.

(** ** map_statistic and duplicate columns *)

Section map_statistic_claims.
Import Exn Frame Utils Grouping Layer DataExamples Statements.

(** C7 (the code breaks the claim): the statistic's output has the columns
    x, y, ymin, ymax, PANEL, group, all distinct, and y is mapped to
    '..ymax..'. The guard [ae != new[ae]] only covers y = '..y..', so
    [stat_data] gets a column y and the concatenation yields y twice. *)
Example map_statistic_duplicates_column :
  NoDup (names data_summary) ∧
  ∃ l' sc',
    map_statistic (new_layer data_summary [("x", PStr "x"); ("y", PStr "..ymax..")]) plot0
    = Ok (None, l', sc') ∧
    names (data l') = ["x"; "y"; "ymin"; "ymax"; "PANEL"; "group"; "y"] ∧
    ¬ NoDup (names (data l')).
Proof.
  split; [apply (bool_decide_unpack _); by vm_compute|].
  eexists _, _. split; [by vm_compute|]. split; [by vm_compute|].
  intros Hnd. apply (bool_decide_pack _) in Hnd. by vm_compute in Hnd.
Qed.

(** The case the guard does cover, y = '..y..': no column is added. *)
Example map_statistic_same_name_adds_nothing :
  ∃ l' sc',
    map_statistic (new_layer data_summary [("x", PStr "x"); ("y", PStr "..y..")]) plot0
    = Ok (None, l', sc') ∧
    names (data l') = names data_summary.
Proof. eexists _, _. split; by vm_compute. Qed.

End map_statistic_claims.

(** ** Stages on an empty dataset *)

Section empty_dataset_claims.
Import Exn Frame Utils Grouping Layer DataExamples Statements.

(** [setup_data], [compute_statistic] and [map_statistic] test for a dataset
    without rows first: on one they return a new empty dataset without
    calling any hook, and leave the layer and the scales as they were. *)
Lemma guarded_stages_return_empty (self : layer) (plot : Plot) (p : panel) :
  len (data self) = 0%nat →
  setup_data self = Ok (Some empty_frame, self) ∧
  compute_statistic self p = Ok (Some empty_frame, self) ∧
  map_statistic self plot = Ok (Some empty_frame, self, scales plot).
Proof.
  intros Hlen. unfold setup_data, compute_statistic, map_statistic.
  by rewrite !decide_True by done.
Qed.

(** C8: [compute_position] is the one stage that breaks the claim. Take a
    layer whose geom, stat and position all read the first row of the
    dataset they are given, over a dataset without rows. [setup_data],
    [compute_statistic] and [map_statistic] return a new empty dataset and
    never call the hooks; [compute_aesthetics] resolves the mapping to a
    dataset without rows; but [compute_position], which has no test for an
    empty dataset, hands the dataset to the position, and the error of the
    hook is raised. Over five rows every stage of the same layer
    succeeds. *)
Example compute_position_raises_on_empty_dataset :
  len (data (new_layer_first_x data0 [("x", PStr "x")])) = 0%nat ∧
  setup_data (new_layer_first_x data0 [("x", PStr "x")])
  = Ok (Some empty_frame, new_layer_first_x data0 [("x", PStr "x")]) ∧
  compute_statistic (new_layer_first_x data0 [("x", PStr "x")]) 0%nat
  = Ok (Some empty_frame, new_layer_first_x data0 [("x", PStr "x")]) ∧
  map_statistic (new_layer_first_x data0 [("x", PStr "x")]) plot0
  = Ok (Some empty_frame, new_layer_first_x data0 [("x", PStr "x")], scales plot0) ∧
  (∃ l' sc,
     compute_aesthetics (new_layer_first_x data0 [("x", PStr "x")]) plot0 = Ok (l', sc) ∧
     len (data l') = 0%nat) ∧
  compute_position (new_layer_first_x data0 [("x", PStr "x")]) 0%nat
  = Raise (IndexError "single positional indexer is out-of-bounds") ∧
  does_not_raise (setup_data (new_layer_first_x data5 [("x", PStr "x")])) ∧
  does_not_raise (compute_statistic (new_layer_first_x data5 [("x", PStr "x")]) 0%nat) ∧
  does_not_raise (compute_aesthetics (new_layer_first_x data5 [("x", PStr "x")]) plot0) ∧
  does_not_raise (compute_position (new_layer_first_x data5 [("x", PStr "x")]) 0%nat).
Proof.
  destruct (guarded_stages_return_empty
              (new_layer_first_x data0 [("x", PStr "x")]) plot0 0%nat eq_refl)
    as (Hsetup & Hstat & Hmap).
  split; [done|]. split; [exact Hsetup|]. split; [exact Hstat|]. split; [exact Hmap|].
  split; [eexists _, _; split; [by vm_compute | done]|].
  split; [by vm_compute|].
  split_and!; intros Hraises; by vm_compute in Hraises.
Qed.

End empty_dataset_claims.

(** ** Assignment to a dataframe *)

Section frame_facts.
Import Exn Frame.

Lemma lookup_store_column_eq col s cols :
  lookup_column col (store_column col s cols) = Some s.
Proof.
  induction cols as [|[name s'] cols IH]; simpl.
  - by rewrite decide_True.
  - destruct (decide (name = col)) as [->|Hne]; simpl.
    + by rewrite decide_True.
    + by rewrite decide_False.
Qed.

Lemma lookup_store_column_ne col col' s cols :
  col ≠ col' → lookup_column col' (store_column col s cols) = lookup_column col' cols.
Proof.
  intros Hne. induction cols as [|[name s'] cols IH]; simpl.
  - by rewrite decide_False.
  - destruct (decide (name = col)) as [->|Hname]; simpl.
    + by rewrite !decide_False.
    + destruct (decide (name = col')); [done | apply IH].
Qed.

Lemma has_column_lookup df col :
  has_column df col = true → ∃ s, lookup_column col (columns df) = Some s.
Proof.
  unfold has_column, names. intros Hin%bool_decide_eq_true.
  induction (columns df) as [|[name s] cols IH]; simpl in *.
  - by apply elem_of_nil in Hin.
  - destruct (decide (name = col)); [by eexists|].
    apply IH. apply elem_of_cons in Hin as [?|?]; [congruence|done].
Qed.

Lemma lookup_has_column df col s :
  lookup_column col (columns df) = Some s → has_column df col = true.
Proof.
  unfold has_column, names. intros Hl. apply bool_decide_eq_true.
  induction (columns df) as [|[name s'] cols IH]; simpl in *; [done|].
  destruct (decide (name = col)) as [->|Hne]; [by left|]. right. by apply IH.
Qed.

(** Assignment to a frame that has rows keeps the rows and the other
    columns. *)
Lemma setitem_with_rows df col x df' :
  index df ≠ 0%nat → setitem df col x = Ok df' →
  index df' = index df ∧
  ∀ col', col ≠ col' → lookup_column col' (columns df') = lookup_column col' (columns df).
Proof.
  intros Hrows.
  assert (∀ s, Ok {| index := index df; columns := store_column col s (columns df) |}
               = Ok df' →
    index df' = index df ∧
    ∀ col', col ≠ col' → lookup_column col' (columns df') = lookup_column col' (columns df))
    as Hstore.
  { intros s. injection 1 as <-. split; [done|].
    intros col' Hne. by apply lookup_store_column_ne. }
  unfold setitem. destruct x as [s|v|s|s|t].
  - apply Hstore.
  - destruct v; try apply Hstore.
    rewrite decide_False by done. destruct (decide _); [apply Hstore | done].
  - rewrite decide_False by done. destruct (decide _); [apply Hstore | done].
  - rewrite decide_False by done. apply Hstore.
  - done.
Qed.

(** A cell that is no list is repeated down the rows. *)
Lemma setitem_scalar df col v :
  hashable v = true →
  setitem df col (PScalar v)
  = Ok {| index := index df;
          columns := store_column col (broadcast v (index df)) (columns df) |}.
Proof. by destruct v. Qed.

(** A frame with distinct labels has one column for each of them. *)
Lemma count_label_NoDup df col :
  NoDup (names df) → col ∈ names df → count_label df col = 1%nat.
Proof.
  assert (∀ l : list string, col ∉ l → filter (λ c, c = col) l = []) as Hnone.
  { induction l as [|c l IH]; [done|]. intros [Hne Hnin]%not_elem_of_cons.
    rewrite filter_cons, decide_False by congruence. by apply IH. }
  unfold count_label. induction (names df) as [|c l IH]; [by intros _ ?%elem_of_nil|].
  intros [Hc Hl]%NoDup_cons Hin. rewrite filter_cons.
  destruct (decide (c = col)) as [->|Hne].
  - by rewrite Hnone.
  - apply IH; [done|]. apply elem_of_cons in Hin as [?|?]; [congruence | done].
Qed.

Lemma lookup_column_elem_of col s (cols : list (string * Series)) :
  lookup_column col cols = Some s → col ∈ cols.*1.
Proof.
  induction cols as [|[name s'] cols IH]; [done|].
  cbn [lookup_column]. rewrite fmap_cons. cbn [fst].
  destruct (decide (name = col)) as [->|Hne]; [by left | right; by apply IH].
Qed.

(** [df[col]] of a frame with distinct labels. *)
Lemma getitem_ok df col s :
  NoDup (names df) → lookup_column col (columns df) = Some s → getitem df col = Ok s.
Proof.
  intros Hnd Hs. unfold getitem. rewrite Hs.
  rewrite decide_True; [done|]. apply count_label_NoDup; [done|].
  by eapply lookup_column_elem_of.
Qed.

Lemma getitem_Ok df col s :
  getitem df col = Ok s → lookup_column col (columns df) = Some s.
Proof.
  unfold getitem. destruct (lookup_column col (columns df)) as [s'|]; [|done].
  destruct (decide _); [by injection 1 as -> | done].
Qed.

Lemma getitem_missing df col :
  lookup_column col (columns df) = None → getitem df col = Raise (KeyError col).
Proof. intros Hs. unfold getitem. by rewrite Hs. Qed.

Lemma bind_Ok {A B} (a : A) (k : A → result B) : Ok a ≫= k = k a.
Proof. done. Qed.

Lemma setitem_series_ok df col s : ∃ df', setitem df col (PSeries s) = Ok df'.
Proof. simpl. destruct (decide (index df = 0%nat)); by eexists. Qed.

Lemma setitem_scalar_ok df col v :
  hashable v = true → ∃ df', setitem df col (PScalar v) = Ok df'.
Proof. intros Hv. rewrite setitem_scalar by done. by eexists. Qed.

Lemma setitem_list_ok df col s :
  index df ≠ 0%nat → length (values s) = index df →
  ∃ df', setitem df col (PList s) = Ok df'.
Proof. intros Hrows Hlen. simpl. rewrite decide_False, decide_True by done. by eexists. Qed.

Lemma reindex_same n s : length (values s) = n → reindex n s = s.
Proof.
  intros <-. unfold reindex. rewrite decide_True by done.
  rewrite firstn_all. by destruct s.
Qed.

End frame_facts.

(** ** compute_aesthetics: the loop over the mapping *)

Section resolve_facts.
Import Exn Frame Utils Grouping Layer.

Variable env : string → DataFrame → result pyvalue.
Variable d : DataFrame.

Local Opaque setitem.

Lemma resolve_aesthetics_app pre rest st :
  resolve_aesthetics env d (pre ++ rest) st
  = resolve_aesthetics env d pre st ≫= resolve_aesthetics env d rest.
Proof.
  revert st. induction pre as [|[ae col] pre IH]; intros st; simpl; [done|].
  destruct (resolve_aesthetic env d ae col st) as [st'|e]; simpl; [apply IH | done].
Qed.

(** A step that succeeds is one assignment to [evaled]; it sets the flag
    when the aesthetic is given as a vector. *)
Lemma resolve_aesthetic_ok ae col st st' :
  resolve_aesthetic env d ae col st = Ok st' →
  ∃ x, setitem st.1 ae x = Ok st'.1 ∧ st'.2 = st.2 || is_list_like col.
Proof.
  unfold resolve_aesthetic. intros Hstep.
  assert (∀ x (b : bool),
    (setitem st.1 ae x ≫= λ evaled, Ok (evaled, b)) = Ok st' →
    ∃ x, setitem st.1 ae x = Ok st'.1 ∧ st'.2 = b) as Hset.
  { intros x b. destruct (setitem st.1 ae x) as [ev|e] eqn:Hx; [|done].
    injection 1 as <-. by exists x. }
  destruct col as [expr|v|s|s|t].
  - rewrite orb_false_r. destruct (has_column d expr).
    + destruct (getitem d expr) as [c|e]; [by apply (Hset (PSeries c)) | done].
    + destruct (env expr d) as [new_val|e]; [|done].
      destruct (setitem st.1 ae new_val) as [ev|e] eqn:Hx; [|done].
      injection Hstep as <-. by exists new_val.
  - rewrite orb_false_r. change (is_list_like (PScalar v)) with false in Hstep.
    cbv iota in Hstep. destruct (is_number (PScalar v)); [by eapply Hset | done].
  - rewrite orb_true_r. change (is_list_like (PList s)) with true in Hstep.
    cbv iota in Hstep. case_match; [done | by eapply Hset].
  - rewrite orb_true_r. change (is_list_like (PSeries s)) with true in Hstep.
    cbv iota in Hstep. case_match; [done | by eapply Hset].
  - done.
Qed.

(** With rows in the data, a step that succeeds keeps the rows of [evaled]
    and its other columns. *)
Lemma resolve_aesthetic_with_rows ae col st st' :
  index st.1 ≠ 0%nat → resolve_aesthetic env d ae col st = Ok st' →
  index st'.1 = index st.1 ∧
  ∀ col', ae ≠ col' → lookup_column col' (columns st'.1) = lookup_column col' (columns st.1).
Proof.
  intros Hrows (x & Hx & _)%resolve_aesthetic_ok. by eapply setitem_with_rows.
Qed.

Lemma resolve_aesthetics_with_rows aesthetics st st' :
  index st.1 ≠ 0%nat → resolve_aesthetics env d aesthetics st = Ok st' →
  index st'.1 = index st.1 ∧
  ∀ col', col' ∉ aesthetics.*1 →
    lookup_column col' (columns st'.1) = lookup_column col' (columns st.1).
Proof.
  revert st. induction aesthetics as [|[ae col] rest IH]; intros st Hrows; simpl.
  - by injection 1 as <-.
  - destruct (resolve_aesthetic env d ae col st) as [st1|e] eqn:Hstep; simpl; [|done].
    intros Hrest. destruct (resolve_aesthetic_with_rows _ _ _ _ Hrows Hstep) as [Hi Hc].
    destruct (IH st1) as [Hi' Hc']; [congruence | done |].
    split; [congruence|]. intros col' [Hne Hnin]%not_elem_of_cons.
    rewrite Hc' by done. by apply Hc.
Qed.

(** The flag the loop leaves: an aesthetic given as a vector sets it. *)
Lemma resolve_aesthetics_flag aesthetics st st' :
  resolve_aesthetics env d aesthetics st = Ok st' →
  st'.2 = st.2 || existsb (λ kv, is_list_like kv.2) aesthetics.
Proof.
  revert st. induction aesthetics as [|[ae col] rest IH]; intros st; simpl.
  - injection 1 as <-. by rewrite orb_false_r.
  - destruct (resolve_aesthetic env d ae col st) as [st1|e] eqn:Hstep; simpl; [|done].
    intros Hrest. rewrite (IH _ Hrest).
    apply resolve_aesthetic_ok in Hstep as (_ & _ & ->). by rewrite orb_assoc.
Qed.

End resolve_facts.

(** ** compute_aesthetics: the errors of the loop *)

Section resolve_errors.
Import Exn Frame Utils Grouping Layer DataExamples Statements.

Lemma resolve_aesthetics_at env d pre ae col post st0 st :
  resolve_aesthetics env d pre st0 = Ok st →
  resolve_aesthetics env d (pre ++ (ae, col) :: post) st0
  = resolve_aesthetic env d ae col st ≫= resolve_aesthetics env d post.
Proof. intros Hpre. by rewrite resolve_aesthetics_app, Hpre. Qed.

Lemma resolve_aesthetic_mismatch env d ae col st :
  is_list_like col = true →
  len d ≠ 0%nat → list_len col ≠ len d → list_len col ≠ 1%nat →
  resolve_aesthetic env d ae col st = Raise (GgplotError LENGTH_MISMATCH).
Proof.
  intros Hlist Hrows Hlen Hone.
  destruct col as [expr|v|s|s|t]; try discriminate; unfold resolve_aesthetic;
    cbv beta iota delta [is_list_like]; by rewrite !bool_decide_eq_true_2.
Qed.

Lemma resolve_aesthetic_eval_fail env d ae expr st e :
  has_column d expr = false → env expr d = Raise e →
  resolve_aesthetic env d ae (PStr expr) st
  = Raise (GgplotError (_TPL_EVAL_FAIL ae expr (str e))).
Proof. intros Hcol Heval. unfold resolve_aesthetic. by rewrite Hcol, Heval. Qed.

(** What the loop raises, [compute_aesthetics] raises. *)
Lemma compute_aesthetics_loop_raises self plot e :
  resolve_aesthetics (environment plot) (data self) (active_aesthetics self plot)
    (frame_with_index (data self), false) = Raise e →
  compute_aesthetics self plot = Raise e.
Proof. intros Hloop. unfold compute_aesthetics, evaluate. by rewrite Hloop. Qed.

(** C3, as stated, fails when an aesthetic that comes earlier in the mapping
    fails first: with x mapped to an undefined name and y to a vector of
    length 3 over 5 rows, the error raised is the evaluation error of x. *)
Lemma earlier_failure_hides_length_mismatch :
  active_aesthetics (new_layer data5 [("x", PStr "nope"); ("y", PList (ints [1; 2; 3]))]) plot0
  = [("x", PStr "nope"); ("y", PList (ints [1; 2; 3]))] ∧
  len data5 = 5%nat ∧
  ¬ raises_length_mismatch
      (new_layer data5 [("x", PStr "nope"); ("y", PList (ints [1; 2; 3]))]) plot0.
Proof.
  split; [by vm_compute|]. split; [done|].
  unfold raises_length_mismatch. by vm_compute.
Qed.

(** C3, amended: for a dataset of N > 0 rows and an aesthetic of the active
    mapping given as a vector whose length is neither N nor 1,
    [compute_aesthetics] raises; what it raises is the length-mismatch
    [GgplotError] whenever the aesthetics that come before it in the mapping
    resolve without error. *)
Theorem vector_length_mismatch_raises
    (self : layer) (plot : Plot) (pre post : aes) (ae : string) (col : pyvalue) :
  active_aesthetics self plot = pre ++ (ae, col) :: post →
  is_list_like col = true →
  len (data self) ≠ 0%nat →
  list_len col ≠ len (data self) →
  list_len col ≠ 1%nat →
  raises (compute_aesthetics self plot) ∧
  (∀ st, resolve_aesthetics (environment plot) (data self) pre
           (frame_with_index (data self), false) = Ok st →
         raises_length_mismatch self plot).
Proof.
  intros Hactive Hlist Hrows Hlen Hone.
  assert (∀ st, resolve_aesthetics (environment plot) (data self) pre
             (frame_with_index (data self), false) = Ok st →
           raises_length_mismatch self plot) as Hpre.
  { intros st Hst. apply compute_aesthetics_loop_raises.
    rewrite Hactive, (resolve_aesthetics_at _ _ _ _ _ _ _ st Hst).
    by rewrite resolve_aesthetic_mismatch. }
  split; [|done].
  destruct (resolve_aesthetics (environment plot) (data self) pre
              (frame_with_index (data self), false)) as [st|e] eqn:Hst.
  - unfold raises_length_mismatch in Hpre. by rewrite (Hpre st).
  - rewrite (compute_aesthetics_loop_raises _ _ e); [done|].
    by rewrite Hactive, resolve_aesthetics_app, Hst.
Qed.

Lemma vector_length_mismatch_raises_witness :
  raises_length_mismatch
    (new_layer data5 [("x", PStr "x"); ("y", PList (ints [1; 2; 3]))]) plot0.
Proof.
  refine (proj2 (vector_length_mismatch_raises
    (new_layer data5 [("x", PStr "x"); ("y", PList (ints [1; 2; 3]))]) plot0
    [("x", PStr "x")] [] "y" (PList (ints [1; 2; 3])) _ _ _ _ _) _ _).
  - by vm_compute.
  - reflexivity.
  - by vm_compute.
  - by vm_compute.
  - by vm_compute.
  - by vm_compute.
Defined.

(** C5, as stated, fails in the same way: with x mapped to a vector of the
    wrong length and y to an undefined name, the error raised is the
    length-mismatch error of x. *)
Lemma earlier_failure_hides_eval_fail :
  has_column data5 "nope" = false ∧
  environment plot0 "nope" data5 = Raise (NameError "name 'nope' is not defined") ∧
  ¬ raises_eval_fail
      (new_layer data5 [("x", PList (ints [1; 2; 3])); ("y", PStr "nope")]) plot0
      "y" "nope" (NameError "name 'nope' is not defined").
Proof.
  split; [by vm_compute|]. split; [by vm_compute|].
  unfold raises_eval_fail. by vm_compute.
Qed.

(** C5, amended: for an aesthetic of the active mapping given as a string
    that names no column and whose evaluation raises [e],
    [compute_aesthetics] raises; when the aesthetics that come before it in
    the mapping resolve without error, what it raises is the [GgplotError]
    whose message holds the aesthetic name, the expression text and
    [str(e)]. *)
Theorem eval_failure_raises
    (self : layer) (plot : Plot) (pre post : aes) (ae expr : string) (e : exn) :
  active_aesthetics self plot = pre ++ (ae, PStr expr) :: post →
  has_column (data self) expr = false →
  environment plot expr (data self) = Raise e →
  raises (compute_aesthetics self plot) ∧
  (∀ st, resolve_aesthetics (environment plot) (data self) pre
           (frame_with_index (data self), false) = Ok st →
         raises_eval_fail self plot ae expr e) ∧
  _TPL_EVAL_FAIL ae expr (str e)
  = "Could not evaluate the '" +:+ ae +:+ "' mapping: '" +:+ expr
    +:+ "' (original error: " +:+ str e +:+ ")".
Proof.
  intros Hactive Hcol Heval.
  assert (∀ st, resolve_aesthetics (environment plot) (data self) pre
             (frame_with_index (data self), false) = Ok st →
           raises_eval_fail self plot ae expr e) as Hpre.
  { intros st Hst. apply compute_aesthetics_loop_raises.
    rewrite Hactive, (resolve_aesthetics_at _ _ _ _ _ _ _ st Hst).
    by rewrite (resolve_aesthetic_eval_fail _ _ _ _ _ e). }
  split; [|by split].
  destruct (resolve_aesthetics (environment plot) (data self) pre
              (frame_with_index (data self), false)) as [st|e'] eqn:Hst.
  - unfold raises_eval_fail in Hpre. by rewrite (Hpre st).
  - rewrite (compute_aesthetics_loop_raises _ _ e'); [done|].
    by rewrite Hactive, resolve_aesthetics_app, Hst.
Qed.

Lemma eval_failure_raises_witness :
  compute_aesthetics (new_layer data5 [("x", PStr "x"); ("y", PStr "nope")]) plot0
  = Raise (GgplotError
      "Could not evaluate the 'y' mapping: 'nope' (original error: name 'nope' is not defined)").
Proof.
  refine (proj1 (proj2 (eval_failure_raises
    (new_layer data5 [("x", PStr "x"); ("y", PStr "nope")]) plot0
    [("x", PStr "x")] [] "y" "nope" (NameError "name 'nope' is not defined") _ _ _)) _ _).
  - by vm_compute.
  - by vm_compute.
  - by vm_compute.
  - by vm_compute.
Defined.

End resolve_errors.

(** ** compute_aesthetics: what follows the loop *)

Section after_the_loop.
Import Exn Frame Utils Grouping Layer DataExamples Statements.

Lemma lookup_widen_ints col df :
  lookup_column col (columns (widen_ints df)) = widen <$> lookup_column col (columns df).
Proof.
  unfold widen_ints. simpl. induction (columns df) as [|[name s] cols IH]; simpl; [done|].
  destruct (decide (name = col)); [done | apply IH].
Qed.

Lemma values_widen_broadcast v n :
  values (widen (broadcast v n)) = replicate n (stored_cell v).
Proof.
  unfold widen, broadcast. destruct v; simpl; try done.
  by rewrite fmap_replicate.
Qed.

Lemma evaluate_ok self plot ev has :
  evaluate self plot = Ok (ev, has) →
  ∃ st, resolve_aesthetics (environment plot) (data self) (active_aesthetics self plot)
          (frame_with_index (data self), false) = Ok st ∧
        ev = widen_ints st.1 ∧
        has = existsb (λ kv, is_list_like kv.2) (active_aesthetics self plot).
Proof.
  unfold evaluate.
  destruct (resolve_aesthetics _ _ _ _) as [st|e] eqn:Hloop; simpl; [|done].
  injection 1 as <- <-. exists st. split_and!; try done.
  by rewrite (resolve_aesthetics_flag _ _ _ _ _ Hloop).
Qed.

(** [add_group] keeps the rows and every column but "group". *)
Lemma add_group_keeps df df' :
  add_group df = Ok df' →
  index df' = index df ∧
  ∀ col, col ≠ "group" → lookup_column col (columns df') = lookup_column col (columns df).
Proof.
  unfold add_group. destruct (decide (len df = 0%nat)) as [Hz|Hnz].
  { by injection 1 as <-. }
  assert (∀ x, setitem df "group" x = Ok df' →
    index df' = index df ∧
    ∀ col, col ≠ "group" → lookup_column col (columns df') = lookup_column col (columns df))
    as Hset.
  { intros x Hx. destruct (setitem_with_rows _ _ _ _ Hnz Hx) as [Hi Hc].
    split; [done|]. intros col Hne. apply Hc. congruence. }
  destruct (negb (has_column df "group")); [|apply Hset].
  destruct (discrete_columns df ["label"]) as [[|c disc]|e]; [apply Hset..|done].
Qed.

(** The PANEL assignment. *)
Lemma set_panel_ok d ev has ev2 :
  set_panel d ev has = Ok ev2 →
  (if bool_decide (len d = 0%nat) && has
   then index ev2 = index ev ∧
        lookup_column "PANEL" (columns ev2) = Some (broadcast (VInt 1) (index ev2))
   else ∃ p, lookup_column "PANEL" (columns d) = Some p ∧
             lookup_column "PANEL" (columns ev2) = Some (reindex (index ev2) p)) ∧
  (index ev ≠ 0%nat →
     index ev2 = index ev ∧
     ∀ col, col ≠ "PANEL" → lookup_column col (columns ev2) = lookup_column col (columns ev)).
Proof.
  unfold set_panel. intros Hset. split.
  - destruct (bool_decide (len d = 0%nat) && has).
    + rewrite setitem_scalar in Hset by done. injection Hset as <-. simpl.
      split; [done | apply lookup_store_column_eq].
    + destruct (getitem d "PANEL") as [p|e] eqn:Hp; [|done].
      apply getitem_Ok in Hp.
      exists p. split; [done|]. revert Hset. simpl.
      destruct (decide (index ev = 0%nat)); injection 1 as <-; simpl.
      * rewrite lookup_store_column_eq. by rewrite reindex_same.
      * apply lookup_store_column_eq.
  - intros Hrows. destruct (bool_decide (len d = 0%nat) && has).
    + destruct (setitem_with_rows _ _ _ _ Hrows Hset) as [Hi Hc].
      split; [done|]. intros col Hne. apply Hc. congruence.
    + destruct (getitem d "PANEL") as [p|]; [|done].
      destruct (setitem_with_rows _ _ _ _ Hrows Hset) as [Hi Hc].
      split; [done|]. intros col Hne. apply Hc. congruence.
Qed.

End after_the_loop.

Section resolved_columns.
Import Exn Frame Utils Grouping Layer DataExamples Statements.

Lemma well_formed_lookup df col s :
  well_formed df → lookup_column col (columns df) = Some s → length (values s) = index df.
Proof.
  unfold well_formed. intros Hwf. induction Hwf as [|[name s'] cols Hhead Htail IH];
    simpl; [done|].
  destruct (decide (name = col)); [by injection 1 as <- | done].
Qed.

(** With rows in the data, the dataframe that [compute_aesthetics] builds has
    the rows of the data at every step. *)
Lemma compute_aesthetics_steps self plot l' sc :
  compute_aesthetics self plot = Ok (l', sc) →
  ∃ st ev2,
    resolve_aesthetics (environment plot) (data self) (active_aesthetics self plot)
      (frame_with_index (data self), false) = Ok st ∧
    set_panel (data self) (widen_ints st.1)
      (existsb (λ kv, is_list_like kv.2) (active_aesthetics self plot)) = Ok ev2 ∧
    add_group ev2 = Ok (data l').
Proof.
  unfold compute_aesthetics.
  destruct (evaluate self plot) as [[ev has]|e] eqn:Hev; [|done].
  destruct (evaluate_ok _ _ _ _ Hev) as (st & Hloop & -> & ->). simpl.
  destruct (set_panel _ _ _) as [ev2|e] eqn:Hpanel; [|done]. simpl.
  destruct (add_group ev2) as [g|e] eqn:Hgroup; [|done]. simpl.
  injection 1 as <- <-. by exists st, ev2.
Qed.

Lemma reindex_empty n s : values s = [] → values (reindex n s) = replicate n VNaN.
Proof.
  intros Hs. unfold reindex. rewrite Hs. cbn [length].
  destruct (decide (n ≤ 0)%nat) as [Hle|Hgt]; cbn [values].
  - by replace n with 0%nat by lia.
  - destruct (decide (dtype_of s = int64)); cbn [astype_float values];
      rewrite Hs, Nat.sub_0_r; done.
Qed.

(** C6, as stated, fails on a source dataset without rows when the rows of
    the resolved dataset come from an expression that evaluates to a vector:
    no aesthetic is given as a vector, so PANEL is taken from the source,
    whose PANEL column has no cell for the three rows: PANEL is NaN in each,
    which is neither 1 nor the column of the source. *)
Lemma evaluated_vector_leaves_panel_undefined :
  len data0 = 0%nat ∧
  existsb (λ kv, is_list_like kv.2)
    (active_aesthetics (new_layer data0 [("y", PStr "[1, 2, 3]")]) plot_literal) = false ∧
  (∃ l' sc,
     compute_aesthetics (new_layer data0 [("y", PStr "[1, 2, 3]")]) plot_literal
     = Ok (l', sc) ∧
     len (data l') = 3%nat ∧
     lookup_column "PANEL" (columns (data l'))
     = Some {| dtype_of := float64; values := [VNaN; VNaN; VNaN] |}) ∧
  ¬ panel_one_or_copied (new_layer data0 [("y", PStr "[1, 2, 3]")]) plot_literal.
Proof.
  split; [done|]. split; [by vm_compute|].
  destruct (compute_aesthetics (new_layer data0 [("y", PStr "[1, 2, 3]")]) plot_literal)
    as [[l' sc]|e] eqn:Hrun; [|by vm_compute in Hrun].
  assert (len (data l') = 3%nat ∧
          lookup_column "PANEL" (columns (data l'))
          = Some {| dtype_of := float64; values := [VNaN; VNaN; VNaN] |}) as [Hlen Hpanel]
    by (vm_compute in Hrun; by injection Hrun as <- _).
  split; [by exists l', sc|].
  intros Hclaim. specialize (Hclaim l' sc Hrun). rewrite Hpanel in Hclaim.
  by vm_compute in Hclaim.
Qed.

(** C6, amended: after [compute_aesthetics], the PANEL column of the resolved
    dataset is the constant 1 down its rows when the source dataset has no row
    and an aesthetic of the active mapping was given as a vector; otherwise it
    is the PANEL column of the source dataset, put on the rows of the resolved
    dataset. With rows in a source dataset whose columns all have its length,
    the two datasets have the same rows and the same PANEL column. With no
    row in the source and no aesthetic given as a vector, PANEL is NaN in
    every row that the resolved dataset has. *)
Theorem panel_column_of_resolved_dataset
    (self : layer) (plot : Plot) (l' : layer) (sc : Scales) :
  compute_aesthetics self plot = Ok (l', sc) →
  (if bool_decide (len (data self) = 0%nat) &&
      existsb (λ kv, is_list_like kv.2) (active_aesthetics self plot)
   then lookup_column "PANEL" (columns (data l'))
        = Some (broadcast (VInt 1) (len (data l')))
   else ∃ p, lookup_column "PANEL" (columns (data self)) = Some p ∧
             lookup_column "PANEL" (columns (data l'))
             = Some (reindex (len (data l')) p)) ∧
  (len (data self) ≠ 0%nat → well_formed (data self) →
   len (data l') = len (data self) ∧
   lookup_column "PANEL" (columns (data l'))
   = lookup_column "PANEL" (columns (data self))) ∧
  (len (data self) = 0%nat → well_formed (data self) →
   existsb (λ kv, is_list_like kv.2) (active_aesthetics self plot) = false →
   ∃ p, lookup_column "PANEL" (columns (data l')) = Some p ∧
        values p = replicate (len (data l')) VNaN).
Proof.
  intros (st & ev2 & Hloop & Hpanel & Hgroup)%compute_aesthetics_steps.
  destruct (add_group_keeps _ _ Hgroup) as [Hgi Hgc].
  destruct (set_panel_ok _ _ _ _ Hpanel) as [Hcol Hrows].
  unfold len in *. rewrite Hgi, Hgc by done.
  split; [|split].
  - destruct (bool_decide _ && existsb _ _); [by destruct Hcol | done].
  - intros Hnz Hwf.
    destruct (resolve_aesthetics_with_rows _ _ _ (frame_with_index (data self), false) _
                Hnz Hloop) as [Hli _].
    simpl in Hli, Hrows. rewrite Hli in Hrows. destruct (Hrows Hnz) as [Hpi _].
    split; [done|].
    rewrite bool_decide_eq_false_2 in Hcol by done. simpl in Hcol.
    destruct Hcol as (p & Hp & ->). rewrite Hp. f_equal. apply reindex_same.
    by rewrite (well_formed_lookup _ _ _ Hwf Hp).
  - intros Hz Hwf Hno. rewrite Hno, andb_false_r in Hcol.
    destruct Hcol as (p & Hp & ->). eexists. split; [done|].
    apply reindex_empty, length_zero_iff_nil.
    by rewrite (well_formed_lookup _ _ _ Hwf Hp).
Qed.

Lemma panel_column_of_resolved_dataset_witness :
  ∃ l' sc,
    compute_aesthetics (new_layer data0 [("x", PList (ints [5; 6; 7]))]) plot0 = Ok (l', sc) ∧
    lookup_column "PANEL" (columns (data l')) = Some (ints [1; 1; 1]).
Proof.
  destruct (compute_aesthetics (new_layer data0 [("x", PList (ints [5; 6; 7]))]) plot0)
    as [[l' sc]|e] eqn:Hrun; [|by vm_compute in Hrun].
  exists l', sc. split; [done|].
  pose proof (proj1 (panel_column_of_resolved_dataset _ _ _ _ Hrun)) as Hpanel.
  assert (len (data l') = 3%nat) as Hlen
    by (vm_compute in Hrun; by injection Hrun as <- _).
  rewrite Hlen in Hpanel. exact Hpanel.
Defined.

Lemma resolve_unit_vector env d ae col v st :
  is_list_like col = true → items col = [v] → hashable v = true → len d ≠ 0%nat →
  resolve_aesthetic env d ae col st
  = setitem st.1 ae (PScalar v) ≫= λ evaled, Ok (evaled, true).
Proof.
  intros Hlist Hitems Hv Hrows.
  destruct col as [expr|v'|s|s|t]; try discriminate; simpl in Hitems;
    unfold resolve_aesthetic, list_len, first_item;
    cbv beta iota delta [is_list_like]; rewrite Hitems; simpl length;
    rewrite (bool_decide_eq_false_2 (1 ≠ 1)%nat) by (by intros []);
    rewrite andb_false_r; by destruct v.
Qed.

(** C4, as stated, fails for the aesthetic "group": [add_group] codes the
    column again, so a group given as the one-element vector [7] over five
    rows ends as the id 1 in every row, not 7. *)
Lemma group_vector_is_recoded :
  ∃ l' sc,
    compute_aesthetics (new_layer data5 [("x", PStr "x"); ("group", PList (ints [7]))]) plot0
    = Ok (l', sc) ∧
    lookup_column "group" (columns (data l')) = Some (ints [1; 1; 1; 1; 1]) ∧
    ¬ column_holds (new_layer data5 [("x", PStr "x"); ("group", PList (ints [7]))]) plot0
        "group" (VInt 7).
Proof.
  destruct (compute_aesthetics
              (new_layer data5 [("x", PStr "x"); ("group", PList (ints [7]))]) plot0)
    as [[l' sc]|e] eqn:Hrun; [|by vm_compute in Hrun].
  exists l', sc. split; [done|].
  assert (lookup_column "group" (columns (data l')) = Some (ints [1; 1; 1; 1; 1])) as Hg
    by (vm_compute in Hrun; by injection Hrun as <- _).
  split; [done|].
  intros (l2 & sc2 & s & Hrun2 & Hs & Hvals). rewrite Hrun in Hrun2.
  injection Hrun2 as <- <-. rewrite Hg in Hs. injection Hs as <-.
  by vm_compute in Hvals.
Qed.

(** C4, amended: over a dataset of N > 0 rows, an aesthetic of the active
    mapping other than "group" and "PANEL" that is given as a vector of
    length 1 whose element is no list is unwrapped to its element before it
    is stored, and the resolved dataset's column for it has N cells, each
    holding that element (as the float of equal value when the element is an
    int, for ints that a float holds exactly: those between -2^53 and
    2^53). *)
Theorem unit_vector_is_broadcast
    (self : layer) (plot : Plot) (pre post : aes) (ae : string) (col : pyvalue)
    (v : value) (l' : layer) (sc : Scales) :
  active_aesthetics self plot = pre ++ (ae, col) :: post →
  NoDup (active_aesthetics self plot).*1 →
  is_list_like col = true →
  items col = [v] →
  hashable v = true →
  (∀ z, v = VInt z → (- 2 ^ 53 ≤ z ≤ 2 ^ 53)%Z) →
  len (data self) ≠ 0%nat →
  ae ≠ "group" → ae ≠ "PANEL" →
  compute_aesthetics self plot = Ok (l', sc) →
  (∀ st, resolve_aesthetic (environment plot) (data self) ae col st
         = setitem st.1 ae (PScalar v) ≫= λ evaled, Ok (evaled, true)) ∧
  lookup_column ae (columns (data l'))
  = Some (widen (broadcast v (len (data self)))) ∧
  column_holds self plot ae v.
Proof.
  intros Hactive Hnd Hlist Hitems Hv Hexact Hnz Hgroup Hpanel Hrun.
  split; [intros st; by apply resolve_unit_vector|].
  assert (lookup_column ae (columns (data l'))
          = Some (widen (broadcast v (len (data self))))) as Hcol.
  { destruct (compute_aesthetics_steps _ _ _ _ Hrun) as (st & ev2 & Hloop & Hp & Hg).
    rewrite Hactive, resolve_aesthetics_app in Hloop.
    destruct (resolve_aesthetics _ _ pre _) as [st1|e] eqn:Hpre; [|done].
    simpl in Hloop.
    destruct (resolve_aesthetic _ _ ae col st1) as [st2|e] eqn:Hstep; [|done].
    simpl in Hloop.
    destruct (resolve_aesthetics_with_rows _ _ _ (frame_with_index (data self), false) _
                Hnz Hpre) as [Hi1 _].
    simpl in Hi1. fold (len (data self)) in Hi1.
    rewrite (resolve_unit_vector _ _ _ _ v) in Hstep by done.
    rewrite setitem_scalar in Hstep by done. simpl in Hstep. injection Hstep as <-.
    assert (index st1.1 ≠ 0%nat) as Hnz1 by (by rewrite Hi1).
    destruct (λ H, resolve_aesthetics_with_rows _ _ _ _ _ H Hloop) as [Hi3 Hc3];
      [done|]. simpl in Hi3, Hc3.
    assert (ae ∉ post.*1) as Hpost.
    { rewrite Hactive, fmap_app in Hnd. apply NoDup_app in Hnd as (_ & _ & Hnd).
      simpl in Hnd. by apply NoDup_cons in Hnd as [? _]. }
    destruct (set_panel_ok _ _ _ _ Hp) as [_ Hrows].
    change (index (widen_ints st.1)) with (index st.1) in Hrows.
    rewrite Hi3 in Hrows. destruct (Hrows Hnz1) as [_ Hc2].
    destruct (add_group_keeps _ _ Hg) as [_ Hcg].
    rewrite Hcg, Hc2, lookup_widen_ints, Hc3 by done.
    by rewrite lookup_store_column_eq, Hi1. }
  split; [done|].
  exists l', sc, (widen (broadcast v (len (data self)))).
  split_and!; try done. apply values_widen_broadcast.
Qed.

Lemma unit_vector_is_broadcast_witness :
  column_holds (new_layer data5 [("x", PStr "x"); ("size", PList (ints [7]))]) plot0
    "size" (VInt 7).
Proof.
  destruct (compute_aesthetics
              (new_layer data5 [("x", PStr "x"); ("size", PList (ints [7]))]) plot0)
    as [[l' sc]|e] eqn:Hrun; [|by vm_compute in Hrun].
  refine (proj2 (proj2 (unit_vector_is_broadcast
    (new_layer data5 [("x", PStr "x"); ("size", PList (ints [7]))]) plot0
    [("x", PStr "x")] [] "size" (PList (ints [7])) (VInt 7) l' sc _ _ _ _ _ _ _ _ _
    Hrun))).
  - by vm_compute.
  - apply (bool_decide_unpack _). by vm_compute.
  - reflexivity.
  - reflexivity.
  - reflexivity.
  - intros z [= <-]. lia.
  - by vm_compute.
  - done.
  - done.
Defined.

End resolved_columns.

(** ** Interaction coding *)

Section coding.
Context {A : Type} `{EqDecision A}.
Import Utils.

Lemma elem_of_distinct (l : list A) x : x ∈ distinct l ↔ x ∈ l.
Proof.
  induction l as [|y l IH]; simpl; [done|].
  rewrite !elem_of_cons, list_elem_of_filter, IH.
  destruct (decide (x = y)); tauto.
Qed.

Lemma NoDup_distinct (l : list A) : NoDup (distinct l).
Proof.
  induction l as [|y l IH]; simpl; [constructor|].
  apply NoDup_cons. split.
  - rewrite list_elem_of_filter. by intros [Hne _].
  - by apply NoDup_filter.
Qed.

Lemma lookup_first_index (l : list A) x :
  x ∈ l → l !! first_index x l = Some x.
Proof.
  induction l as [|y l IH]; simpl; [by intros ?%elem_of_nil|].
  intros Hin. destruct (decide (y = x)) as [->|Hne]; [done|]. simpl.
  apply IH. apply elem_of_cons in Hin as [?|?]; [congruence|done].
Qed.

Lemma first_index_lt (l : list A) x :
  x ∈ l → (first_index x l < length l)%nat.
Proof. intros Hin. eapply lookup_lt_Some. by apply lookup_first_index. Qed.

Lemma first_index_inj (l : list A) x y :
  x ∈ l → y ∈ l → first_index x l = first_index y l → x = y.
Proof.
  intros Hx%lookup_first_index Hy%lookup_first_index Heq.
  rewrite Heq in Hx. congruence.
Qed.

Lemma first_index_lookup (l : list A) (n : nat) x :
  NoDup l → l !! n = Some x → first_index x l = n.
Proof.
  intros Hnd Hn. eapply NoDup_lookup; [done| |done].
  apply lookup_first_index. by eapply list_elem_of_lookup_2.
Qed.

End coding.

Section ninteraction_facts.
Import Exn Frame Utils Grouping Statements.

Lemma length_rows df : length (rows df) = index df.
Proof. unfold rows. by rewrite length_fmap, length_seq. Qed.

Lemma lookup_rows df (i : nat) : (i < index df)%nat → rows df !! i = Some (row df i).
Proof.
  intros Hi. unfold rows. rewrite list_lookup_fmap, lookup_seq_lt by done. done.
Qed.

Lemma length_ninteraction df : length (ninteraction df) = index df.
Proof. unfold ninteraction. by rewrite length_fmap, length_rows. Qed.

Lemma lookup_ninteraction df (i : nat) :
  (i < index df)%nat →
  ninteraction df !! i
  = Some (Z.of_nat (S (first_index (row df i) (distinct (rows df))))).
Proof.
  intros Hi. unfold ninteraction. by rewrite list_lookup_fmap, lookup_rows.
Qed.

Lemma row_in_distinct df (i : nat) :
  (i < index df)%nat → row df i ∈ distinct (rows df).
Proof.
  intros Hi. apply elem_of_distinct. eapply list_elem_of_lookup_2. by apply lookup_rows.
Qed.

(** The ids of [ninteraction] code the rows: one id per row, equal ids
    exactly for equal rows, and the ids used are exactly 1..K. *)
Lemma ninteraction_codes_rows df : codes_rows df (ninteraction df).
Proof.
  split; [apply length_ninteraction|]. split.
  - intros i j a b Hi Hj.
    pose proof (lookup_lt_Some _ _ _ Hi) as Hil.
    pose proof (lookup_lt_Some _ _ _ Hj) as Hjl.
    rewrite length_ninteraction in Hil, Hjl.
    rewrite lookup_ninteraction in Hi, Hj by done.
    injection Hi as <-. injection Hj as <-. split.
    + intros Heq. apply (first_index_inj (distinct (rows df)));
        [by apply row_in_distinct.. | lia].
    + by intros ->.
  - intros z. split.
    + intros [i Hi]%list_elem_of_lookup.
      pose proof (lookup_lt_Some _ _ _ Hi) as Hil. rewrite length_ninteraction in Hil.
      rewrite lookup_ninteraction in Hi by done. injection Hi as <-.
      pose proof (first_index_lt (distinct (rows df)) (row df i)
                    (row_in_distinct _ _ Hil)). lia.
    + intros [Hlo Hhi].
      destruct (lookup_lt_is_Some_2 (distinct (rows df)) (Z.to_nat (z - 1)))
        as [k Hk]; [lia|].
      assert (k ∈ rows df) as [i Hi]%list_elem_of_lookup.
      { apply elem_of_distinct. by eapply list_elem_of_lookup_2. }
      pose proof (lookup_lt_Some _ _ _ Hi) as Hil. rewrite length_rows in Hil.
      rewrite lookup_rows in Hi by done. injection Hi as <-.
      apply list_elem_of_lookup. exists i. rewrite lookup_ninteraction by done.
      rewrite (first_index_lookup _ (Z.to_nat (z - 1))) by (done || apply NoDup_distinct).
      f_equal. lia.
Qed.

Lemma ints_of_ints (ids : list Z) : ints_of (VInt <$> ids) = Some ids.
Proof.
  induction ids as [|z ids IH]; [done|].
  rewrite fmap_cons. cbn [ints_of]. by rewrite IH.
Qed.

Lemma ints_of_replicate (n : nat) z : ints_of (replicate n (VInt z)) = Some (replicate n z).
Proof. induction n as [|n IH]; [done|]. cbn [replicate ints_of]. by rewrite IH. Qed.

Lemma group_ids_store (ids : list Z) n cols :
  group_ids {| index := n;
               columns := store_column "group"
                            {| dtype_of := int64; values := VInt <$> ids |} cols |}
  = Some ids.
Proof.
  unfold group_ids. cbn [columns]. rewrite lookup_store_column_eq. apply ints_of_ints.
Qed.

(** On a frame with distinct labels and rows, whose columns all have cells,
    [discrete_columns] does not raise. *)
Lemma discrete_columns_from_ok df cols ignore :
  Forall (λ c, values c.2 ≠ [] ∧ count_label df c.1 = 1%nat) cols →
  ∃ disc, discrete_columns_from df cols ignore = Ok disc.
Proof.
  induction 1 as [|[col s] cols [Hhead Hone] Htail [disc IH]]; simpl; [by eexists|].
  simpl in Hhead, Hone. rewrite decide_True by done.
  destruct (_ && _); [|by exists disc].
  destruct (values s) as [|v vs]; [done|].
  destruct (hashable v); [|by exists disc]. rewrite IH. by eexists.
Qed.

Lemma discrete_columns_ok df ignore :
  well_formed df → NoDup (names df) → len df ≠ 0%nat →
  ∃ disc, discrete_columns df ignore = Ok disc.
Proof.
  intros Hwf Hnd Hrows. apply discrete_columns_from_ok.
  apply Forall_forall. intros c Hin. split.
  - intros Hnil. unfold well_formed in Hwf. rewrite Forall_forall in Hwf.
    specialize (Hwf c Hin). simpl in Hwf. rewrite Hnil in Hwf. simpl in Hwf.
    unfold len in Hrows. congruence.
  - apply count_label_NoDup; [done|]. unfold names. apply list_elem_of_fmap. by exists c.
Qed.

End ninteraction_facts.

(** ** add_group *)

Section add_group_claims.
Import Exn Frame Utils Grouping Layer DataExamples Statements.

Lemma setitem_ids d (ids : list Z) :
  len d ≠ 0%nat → length ids = len d →
  setitem d "group" (id_list ids)
  = Ok {| index := index d;
          columns := store_column "group"
                       {| dtype_of := int64; values := VInt <$> ids |} (columns d) |}.
Proof.
  intros Hrows Hlen. unfold id_list, len in *. simpl.
  rewrite decide_False by done. rewrite length_fmap. by rewrite decide_True.
Qed.

Lemma length_ninteraction_select d cols :
  length (ninteraction (select d cols)) = len d.
Proof. exact (length_ninteraction (select d cols)). Qed.

(** C2, as stated, fails on a dataset that already has a "group" column:
    [add_group] then codes that column alone. Here both rows hold "a" in the
    one discrete column, and they get the ids 1 and 2. *)
Lemma explicit_group_splits_equal_keys :
  discrete_columns data_grouped ["label"] = Ok ["c"] ∧
  row (select data_grouped ["c"]) 0 = row (select data_grouped ["c"]) 1 ∧
  ¬ same_key_same_id data_grouped.
Proof.
  split; [by vm_compute|]. split; [by vm_compute|].
  intros Hsame.
  specialize (Hsame
    {| index := 2; columns := [("c", strs ["a"; "a"]); ("group", ints [1; 2])] |}
    ["c"] [1; 2] 0%nat 1%nat).
  assert ([1; 2] !! 0%nat = [1; 2] !! 1%nat :> option Z) as Habs; [|done].
  apply Hsame; first [by vm_compute | unfold len; simpl; lia].
Qed.

(** C2, amended: on a dataset whose labels are distinct and whose columns all
    have its length, [add_group] does not raise, keeps the rows and every
    column but
    "group", and (when there are rows) stores one integer id per row. For a
    dataset without a "group" column the ids code the tuples of the selected
    discrete columns: equal tuples get equal ids, different tuples different
    ids, and the ids used are exactly 1..K for K the number of distinct
    tuples; with no discrete column selected every row gets NO_GROUP. For a
    dataset that already has a "group" column the ids code that column
    alone, in the same way. *)
Theorem add_group_codes_rows (d : DataFrame) :
  well_formed d →
  NoDup (names d) →
  ∃ d',
    add_group d = Ok d' ∧
    len d' = len d ∧
    (∀ col, col ≠ "group" →
       lookup_column col (columns d') = lookup_column col (columns d)) ∧
    (len d ≠ 0%nat →
     ∃ ids,
       group_ids d' = Some ids ∧
       length ids = len d ∧
       if has_column d "group" then codes_rows (select d ["group"]) ids
       else ∃ disc,
              discrete_columns d ["label"] = Ok disc ∧
              match disc with
              | [] => ids = replicate (len d) NO_GROUP
              | _ :: _ => codes_rows (select d disc) ids
              end).
Proof.
  intros Hwf Hnd.
  destruct (add_group d) as [d'|e] eqn:Hrun; cycle 1.
  { exfalso. revert Hrun. unfold add_group.
    destruct (decide (len d = 0%nat)) as [|Hrows]; [done|].
    destruct (negb (has_column d "group")).
    - destruct (discrete_columns_ok d ["label"] Hwf Hnd Hrows) as [disc ->].
      rewrite bind_Ok. destruct disc; [done|].
      by rewrite setitem_ids by (done || apply length_ninteraction_select).
    - by rewrite setitem_ids by (done || apply length_ninteraction_select). }
  exists d'. destruct (add_group_keeps _ _ Hrun) as [Hi Hc].
  split_and!; [done | done | done |].
  intros Hrows. revert Hrun. unfold add_group. rewrite decide_False by done.
  destruct (has_column d "group"); cbn [negb].
  - rewrite setitem_ids by (done || apply length_ninteraction_select).
    injection 1 as <-. eexists. split; [apply group_ids_store|].
    split; [apply length_ninteraction_select | apply ninteraction_codes_rows].
  - destruct (discrete_columns_ok d ["label"] Hwf Hnd Hrows) as [disc Hdisc].
    rewrite Hdisc, bind_Ok. destruct disc as [|c disc].
    + injection 1 as <-. exists (replicate (len d) NO_GROUP).
      split_and!; [|by rewrite length_replicate|by exists []].
      unfold group_ids. cbn [columns]. rewrite lookup_store_column_eq.
      apply ints_of_replicate.
    + rewrite setitem_ids by (done || apply length_ninteraction_select).
      injection 1 as <-. eexists. split; [apply group_ids_store|].
      split; [apply length_ninteraction_select|]. exists (c :: disc).
      split; [done | apply ninteraction_codes_rows].
Qed.

Lemma add_group_codes_rows_witness :
  ∃ d', add_group data_xc = Ok d' ∧ group_ids d' = Some [1; 2; 1].
Proof.
  destruct (add_group_codes_rows data_xc) as (d' & Hrun & _).
  - repeat constructor.
  - apply (bool_decide_unpack _). by vm_compute.
  - exists d'. split; [exact Hrun|].
    vm_compute in Hrun. injection Hrun as <-. reflexivity.
Defined.

(** The end-to-end scenario of the spec: x and colour resolved, PANEL
    carried over, and rows 0 and 2 in one group. *)
Example compute_aesthetics_end_to_end :
  ∃ l' sc,
    compute_aesthetics (new_layer data_xc [("x", PStr "x"); ("colour", PStr "c")]) plot0
    = Ok (l', sc) ∧
    names (data l') = ["x"; "colour"; "PANEL"; "group"] ∧
    group_ids (data l') = Some [1; 2; 1].
Proof. eexists _, _. split; [by vm_compute|]. split; by vm_compute. Qed.

End add_group_claims.

(** * Further properties of the code *)

(** ** Sequences of insertions *)

Section insertion_sequences.
Import PyObj Layers LayerObject ObjectExamples ObjectSequences.

Lemma dict_set_set k v1 v2 d : dict_set k v2 (dict_set k v1 d) = dict_set k v2 d.
Proof.
  induction d as [|[k' v'] d IH]; simpl.
  - by rewrite decide_True.
  - destruct (decide (k' = k)) as [->|Hne]; simpl.
    + by rewrite decide_True.
    + rewrite decide_False by done. by rewrite IH.
Qed.

Lemma set_in_set_in k v1 v2 o : set_in k v2 (set_in k v1 o) = set_in k v2 o.
Proof. destruct o; simpl; [|done]. by rewrite dict_set_set. Qed.

(** X1: [extend] does to the store and to the list what appending the items one
    after the other does. *)
Theorem extend_is_append_each (h : gmap loc pyobj) (self other : list loc) :
  heap_after (extend h self other) = heap_after (append_each h self other) ∧
  self_after (extend h self other) = self_after (append_each h self other) ∧
  heap_after (__iadd__ h self other) = heap_after (append_each h self other) ∧
  returned (__iadd__ h self other) = Some (self_after (append_each h self other)).
Proof.
  assert (∀ other h self,
    enumerate_zorder h (Z.of_nat (length self) + 1) other
      = heap_after (append_each h self other) ∧
    self ++ other = self_after (append_each h self other)) as Hboth.
  { clear. induction other as [|item rest IH]; intros h self; simpl.
    - by rewrite app_nil_r.
    - destruct (IH (setattr h item "zorder" (PInt (Z.of_nat (length self) + 1)))
                  (self ++ [item])) as [Hh Hs].
      rewrite <- Hh, <- Hs, length_app, <- app_assoc. simpl.
      split; [|done]. f_equal. lia. }
  destruct (Hboth other h self) as [Hh Hs]. simpl. by rewrite Hh, Hs.
Qed.

(** What [_set_zorder] leaves of an object: it is untouched when it is not
    in [other]; otherwise only its zorder is set, to the number of its last
    place. *)
Lemma enumerate_zorder_lookup h start other r :
  enumerate_zorder h start other !! r
  = match last_index r other with
    | Some i => set_in "zorder" (PInt (start + Z.of_nat i)) <$> h !! r
    | None => h !! r
    end.
Proof.
  revert h start. induction other as [|item rest IH]; intros h start; simpl; [done|].
  rewrite IH. unfold setattr. destruct (last_index r rest) as [i|].
  - replace (start + 1 + Z.of_nat i) with (start + Z.of_nat (S i)) by lia.
    destruct (decide (item = r)) as [->|Hne].
    + rewrite lookup_alter_eq. destruct (h !! r); simpl; [|done].
      by rewrite set_in_set_in.
    + by rewrite lookup_alter_ne.
  - destruct (decide (item = r)) as [->|Hne].
    + rewrite lookup_alter_eq. by rewrite Z.add_0_r.
    + by rewrite lookup_alter_ne.
Qed.

(** X2: numbering the same layers again from the same start changes nothing:
    [_set_zorder] is idempotent, also when a layer occurs several times. *)
Theorem set_zorder_idempotent (h : gmap loc pyobj) (self other : list loc) :
  (_set_zorder (_set_zorder h self other).1 self other).1 = (_set_zorder h self other).1.
Proof.
  simpl. apply map_eq. intros r. rewrite !enumerate_zorder_lookup.
  destruct (last_index r other) as [i|]; [|done].
  destruct (h !! r); simpl; [|done]. by rewrite set_in_set_in.
Qed.

(** X3: a layer that has just been constructed is a new object, so appending it
    to a list numbered 1..N gives a list numbered 1..N+1, and leaves every
    object the store had as it was. *)
Theorem append_constructed_layer
    (h : gmap loc pyobj) (self : list loc)
    (geom stat data mapping position inherit_aes show_legend : pyval) :
  zorders_ok h self →
  let made := __init__ h geom stat data mapping position inherit_aes show_legend in
  let after := append made.1 self made.2 in
  (h !! made.2 = None) ∧
  (made.2 ∉ self) ∧
  zorders_ok (heap_after after) (self_after after) ∧
  getattr (heap_after after) made.2 "data" = Some data ∧
  (∀ r, is_Some (h !! r) → heap_after after !! r = h !! r).
Proof.
  intros Hok. simpl.
  set (active := fresh_loc h).
  set (h1 := <[active := Opaque "dict" "{}"]> h).
  set (r := fresh_loc h1).
  pose proof (fresh_loc_None h) as Hactive. fold active in Hactive.
  pose proof (fresh_loc_None h1) as Hr. fold r in Hr.
  assert (r ≠ active) as Hra.
  { intros Heq. rewrite Heq in Hr. unfold h1 in Hr. by rewrite lookup_insert_eq in Hr. }
  assert (h !! r = None) as Hhr.
  { unfold h1 in Hr. by rewrite lookup_insert_ne in Hr. }
  match goal with |- context [<[r := ?o]> h1] => set (obj := o) end.
  assert (∀ r0, is_Some (h !! r0) →
    setattr (<[r := obj]> h1) r "zorder" (PInt (Z.of_nat (length self) + 1)) !! r0
    = h !! r0) as Hkept.
  { intros r0 [o Ho]. assert (r0 ≠ r) by congruence. assert (r0 ≠ active) by congruence.
    rewrite setattr_lookup_ne by done. rewrite lookup_insert_ne by done.
    unfold h1. by rewrite lookup_insert_ne. }
  assert (∀ r0, r0 ∈ self → is_Some (h !! r0)) as Hvalid.
  { intros r0 [i Hi]%list_elem_of_lookup. specialize (Hok i r0 Hi).
    unfold zorder, getattr in Hok. destruct (h !! r0); [by eexists | done]. }
  assert (r ∉ self) as Hnew.
  { intros Hin. destruct (Hvalid r Hin) as [o Ho]. congruence. }
  split_and!; try done.
  - intros i r0 Hi. destruct (decide (i < length self)%nat) as [Hlt|Hge].
    + rewrite lookup_app_l in Hi by done.
      rewrite (zorder_lookup_eq _ h); [by apply Hok|].
      apply Hkept, Hvalid. by eapply list_elem_of_lookup_2.
    + rewrite lookup_app_r in Hi by lia.
      destruct (i - length self)%nat as [|n] eqn:Hn; [|done].
      injection Hi as <-. rewrite zorder_setattr.
      * f_equal. lia.
      * eexists. apply lookup_insert_eq.
  - unfold getattr, setattr. rewrite lookup_alter_eq, lookup_insert_eq. by unfold obj.
Qed.

Lemma append_constructed_layer_witness :
  zorders_ok
    (heap_after (append (new_layer (heap_after one_layer)).1 (self_after one_layer)
                   (new_layer (heap_after one_layer)).2))
    (self_after one_layer ++ [(new_layer (heap_after one_layer)).2]).
Proof.
  refine (proj1 (proj2 (proj2 (append_constructed_layer
    (heap_after one_layer) (self_after one_layer)
    (PRef 1%positive) (PRef 2%positive) (PRef 5%positive) (PRef 4%positive)
    (PRef 3%positive) (PBool true) PNone _)))).
  intros [|i] r Hi; simpl in Hi; [|done]. injection Hi as <-. by vm_compute.
Defined.

(** X4: two layers constructed one after the other are different objects with
    different [_active_mapping] dicts: no layer shares the dict of another.
    Both start with zorder 0. *)
Theorem constructed_layers_share_no_dict
    (h : gmap loc pyobj)
    (geom stat data mapping position inherit_aes show_legend : pyval)
    (geom' stat' data' mapping' position' inherit_aes' show_legend' : pyval) :
  let first := __init__ h geom stat data mapping position inherit_aes show_legend in
  let second :=
    __init__ first.1 geom' stat' data' mapping' position' inherit_aes' show_legend' in
  first.2 ≠ second.2 ∧
  (∃ a b, getattr second.1 first.2 "_active_mapping" = Some (PRef a) ∧
          getattr second.1 second.2 "_active_mapping" = Some (PRef b) ∧
          a ≠ b ∧ h !! a = None ∧ h !! b = None) ∧
  zorder second.1 first.2 = Some 0 ∧
  zorder second.1 second.2 = Some 0.
Proof.
  simpl.
  set (a := fresh_loc h).
  set (h1 := <[a := Opaque "dict" "{}"]> h).
  set (r1 := fresh_loc h1).
  set (h2 := <[r1 := Instance _]> h1).
  set (b := fresh_loc h2).
  set (h3 := <[b := Opaque "dict" "{}"]> h2).
  set (r2 := fresh_loc h3).
  pose proof (fresh_loc_None h) as Ha. fold a in Ha.
  pose proof (fresh_loc_None h1) as Hr1. fold r1 in Hr1.
  pose proof (fresh_loc_None h2) as Hb. fold b in Hb.
  pose proof (fresh_loc_None h3) as Hr2. fold r2 in Hr2.
  assert (r1 ≠ a) as H1a
    by (intros Heq; rewrite Heq in Hr1; unfold h1 in Hr1; by rewrite lookup_insert_eq in Hr1).
  assert (b ≠ r1) as Hb1
    by (intros Heq; rewrite Heq in Hb; unfold h2 in Hb; by rewrite lookup_insert_eq in Hb).
  assert (b ≠ a) as Hba.
  { intros Heq. rewrite Heq in Hb. unfold h2, h1 in Hb.
    by rewrite lookup_insert_ne, lookup_insert_eq in Hb. }
  assert (r2 ≠ b) as H2b
    by (intros Heq; rewrite Heq in Hr2; unfold h3 in Hr2; by rewrite lookup_insert_eq in Hr2).
  assert (r2 ≠ r1) as H21.
  { intros Heq. rewrite Heq in Hr2. unfold h3, h2 in Hr2.
    by rewrite lookup_insert_ne, lookup_insert_eq in Hr2. }
  assert (h !! b = None) as Hhb.
  { unfold h2, h1 in Hb. by rewrite !lookup_insert_ne in Hb. }
  assert (<[r2 := Instance
              [("geom", geom'); ("stat", stat'); ("data", data'); ("mapping", mapping');
               ("position", position'); ("inherit_aes", inherit_aes');
               ("show_legend", show_legend'); ("_active_mapping", PRef b);
               ("zorder", PInt 0)]]> h3 !! r1
          = Some (Instance
              [("geom", geom); ("stat", stat); ("data", data); ("mapping", mapping);
               ("position", position); ("inherit_aes", inherit_aes);
               ("show_legend", show_legend); ("_active_mapping", PRef a);
               ("zorder", PInt 0)])) as Hfirst.
  { rewrite lookup_insert_ne by done. unfold h3. rewrite lookup_insert_ne by done.
    unfold h2. by rewrite lookup_insert_eq. }
  split_and!.
  - done.
  - exists a, b. unfold getattr. rewrite Hfirst, lookup_insert_eq.
    split_and!; done || congruence.
  - unfold zorder, getattr. by rewrite Hfirst.
  - unfold zorder, getattr. by rewrite lookup_insert_eq.
Qed.

End insertion_sequences.

(** ** Copies of layers *)

Section copies.
Import PyObj Layers LayerObject ObjectExamples ObjectSequences.

Lemma dict_get_elem_of k v d : dict_get k d = Some v → (k, v) ∈ d.
Proof.
  induction d as [|[k' v'] d IH]; simpl; [done|].
  destruct (decide (k' = k)) as [->|Hne].
  - injection 1 as ->. by left.
  - intros Hget. right. by apply IH.
Qed.

Lemma dict_get_None k d : k ∉ d.*1 → dict_get k d = None.
Proof.
  induction d as [|[k' v'] d IH]; simpl; [done|].
  intros [Hne Hnin]%not_elem_of_cons. rewrite decide_False by done. by apply IH.
Qed.

(** What a run of [__deepcopy__] gives, with the memo it ends with. *)
Lemma deepcopy_run (fuel : nat) (h : gmap loc pyobj) (self : loc) (old : pydict) :
  h !! self = Some (Instance old) →
  NoDup old.*1 →
  Forall (λ kv, kv.1 ≠ "data" → plain_value h self kv.2) old →
  ∃ result h' memo' new,
    __deepcopy__ (S fuel) self h ∅ = Some (result, h', memo') ∧
    h !! result = None ∧
    (∀ r, is_Some (h !! r) → h' !! r = h !! r) ∧
    h' !! result = Some (Instance new) ∧
    new.*1 = old.*1 ∧
    (∀ k v, (k, v) ∈ old →
       ∃ v', dict_get k new = Some v' ∧
             if decide (k = "data") then v' = v else copied memo' v v') ∧
    (∀ r r', memo' !! r = Some r' → h !! r' = None).
Proof.
  intros Hself Hnd Hplain. simpl. rewrite Hself.
  set (result := fresh_loc h).
  pose proof (fresh_loc_None h) as Hfresh. fold result in Hfresh.
  assert (copy_inv h self result (<[result := Instance []]> h) (<[self := result]> ∅))
    as Hinv.
  { split.
    - intros r Hr. rewrite lookup_insert_ne; [done|].
      intros <-. rewrite Hfresh in Hr. by destruct Hr.
    - done.
    - exists []. by rewrite lookup_insert_eq.
    - by rewrite lookup_insert_eq.
    - intros r r' Hr. destruct (decide (self = r)) as [<-|Hne].
      + rewrite lookup_insert_eq in Hr. injection Hr as <-.
        split; [done|]. split; [by rewrite lookup_insert_eq | done].
      + rewrite lookup_insert_ne in Hr by done. by rewrite lookup_empty in Hr. }
  destruct (copy_items_plain (__deepcopy__ fuel) h self result old
              (<[result := Instance []]> h) (<[self := result]> ∅) [])
    as (h' & m' & new & -> & Hinv' & Hsub & Hnew & Hkeys & _ & Hdone);
    [done | by rewrite lookup_insert_eq | done | done |].
  exists result, h', m', new. destruct Hinv' as [Hold _ _ _ Hmemo].
  split_and!; try done. intros r r' Hr. by destruct (Hmemo r r' Hr) as [? _].
Qed.

(** X5: two attributes that refer to one object refer to one object in the copy
    as well, and it is a new one: the memo keeps the sharing. *)
Theorem deepcopy_keeps_sharing
    (fuel : nat) (h : gmap loc pyobj) (self : loc) (old : pydict)
    (k1 k2 : string) (r : loc) :
  h !! self = Some (Instance old) →
  NoDup old.*1 →
  Forall (λ kv, kv.1 ≠ "data" → plain_value h self kv.2) old →
  (k1, PRef r) ∈ old → (k2, PRef r) ∈ old →
  k1 ≠ "data" → k2 ≠ "data" →
  ∃ result h' memo' new r',
    __deepcopy__ (S fuel) self h ∅ = Some (result, h', memo') ∧
    h' !! result = Some (Instance new) ∧
    dict_get k1 new = Some (PRef r') ∧
    dict_get k2 new = Some (PRef r') ∧
    h !! r' = None.
Proof.
  intros Hself Hnd Hplain Hk1 Hk2 Hd1 Hd2.
  destruct (deepcopy_run fuel h self old Hself Hnd Hplain)
    as (result & h' & memo' & new & Hrun & _ & _ & Hnew & _ & Hitems & Hmemo).
  destruct (Hitems k1 _ Hk1) as (v1 & Hg1 & Hv1).
  destruct (Hitems k2 _ Hk2) as (v2 & Hg2 & Hv2).
  rewrite decide_False in Hv1 by done. rewrite decide_False in Hv2 by done.
  simpl in Hv1, Hv2.
  destruct Hv1 as (r1 & Hm1 & ->). destruct Hv2 as (r2 & Hm2 & ->).
  assert (r2 = r1) as -> by congruence.
  exists result, h', memo', new, r1. split_and!; try done. by eapply Hmemo.
Qed.

Lemma deepcopy_keeps_sharing_witness :
  ∃ result h' memo' new r',
    __deepcopy__ 1 layer_shared heap_shared ∅ = Some (result, h', memo') ∧
    h' !! result = Some (Instance new) ∧
    dict_get "mapping" new = Some (PRef r') ∧
    dict_get "_active_mapping" new = Some (PRef r') ∧
    heap_shared !! r' = None.
Proof.
  apply (deepcopy_keeps_sharing 0 heap_shared layer_shared
    [("geom", PRef 1%positive); ("stat", PRef 2%positive);
     ("data", PRef 5%positive); ("mapping", PRef 4%positive);
     ("position", PRef 3%positive); ("inherit_aes", PBool true);
     ("show_legend", PNone); ("_active_mapping", PRef 4%positive);
     ("zorder", PInt 0)] "mapping" "_active_mapping" 4%positive).
  - by vm_compute.
  - apply (bool_decide_unpack _). by vm_compute.
  - repeat apply Forall_cons_2; try apply Forall_nil_2; simpl; intros Hk;
      try done; right; eexists _, _; by vm_compute.
  - apply (bool_decide_unpack _). by vm_compute.
  - apply (bool_decide_unpack _). by vm_compute.
  - done.
  - done.
Defined.

(** X6: appending the copy of a layer to a list numbers the copy and leaves the
    original as it was (zorder included), while the two still hold the same
    [data] attribute. *)
Theorem append_copy_leaves_original
    (fuel : nat) (h : gmap loc pyobj) (self : loc) (old : pydict) (layers : list loc) :
  h !! self = Some (Instance old) →
  NoDup old.*1 →
  Forall (λ kv, kv.1 ≠ "data" → plain_value h self kv.2) old →
  ∃ result h' memo',
    __deepcopy__ (S fuel) self h ∅ = Some (result, h', memo') ∧
    result ≠ self ∧
    heap_after (append h' layers result) !! self = h !! self ∧
    zorder (heap_after (append h' layers result)) result
      = Some (Z.of_nat (length layers) + 1) ∧
    getattr (heap_after (append h' layers result)) result "data" = getattr h self "data".
Proof.
  intros Hself Hnd Hplain.
  destruct (deepcopy_run fuel h self old Hself Hnd Hplain)
    as (result & h' & memo' & new & Hrun & Hfresh & Hold & Hnew & Hkeys & Hitems & _).
  assert (result ≠ self) as Hne by congruence.
  exists result, h', memo'. simpl. split_and!; try done.
  - rewrite setattr_lookup_ne by done. apply Hold. by rewrite Hself.
  - apply zorder_setattr. by exists new.
  - rewrite getattr_setattr_ne_key by done. unfold getattr. rewrite Hnew, Hself.
    destruct (dict_get "data" old) as [v|] eqn:Hget.
    + destruct (Hitems "data" v (dict_get_elem_of _ _ _ Hget)) as (v' & Hv' & Heq).
      rewrite decide_True in Heq by done. by subst v'.
    + apply dict_get_None. rewrite Hkeys. intros Hin.
      apply list_elem_of_fmap in Hin as [[k v] [Hk Hin]]. simpl in Hk. subst k.
      destruct (Hitems "data" v Hin) as (v' & Hv' & Heq).
      rewrite decide_True in Heq by done. subst v'.
      clear -Hget Hin. induction old as [|[k0 v0] old IH]; simpl in *.
      * by apply elem_of_nil in Hin.
      * destruct (decide (k0 = "data")); [done|].
        apply elem_of_cons in Hin as [Heq|Hin]; [congruence | by apply IH].
Qed.

Lemma append_copy_leaves_original_witness :
  ∃ result h' memo',
    __deepcopy__ 1 layer_a heap_ab ∅ = Some (result, h', memo') ∧
    result ≠ layer_a ∧
    heap_after (append h' [layer_a] result) !! layer_a = heap_ab !! layer_a ∧
    zorder (heap_after (append h' [layer_a] result)) result = Some 2 ∧
    getattr (heap_after (append h' [layer_a] result)) result "data"
    = getattr heap_ab layer_a "data".
Proof.
  apply (append_copy_leaves_original 0 heap_ab layer_a
    [("geom", PRef 1%positive); ("stat", PRef 2%positive);
     ("data", PRef 5%positive); ("mapping", PRef 4%positive);
     ("position", PRef 3%positive); ("inherit_aes", PBool true);
     ("show_legend", PNone); ("_active_mapping", PRef 6%positive);
     ("zorder", PInt 0)] [layer_a]).
  - by vm_compute.
  - apply (bool_decide_unpack _). by vm_compute.
  - repeat apply Forall_cons_2; try apply Forall_nil_2; simpl; intros Hk;
      try done; right; eexists _, _; by vm_compute.
Defined.

End copies.

(** ** The mapping that is active in a layer *)

Section active_mapping.
Import Exn Frame Utils Grouping Layer LayerDetails DataExamples.

Lemma aes_get_set_eq k v d : aes_get k (aes_set k v d) = Some v.
Proof.
  induction d as [|[k' v'] d IH]; simpl.
  - by rewrite decide_True.
  - destruct (decide (k' = k)) as [->|Hne]; simpl.
    + by rewrite decide_True.
    + by rewrite decide_False.
Qed.

Lemma aes_get_set_ne k k' v d : k ≠ k' → aes_get k' (aes_set k v d) = aes_get k' d.
Proof.
  intros Hne. induction d as [|[k0 v0] d IH]; simpl.
  - by rewrite decide_False.
  - destruct (decide (k0 = k)) as [->|Hk0]; simpl.
    + by rewrite !decide_False.
    + destruct (decide (k0 = k')); [done | apply IH].
Qed.

Lemma aes_set_keys k v d : (aes_set k v d).*1 = with_name k d.*1.
Proof.
  unfold with_name. induction d as [|[k0 v0] d IH]; [done|].
  cbn [aes_set]. rewrite (fmap_cons fst (k0, v0) d). cbn [fst].
  destruct (decide (k0 = k)) as [->|Hne].
  - rewrite decide_True by (by left). by rewrite fmap_cons.
  - rewrite fmap_cons, IH. cbn [fst].
    destruct (decide (k ∈ d.*1)) as [Hin|Hnin].
    + rewrite decide_True; [done | by right].
    + rewrite decide_False; [done|]. intros [?|?]%elem_of_cons; congruence.
Qed.

Lemma with_name_NoDup k l : NoDup l → NoDup (with_name k l).
Proof.
  intros Hnd. unfold with_name. destruct (decide (k ∈ l)); [done|].
  apply NoDup_app. split_and!; [done | | apply NoDup_singleton].
  intros x Hx ->%list_elem_of_singleton. done.
Qed.

Lemma aes_get_None k d : aes_get k d = None ↔ k ∉ d.*1.
Proof.
  induction d as [|[k' v'] d IH]; simpl.
  - split; [intros _; apply not_elem_of_nil | done].
  - destruct (decide (k' = k)) as [->|Hne].
    + split; [done|]. intros Hnin. destruct Hnin. by left.
    + rewrite IH, not_elem_of_cons. split; [by intros ? | by intros [_ ?]].
Qed.

Lemma aes_get_elem_of k v d : aes_get k d = Some v → (k, v) ∈ d.
Proof.
  induction d as [|[k' v'] d IH]; simpl; [done|].
  destruct (decide (k' = k)) as [->|Hne].
  - injection 1 as ->. by left.
  - intros Hget. right. by apply IH.
Qed.

Lemma aes_get_app k d1 d2 :
  aes_get k (d1 ++ d2)
  = match aes_get k d1 with Some v => Some v | None => aes_get k d2 end.
Proof.
  induction d1 as [|[k' v'] d1 IH]; simpl; [done|].
  destruct (decide (k' = k)); [done | apply IH].
Qed.

(** A filter that looks at the key only. *)
Lemma aes_get_filter_key (P : string → Prop) `{∀ k, Decision (P k)} k
    (d : list (string * pyvalue)) :
  aes_get k (filter (λ kv, P kv.1) d) = if decide (P k) then aes_get k d else None.
Proof.
  induction d as [|[k' v'] d IH]; [by destruct (decide (P k))|].
  rewrite (filter_cons (λ kv : string * pyvalue, P kv.1)). cbn [fst aes_get].
  destruct (decide (P k')) as [Hk'|Hk']; cbn [aes_get].
  - destruct (decide (k' = k)) as [->|Hne]; [by rewrite decide_True | exact IH].
  - etrans; [exact IH|].
    destruct (decide (k' = k)) as [->|Hne]; [|done].
    by destruct (decide (P k)).
Qed.

Lemma defaults_get k d1 d2 :
  aes_get k (defaults d1 d2)
  = match aes_get k d1 with Some v => Some v | None => aes_get k d2 end.
Proof.
  unfold defaults. rewrite aes_get_app.
  destruct (aes_get k d1) as [v|] eqn:Hget; [done|].
  etrans; [exact (aes_get_filter_key (λ k, k ∉ d1.*1) k d2)|].
  rewrite decide_True; [done|]. by apply aes_get_None.
Qed.

Lemma filter_keys_NoDup (P : string * pyvalue → Prop) `{∀ kv, Decision (P kv)}
    (d : list (string * pyvalue)) :
  NoDup d.*1 → NoDup (filter P d).*1.
Proof.
  induction d as [|[k v] d IH]; [done|].
  rewrite fmap_cons. intros [Hk Hd]%NoDup_cons. rewrite filter_cons.
  destruct (decide (P (k, v))); [|by apply IH].
  rewrite fmap_cons. apply NoDup_cons. split; [|by apply IH].
  intros Hin. apply Hk. apply list_elem_of_fmap in Hin as [[k' v'] [Heq Hin]].
  simpl in Heq. subst k'.
  apply list_elem_of_filter in Hin as [_ Hin].
  apply list_elem_of_fmap. by exists (k, v').
Qed.

Lemma defaults_keys_NoDup d1 d2 :
  NoDup d1.*1 → NoDup d2.*1 → NoDup (defaults d1 d2).*1.
Proof.
  intros Hd1 Hd2. unfold defaults. rewrite fmap_app. apply NoDup_app.
  split_and!; [done | | by apply filter_keys_NoDup].
  intros k Hk1 Hk2. apply list_elem_of_fmap in Hk2 as [[k' v] [Heq Hin]].
  simpl in Heq. subst k'.
  apply list_elem_of_filter in Hin as [Hnin _]. done.
Qed.

(** X7: the active mapping never holds an aesthetic that is fixed on the geom,
    nor one that is mapped to a calculated (dotted) name. *)
Theorem layer_mapping_drops_fixed_and_calculated
    (self : layer) (plot_aes : aes) (k : string) (v : pyvalue) :
  (k, v) ∈ layer_mapping self plot_aes →
  (k ∉ (aes_params (geom self)).*1) ∧
  (∀ expr, v = PStr expr → is_calculated expr = false).
Proof.
  unfold layer_mapping. intros [[Hfixed Hcalc] Hin]%list_elem_of_filter.
  simpl in Hfixed, Hcalc. split; [done|].
  intros expr ->. destruct (is_calculated expr) eqn:Hexpr; [|done].
  destruct Hcalc. unfold is_calculated_aes. apply list_elem_of_omap.
  exists (k, PStr expr). split; [done|]. simpl. by rewrite Hexpr.
Qed.

Lemma layer_mapping_drops_fixed_and_calculated_witness :
  ("x" ∉ (aes_params (geom (new_layer data5 [("x", PStr "x"); ("y", PStr "..count..")]))).*1)
  ∧ (∀ expr, PStr "x" = PStr expr → is_calculated expr = false).
Proof.
  apply (layer_mapping_drops_fixed_and_calculated
           (new_layer data5 [("x", PStr "x"); ("y", PStr "..count..")])
           [("colour", PStr "c")] "x" (PStr "x")).
  apply aes_get_elem_of. by vm_compute.
Defined.

(** X8: how an aesthetic is looked up in the active mapping: nothing for an
    aesthetic fixed on the geom or mapped to a calculated name; otherwise the
    layer's own mapping, and the plot's mapping only where the layer has none
    and inherits. *)
Theorem layer_mapping_lookup (self : layer) (plot_aes : aes) (k : string) :
  aes_get k (layer_mapping self plot_aes)
  = (if decide ((k ∉ (aes_params (geom self)).*1) ∧
                (k ∉ is_calculated_aes
                       (if inherit_aes self then defaults (mapping self) plot_aes
                        else mapping self)))
     then match aes_get k (mapping self) with
          | Some v => Some v
          | None => if inherit_aes self then aes_get k plot_aes else None
          end
     else None).
Proof.
  unfold layer_mapping.
  etrans; [exact (aes_get_filter_key
             (λ k, (k ∉ (aes_params (geom self)).*1) ∧
                   (k ∉ is_calculated_aes
                          (if inherit_aes self then defaults (mapping self) plot_aes
                           else mapping self))) k _)|].
  destruct (decide _); [|done].
  destruct (inherit_aes self); [apply defaults_get|].
  by destruct (aes_get k (mapping self)).
Qed.

(** X9: the keys of the active mapping are pairwise distinct when those of the
    layer's and of the plot's mapping are, and a group fixed on the geom is
    the group of the active mapping. *)
Theorem active_aesthetics_keys_and_group (self : layer) (plot : Plot) :
  NoDup (mapping self).*1 →
  NoDup (plot_mapping plot).*1 →
  NoDup (active_aesthetics self plot).*1 ∧
  (∀ g, aes_get "group" (aes_params (geom self)) = Some g →
        aes_get "group" (active_aesthetics self plot) = Some g).
Proof.
  intros Hl Hp.
  assert (NoDup (layer_mapping self (plot_mapping plot)).*1) as Hnd.
  { unfold layer_mapping. apply filter_keys_NoDup.
    destruct (inherit_aes self); [by apply defaults_keys_NoDup | done]. }
  unfold active_aesthetics, override_group. split.
  - destruct (aes_get "group" _); [|done]. rewrite aes_set_keys. by apply with_name_NoDup.
  - intros g ->. apply aes_get_set_eq.
Qed.

Lemma active_aesthetics_keys_and_group_witness :
  NoDup (active_aesthetics
           (new_layer data5 [("x", PStr "x"); ("size", PList (ints [7]))]) plot0).*1.
Proof.
  refine (proj1 (active_aesthetics_keys_and_group
    (new_layer data5 [("x", PStr "x"); ("size", PList (ints [7]))]) plot0 _ _)).
  - apply (bool_decide_unpack _). by vm_compute.
  - apply (bool_decide_unpack _). by vm_compute.
Defined.

End active_mapping.

(** ** The dataset that compute_aesthetics builds *)

Section resolved_dataset.
Import Exn Frame Utils Grouping Layer LayerDetails DataExamples.

Lemma store_column_names col s (cols : list (string * Series)) :
  (store_column col s cols).*1 = with_name col cols.*1.
Proof.
  unfold with_name. induction cols as [|[c0 s0] cols IH]; [done|].
  cbn [store_column]. rewrite (fmap_cons fst (c0, s0) cols). cbn [fst].
  destruct (decide (c0 = col)) as [->|Hne].
  - rewrite decide_True by (by left). by rewrite fmap_cons.
  - rewrite fmap_cons, IH. cbn [fst].
    destruct (decide (col ∈ cols.*1)) as [Hin|Hnin].
    + rewrite decide_True; [done | by right].
    + rewrite decide_False; [done|]. intros [?|?]%elem_of_cons; congruence.
Qed.

Lemma mapped_names (f : Series → Series) (cols : list (string * Series)) :
  (prod_map id f <$> cols).*1 = cols.*1.
Proof.
  induction cols as [|[c s] cols IH]; [done|].
  rewrite !fmap_cons, IH. done.
Qed.

Lemma lookup_mapped (f : Series → Series) col (cols : list (string * Series)) :
  lookup_column col (prod_map id f <$> cols) = f <$> lookup_column col cols.
Proof.
  induction cols as [|[c s] cols IH]; [done|].
  rewrite fmap_cons. cbn [prod_map id fst snd lookup_column].
  destruct (decide (c = col)); [done | exact IH].
Qed.

(** An assignment adds the name it assigns to, at the end, unless the frame
    has it; it removes no name. *)
Lemma setitem_names df col x df' :
  setitem df col x = Ok df' → names df' = with_name col (names df).
Proof.
  assert (∀ s, Ok {| index := index df; columns := store_column col s (columns df) |}
               = Ok df' → (columns df').*1 = with_name col (columns df).*1) as Hstore.
  { intros s. injection 1 as <-. apply store_column_names. }
  assert (∀ s, Ok (adopt_index df col s) = Ok df' →
               (columns df').*1 = with_name col (columns df).*1) as Hadopt.
  { intros s. injection 1 as <-. unfold adopt_index. cbn [columns].
    by rewrite store_column_names, mapped_names. }
  unfold names, setitem. destruct x as [s|v|s|s|t].
  - apply Hstore.
  - destruct v; try apply Hstore.
    destruct (decide (index df = 0%nat)); [apply Hadopt|].
    destruct (decide _); [apply Hstore | done].
  - destruct (decide (index df = 0%nat)); [apply Hadopt|].
    destruct (decide _); [apply Hstore | done].
  - destruct (decide (index df = 0%nat)); [apply Hadopt | apply Hstore].
  - done.
Qed.

(** What an assignment leaves of another column: the column itself, or the
    column put on the new rows of the frame. *)
Lemma setitem_lookup_other df col x df' col' :
  setitem df col x = Ok df' → col ≠ col' →
  lookup_column col' (columns df') = lookup_column col' (columns df) ∨
  ∃ n, lookup_column col' (columns df') = reindex n <$> lookup_column col' (columns df).
Proof.
  intros Hset Hne. revert Hset.
  assert (∀ s, Ok {| index := index df; columns := store_column col s (columns df) |}
               = Ok df' →
    lookup_column col' (columns df') = lookup_column col' (columns df) ∨
    ∃ n, lookup_column col' (columns df') = reindex n <$> lookup_column col' (columns df))
    as Hstore.
  { intros s. injection 1 as <-. left. by apply lookup_store_column_ne. }
  assert (∀ s, Ok (adopt_index df col s) = Ok df' →
    lookup_column col' (columns df') = lookup_column col' (columns df) ∨
    ∃ n, lookup_column col' (columns df') = reindex n <$> lookup_column col' (columns df))
    as Hadopt.
  { intros s. injection 1 as <-. right. eexists. unfold adopt_index. cbn [columns].
    rewrite lookup_store_column_ne by done. apply lookup_mapped. }
  unfold setitem. destruct x as [s|v|s|s|t].
  - apply Hstore.
  - destruct v; try apply Hstore.
    destruct (decide (index df = 0%nat)); [apply Hadopt|].
    destruct (decide _); [apply Hstore | done].
  - destruct (decide (index df = 0%nat)); [apply Hadopt|].
    destruct (decide _); [apply Hstore | done].
  - destruct (decide (index df = 0%nat)); [apply Hadopt | apply Hstore].
  - done.
Qed.

Lemma resolve_aesthetics_names env d (aesthetics : list (string * pyvalue)) st st' :
  resolve_aesthetics env d aesthetics st = Ok st' →
  NoDup (names st.1 ++ aesthetics.*1) →
  names st'.1 = names st.1 ++ aesthetics.*1.
Proof.
  revert st. induction aesthetics as [|[ae col] rest IH]; intros st.
  - injection 1 as <-. by rewrite app_nil_r.
  - cbn [resolve_aesthetics].
    destruct (resolve_aesthetic env d ae col st) as [st1|e] eqn:Hstep; [|done].
    rewrite bind_Ok. intros Hrest Hnd. rewrite fmap_cons in Hnd |- *. cbn [fst] in Hnd |- *.
    apply resolve_aesthetic_ok in Hstep as (x & Hx%setitem_names & _).
    assert (ae ∉ names st.1) as Hnew.
    { apply NoDup_app in Hnd as (_ & Hnd & _). intros Hin. apply (Hnd _ Hin). by left. }
    unfold with_name in Hx. rewrite decide_False in Hx by done.
    rewrite (IH _ Hrest); rewrite Hx, <- app_assoc; done.
Qed.

Lemma widen_ints_names df : names (widen_ints df) = names df.
Proof. unfold names, widen_ints. cbn [columns]. apply mapped_names. Qed.

Lemma add_group_names df df' :
  add_group df = Ok df' →
  names df' = if decide (len df = 0%nat) then names df else with_name "group" (names df).
Proof.
  unfold add_group. destruct (decide (len df = 0%nat)); [by injection 1 as <-|].
  destruct (negb (has_column df "group")); [|apply setitem_names].
  destruct (discrete_columns df ["label"]) as [[|c disc]|e]; [apply setitem_names..|done].
Qed.

Lemma set_panel_setitem d ev has ev2 :
  set_panel d ev has = Ok ev2 → ∃ x, setitem ev "PANEL" x = Ok ev2.
Proof.
  unfold set_panel. destruct (bool_decide (len d = 0%nat) && has).
  - intros Hx. by eexists.
  - destruct (getitem d "PANEL") as [p|e]; [|done]. rewrite bind_Ok. intros Hx. by eexists.
Qed.

(** The steps of a run of [compute_aesthetics] that succeeds. *)
Lemma compute_aesthetics_inv self plot l' sc :
  compute_aesthetics self plot = Ok (l', sc) →
  ∃ st ev2,
    resolve_aesthetics (environment plot) (data self) (active_aesthetics self plot)
      (frame_with_index (data self), false) = Ok st ∧
    set_panel (data self) (widen_ints st.1)
      (existsb (λ kv, is_list_like kv.2) (active_aesthetics self plot)) = Ok ev2 ∧
    add_group ev2 = Ok (data l') ∧
    l' = set_data (set_active_mapping self (active_aesthetics self plot)) (data l') ∧
    sc = add_defaults (scales plot) (widen_ints st.1)
           ((λ c, (c, c)) <$> names (widen_ints st.1)).
Proof.
  unfold compute_aesthetics.
  destruct (evaluate self plot) as [[ev has]|e] eqn:Hev; [|done].
  destruct (evaluate_ok _ _ _ _ Hev) as (st & Hloop & -> & ->). rewrite bind_Ok.
  cbn [fst snd].
  destruct (set_panel _ _ _) as [ev2|e] eqn:Hpanel; [|done]. rewrite bind_Ok.
  destruct (add_group ev2) as [g|e] eqn:Hgroup; [|done]. rewrite bind_Ok.
  injection 1 as <- <-. by exists st, ev2.
Qed.

(** X10: the resolved dataset has one column per aesthetic of the active mapping,
    in the order of the mapping, then PANEL, then group (each where it is no
    aesthetic already; no group on a dataset without rows). The scales are
    given the aesthetics, each under its own name, and neither PANEL nor
    group unless they are aesthetics. The layer remembers the mapping. *)
Theorem resolved_dataset_names (self : layer) (plot : Plot) (l' : layer) (sc : Scales) :
  NoDup (active_aesthetics self plot).*1 →
  compute_aesthetics self plot = Ok (l', sc) →
  names (data l')
  = (if decide (len (data l') = 0%nat)
     then with_name "PANEL" (active_aesthetics self plot).*1
     else with_name "group" (with_name "PANEL" (active_aesthetics self plot).*1)) ∧
  registered sc
  = registered (scales plot) ++ ((λ c, (c, c)) <$> (active_aesthetics self plot).*1) ∧
  _active_mapping l' = active_aesthetics self plot.
Proof.
  intros Hnd (st & ev2 & Hloop & Hpanel & Hgroup & Hl & ->)%compute_aesthetics_inv.
  pose proof (resolve_aesthetics_names _ _ _ (frame_with_index (data self), false) _
                Hloop Hnd) as Hnames.
  change (names (frame_with_index (data self), false).1) with (@nil string) in Hnames.
  rewrite app_nil_l in Hnames.
  destruct (set_panel_setitem _ _ _ _ Hpanel) as [x Hx%setitem_names].
  rewrite widen_ints_names, Hnames in Hx.
  split_and!.
  - rewrite (add_group_names _ _ Hgroup), Hx.
    destruct (add_group_keeps _ _ Hgroup) as [Hi _]. unfold len. rewrite Hi.
    by destruct (decide (index ev2 = 0%nat)).
  - cbn [add_defaults registered]. by rewrite widen_ints_names, Hnames.
  - by rewrite Hl.
Qed.

Lemma resolved_dataset_names_witness :
  ∃ l' sc,
    compute_aesthetics (new_layer data_xc [("x", PStr "x"); ("colour", PStr "c")]) plot0
    = Ok (l', sc) ∧
    registered sc = [("x", "x"); ("colour", "colour")].
Proof.
  destruct (compute_aesthetics
              (new_layer data_xc [("x", PStr "x"); ("colour", PStr "c")]) plot0)
    as [[l' sc]|e] eqn:Hrun; [|by vm_compute in Hrun].
  exists l', sc. split; [done|].
  refine (proj1 (proj2 (resolved_dataset_names
    (new_layer data_xc [("x", PStr "x"); ("colour", PStr "c")]) plot0 l' sc _ Hrun))).
  apply (bool_decide_unpack _). by vm_compute.
Defined.

Lemma reindex_not_int n s : dtype_of s ≠ int64 → dtype_of (reindex n s) ≠ int64.
Proof.
  intros Hs. unfold reindex. destruct (decide (n ≤ length (values s))%nat); [done|].
  cbn [dtype_of]. by rewrite decide_False.
Qed.

Lemma widen_not_int s : dtype_of (widen s) ≠ int64.
Proof. unfold widen. by destruct (decide (dtype_of s = int64)). Qed.

(** X11: no aesthetic of the resolved dataset is an int column: int columns are
    cast to float. Only PANEL and group, which are set after the cast, may
    be int. *)
Theorem resolved_aesthetics_are_not_int
    (self : layer) (plot : Plot) (l' : layer) (sc : Scales) (col : string) (s : Series) :
  compute_aesthetics self plot = Ok (l', sc) →
  col ≠ "PANEL" → col ≠ "group" →
  lookup_column col (columns (data l')) = Some s →
  dtype_of s ≠ int64.
Proof.
  intros (st & ev2 & Hloop & Hpanel & Hgroup & _)%compute_aesthetics_inv Hp Hg.
  destruct (add_group_keeps _ _ Hgroup) as [_ Hkeep]. rewrite Hkeep by done.
  destruct (set_panel_setitem _ _ _ _ Hpanel) as [x Hx].
  destruct (setitem_lookup_other _ _ _ _ col Hx) as [->|[n ->]]; [congruence|..];
    rewrite lookup_widen_ints;
    destruct (lookup_column col (columns st.1)) as [s0|]; try done;
    injection 1 as <-.
  - apply widen_not_int.
  - apply reindex_not_int, widen_not_int.
Qed.

Lemma resolved_aesthetics_are_not_int_witness :
  ∃ l' sc s,
    compute_aesthetics (new_layer data_xc [("x", PStr "x"); ("colour", PStr "c")]) plot0
    = Ok (l', sc) ∧
    lookup_column "x" (columns (data l')) = Some s ∧
    dtype_of s ≠ int64.
Proof.
  destruct (compute_aesthetics
              (new_layer data_xc [("x", PStr "x"); ("colour", PStr "c")]) plot0)
    as [[l' sc]|e] eqn:Hrun; [|by vm_compute in Hrun].
  destruct (lookup_column "x" (columns (data l'))) as [s|] eqn:Hs;
    [|vm_compute in Hrun; injection Hrun as <- _; by vm_compute in Hs].
  exists l', sc, s. split; [done|]. split; [done|].
  by apply (resolved_aesthetics_are_not_int
    (new_layer data_xc [("x", PStr "x"); ("colour", PStr "c")]) plot0 l' sc "x" s).
Defined.

End resolved_dataset.

(** ** When compute_aesthetics succeeds, and what each aesthetic becomes *)

Section resolved_values.
Import Exn Frame Utils Grouping Layer LayerDetails DataExamples.

Lemma store_column_Forall (P : string * Series → Prop) col s cols :
  P (col, s) → Forall P cols → Forall P (store_column col s cols).
Proof.
  intros Hnew. induction 1 as [|[c0 s0] cols Hhead Htail IH]; cbn [store_column].
  - by apply Forall_cons_2.
  - destruct (decide (c0 = col)); apply Forall_cons_2; done.
Qed.

Lemma length_reindex n s : length (values (reindex n s)) = n.
Proof.
  unfold reindex. destruct (decide (n ≤ length (values s))%nat) as [Hle|Hgt]; cbn [values].
  - by apply length_take_le.
  - rewrite length_app, length_replicate.
    destruct (decide (dtype_of s = int64)); cbn [astype_float values];
      rewrite ?length_fmap; lia.
Qed.

(** An assignment to a frame that has rows and one cell per row in every
    column leaves such a frame. *)
Lemma setitem_well_formed df col x df' :
  index df ≠ 0%nat → well_formed df → setitem df col x = Ok df' → well_formed df'.
Proof.
  intros Hrows Hwf. unfold well_formed, setitem.
  assert (∀ s, length (values s) = index df →
    Ok {| index := index df; columns := store_column col s (columns df) |} = Ok df' →
    Forall (λ c, length (values c.2) = index df') (columns df')) as Hstore.
  { intros s Hs. injection 1 as <-. by apply store_column_Forall. }
  destruct x as [s|v|s|s|t]; [|destruct v|..]; cbv zeta;
    rewrite ?decide_False by done;
    try (apply Hstore; apply length_replicate).
  - destruct (decide _); [|done]. by apply Hstore.
  - destruct (decide (length (values s) = index df)); [|done]. by apply Hstore.
  - apply Hstore, length_reindex.
  - done.
Qed.

(** An assignment keeps the column labels distinct. *)
Lemma setitem_NoDup df col x df' :
  NoDup (names df) → setitem df col x = Ok df' → NoDup (names df').
Proof. intros Hnd Hx. rewrite (setitem_names _ _ _ _ Hx). by apply with_name_NoDup. Qed.

Lemma resolve_aesthetic_succeeds env d ae col st :
  NoDup (names d) → index d ≠ 0%nat → index st.1 = index d → resolvable d col →
  ∃ st', resolve_aesthetic env d ae col st = Ok st'.
Proof.
  intros Hnd Hrows Hsame Hcol. unfold resolve_aesthetic.
  assert (index st.1 ≠ 0%nat) as Hrows' by congruence.
  assert (∀ x (b : bool) df', setitem st.1 ae x = Ok df' →
    ∃ st', (setitem st.1 ae x ≫= λ evaled, Ok (evaled, b)) = Ok st') as Hset.
  { intros x b df' ->. by eexists. }
  assert (∀ s : Series,
    match values s with [v] => hashable v = true | cells => length cells = len d end →
    bool_decide (len d ≠ 0%nat) && bool_decide (length (values s) ≠ len d)
      && bool_decide (length (values s) ≠ 1%nat) = false) as Hfits.
  { intros s Hs. destruct (values s) as [|v [|v2 vs]].
    - rewrite (bool_decide_eq_false_2 (length [] ≠ len d)) by (by intros []).
      by rewrite andb_false_r.
    - rewrite (bool_decide_eq_false_2 (length [v] ≠ 1%nat)) by (by intros []).
      apply andb_false_r.
    - rewrite (bool_decide_eq_false_2 (length (v :: v2 :: vs) ≠ len d)) by (by intros []).
      by rewrite andb_false_r. }
  destruct col as [expr|v|s|s|t]; cbn [resolvable] in Hcol.
  - rewrite Hcol. destruct (has_column_lookup _ _ Hcol) as [c Hc].
    rewrite (getitem_ok _ _ _ Hnd Hc), bind_Ok.
    destruct (setitem_series_ok st.1 ae c) as [df' Hdf']. by apply (Hset _ _ df').
  - change (is_list_like (PScalar v)) with false. cbv iota. rewrite Hcol.
    destruct (setitem_scalar_ok st.1 ae v) as [df' Hdf']; [by destruct v|].
    by apply (Hset _ _ df').
  - change (is_list_like (PList s)) with true. cbv iota.
    change (list_len (PList s)) with (length (values s)).
    rewrite (Hfits s Hcol). unfold first_item.
    destruct (decide (length (values s) = 1%nat)) as [Hone|Hone].
    + revert Hcol. destruct (values s) as [|v [|v2 vs]]; [done| |done]. intros Hv.
      destruct (setitem_scalar_ok st.1 ae v Hv) as [df' Hdf'].
      destruct v; try done; by apply (Hset _ _ df').
    + assert (length (values s) = len d) as Hall.
      { revert Hcol Hone. by destruct (values s) as [|v [|v2 vs]]. }
      destruct (setitem_list_ok st.1 ae s Hrows') as [df' Hdf'];
        [unfold len in Hall; congruence|].
      by apply (Hset _ _ df').
  - change (is_list_like (PSeries s)) with true. cbv iota.
    change (list_len (PSeries s)) with (length (values s)).
    rewrite (Hfits s Hcol). unfold first_item.
    destruct (decide (length (values s) = 1%nat)) as [Hone|Hone].
    + revert Hcol. destruct (values s) as [|v [|v2 vs]]; [done| |done]. intros Hv.
      destruct (setitem_scalar_ok st.1 ae v Hv) as [df' Hdf'].
      destruct v; try done; by apply (Hset _ _ df').
    + destruct (setitem_series_ok st.1 ae s) as [df' Hdf']. by apply (Hset _ _ df').
  - done.
Qed.

Lemma resolve_aesthetics_succeeds env d (aesthetics : list (string * pyvalue)) st :
  NoDup (names d) →
  index d ≠ 0%nat → index st.1 = index d → well_formed st.1 → NoDup (names st.1) →
  Forall (λ kv, resolvable d kv.2) aesthetics →
  ∃ st', resolve_aesthetics env d aesthetics st = Ok st' ∧
         index st'.1 = index d ∧ well_formed st'.1 ∧ NoDup (names st'.1).
Proof.
  intros Hnd Hrows Hsame Hwf Hnds Hall. revert st Hsame Hwf Hnds.
  induction Hall as [|[ae col] rest Hcol Hrest IH]; intros st Hsame Hwf Hnds.
  - by exists st.
  - cbn [resolve_aesthetics].
    destruct (resolve_aesthetic_succeeds env d ae col st Hnd Hrows Hsame Hcol) as [st1 Hst1].
    rewrite Hst1, bind_Ok.
    assert (index st.1 ≠ 0%nat) as Hrows' by congruence.
    destruct (resolve_aesthetic_ok _ _ _ _ _ _ Hst1) as (x & Hx & _).
    destruct (setitem_with_rows _ _ _ _ Hrows' Hx) as [Hi _].
    apply IH; [congruence | by eapply setitem_well_formed | by eapply setitem_NoDup].
Qed.

Lemma widen_ints_well_formed df : well_formed df → well_formed (widen_ints df).
Proof.
  unfold well_formed, widen_ints. cbn [columns index]. intros Hwf.
  apply Forall_fmap. eapply Forall_impl; [exact Hwf|].
  intros [c s] Hs. cbn in *. unfold widen.
  destruct (decide (dtype_of s = int64)); [|done].
  cbn [astype_float values]. by rewrite length_fmap.
Qed.

(** [add_group] does not raise on a frame with one cell per row in every
    column, and leaves such a frame. *)
Lemma add_group_succeeds d :
  well_formed d → NoDup (names d) → ∃ d', add_group d = Ok d' ∧ well_formed d'.
Proof.
  intros Hwf Hnd. unfold add_group.
  destruct (decide (len d = 0%nat)) as [|Hrows]; [by exists d|].
  assert (∀ x d', setitem d "group" x = Ok d' →
    ∃ d', setitem d "group" x = Ok d' ∧ well_formed d') as Hset.
  { intros x d' Hx. exists d'. split; [done|]. by eapply setitem_well_formed. }
  destruct (negb (has_column d "group")).
  - destruct (discrete_columns_ok d ["label"] Hwf Hnd Hrows) as [disc ->].
    rewrite bind_Ok. destruct disc as [|c disc].
    + by eapply Hset.
    + eapply Hset. by apply setitem_ids, length_ninteraction_select.
  - eapply Hset. by apply setitem_ids, length_ninteraction_select.
Qed.

(** X12: [compute_aesthetics] succeeds on a dataset with rows, distinct column
    labels, one cell per row in every column and a PANEL column, when every
    aesthetic of the active mapping is the name of a column, a number, or a
    vector of one item that is no list, or of one item per row. The resolved
    dataset has the rows of the source and one cell per row in every
    column. *)
Theorem compute_aesthetics_succeeds (self : layer) (plot : Plot) :
  well_formed (data self) →
  NoDup (names (data self)) →
  len (data self) ≠ 0%nat →
  has_column (data self) "PANEL" = true →
  Forall (λ kv, resolvable (data self) kv.2) (active_aesthetics self plot) →
  ∃ l' sc,
    compute_aesthetics self plot = Ok (l', sc) ∧
    len (data l') = len (data self) ∧
    well_formed (data l').
Proof.
  intros Hwf Hnd Hrows Hpanel Hall. unfold compute_aesthetics, evaluate.
  destruct (resolve_aesthetics_succeeds (environment plot) (data self)
              (active_aesthetics self plot) (frame_with_index (data self), false))
    as (st & -> & Hi & Hwfst & Hndst);
    [done | done | done | by apply Forall_nil_2 | by apply NoDup_nil_2 | done |].
  rewrite !bind_Ok. cbn [fst snd].
  destruct (has_column_lookup _ _ Hpanel) as [p Hp].
  assert (index (widen_ints st.1) ≠ 0%nat) as Hrows' by (cbn; unfold len in Hrows; congruence).
  assert (∃ ev2, set_panel (data self) (widen_ints st.1) st.2 = Ok ev2 ∧
                 index ev2 = index (data self) ∧ well_formed ev2 ∧ NoDup (names ev2))
    as (ev2 & -> & Hi2 & Hwf2 & Hnd2).
  { unfold set_panel. rewrite bool_decide_eq_false_2 by done. cbn [andb].
    rewrite (getitem_ok _ _ _ Hnd Hp), bind_Ok.
    destruct (setitem_series_ok (widen_ints st.1) "PANEL" p) as [ev2 Hev2].
    exists ev2. split; [done|].
    destruct (setitem_with_rows _ _ _ _ Hrows' Hev2) as [Hi2 _].
    split; [by rewrite Hi2|]. split.
    - eapply setitem_well_formed; [done | | done]. by apply widen_ints_well_formed.
    - eapply setitem_NoDup; [|done]. by rewrite widen_ints_names. }
  rewrite bind_Ok.
  destruct (add_group_succeeds ev2 Hwf2 Hnd2) as (g & Hg & Hwfg). rewrite Hg, bind_Ok.
  eexists _, _. split; [done|]. cbn [data set_data].
  destruct (add_group_keeps _ _ Hg) as [Hig _]. unfold len. split; [congruence | done].
Qed.

Lemma compute_aesthetics_succeeds_witness :
  ∃ l' sc,
    compute_aesthetics
      (new_layer data_xc [("x", PStr "x"); ("colour", PStr "c");
                          ("size", PScalar (VInt 2)); ("alpha", PList (floats [1; 2; 3]))])
      plot0 = Ok (l', sc) ∧
    len (data l') = 3%nat ∧
    well_formed (data l').
Proof.
  apply (compute_aesthetics_succeeds
    (new_layer data_xc [("x", PStr "x"); ("colour", PStr "c");
                        ("size", PScalar (VInt 2)); ("alpha", PList (floats [1; 2; 3]))])
    plot0).
  - repeat constructor.
  - apply (bool_decide_unpack _). by vm_compute.
  - by vm_compute.
  - by vm_compute.
  - repeat apply Forall_cons_2; try apply Forall_nil_2; cbn; auto.
Defined.

End resolved_values.

Section resolved_cells.
Import Exn Frame Utils Grouping Layer LayerDetails DataExamples.

Lemma aes_get_split k v (d : list (string * pyvalue)) :
  aes_get k d = Some v → ∃ pre post, d = pre ++ (k, v) :: post.
Proof. intros Hin%aes_get_elem_of. by apply list_elem_of_split. Qed.

(** With rows in the data, the column that the step for an aesthetic stores
    is, cast to float when it is int, the column of the resolved dataset. *)
Lemma resolved_column_kept self plot ae col l' sc s :
  NoDup (active_aesthetics self plot).*1 →
  aes_get ae (active_aesthetics self plot) = Some col →
  len (data self) ≠ 0%nat → ae ≠ "group" → ae ≠ "PANEL" →
  compute_aesthetics self plot = Ok (l', sc) →
  (∀ st st', index st.1 = index (data self) →
     resolve_aesthetic (environment plot) (data self) ae col st = Ok st' →
     lookup_column ae (columns st'.1) = Some s) →
  lookup_column ae (columns (data l')) = Some (widen s).
Proof.
  intros Hnd (pre & post & Hactive)%aes_get_split Hnz Hgroup Hpanel Hrun Hstep.
  destruct (compute_aesthetics_inv _ _ _ _ Hrun) as (st & ev2 & Hloop & Hp & Hg & _).
  rewrite Hactive, resolve_aesthetics_app in Hloop.
  destruct (resolve_aesthetics _ _ pre _) as [st1|e] eqn:Hpre; [|done].
  rewrite bind_Ok in Hloop. cbn [resolve_aesthetics] in Hloop.
  destruct (resolve_aesthetic _ _ ae col st1) as [st2|e] eqn:Hst; [|done].
  rewrite bind_Ok in Hloop.
  destruct (resolve_aesthetics_with_rows _ _ _ (frame_with_index (data self), false) _
              Hnz Hpre) as [Hi1 _].
  cbn [fst frame_with_index index] in Hi1.
  pose proof (Hstep _ _ Hi1 Hst) as Hcol.
  assert (index st1.1 ≠ 0%nat) as Hnz1 by (unfold len in Hnz; congruence).
  destruct (resolve_aesthetic_with_rows _ _ _ _ _ _ Hnz1 Hst) as [Hi2 _].
  assert (index st2.1 ≠ 0%nat) as Hnz2 by congruence.
  destruct (resolve_aesthetics_with_rows _ _ _ _ _ Hnz2 Hloop) as [Hi3 Hc3].
  assert (ae ∉ post.*1) as Hpost.
  { rewrite Hactive, fmap_app in Hnd. apply NoDup_app in Hnd as (_ & _ & Hnd).
    rewrite fmap_cons in Hnd. by apply NoDup_cons in Hnd as [? _]. }
  destruct (set_panel_ok _ _ _ _ Hp) as [_ Hrows].
  change (index (widen_ints st.1)) with (index st.1) in Hrows.
  destruct Hrows as [_ Hc2]; [congruence|].
  destruct (add_group_keeps _ _ Hg) as [_ Hcg].
  rewrite Hcg, Hc2, lookup_widen_ints, Hc3 by done.
  by rewrite Hcol.
Qed.

(** X13: an aesthetic mapped to the name of a column gets a copy of that column,
    cast to float when it is int. *)
Theorem column_reference_is_copied
    (self : layer) (plot : Plot) (ae expr : string) (c : Series)
    (l' : layer) (sc : Scales) :
  NoDup (active_aesthetics self plot).*1 →
  aes_get ae (active_aesthetics self plot) = Some (PStr expr) →
  lookup_column expr (columns (data self)) = Some c →
  length (values c) = len (data self) →
  len (data self) ≠ 0%nat →
  ae ≠ "group" → ae ≠ "PANEL" →
  compute_aesthetics self plot = Ok (l', sc) →
  lookup_column ae (columns (data l')) = Some (widen c).
Proof.
  intros Hnd Hget Hc Hlen Hnz Hgroup Hpanel Hrun.
  apply (resolved_column_kept self plot ae (PStr expr) l' sc c); try done.
  intros st st' Hi. unfold resolve_aesthetic, getitem.
  rewrite (lookup_has_column _ _ _ Hc), Hc.
  destruct (decide (count_label (data self) expr = 1%nat)); [|done].
  rewrite bind_Ok. unfold setitem. rewrite decide_False by (unfold len in Hnz; congruence).
  rewrite bind_Ok. injection 1 as <-. cbn [fst columns].
  rewrite lookup_store_column_eq. f_equal. apply reindex_same.
  unfold len in Hlen. congruence.
Qed.

Lemma column_reference_is_copied_witness :
  ∃ l' sc,
    compute_aesthetics (new_layer data_xc [("x", PStr "x"); ("colour", PStr "c")]) plot0
    = Ok (l', sc) ∧
    lookup_column "x" (columns (data l')) = Some (floats [1; 2; 3]) ∧
    lookup_column "colour" (columns (data l')) = Some (strs ["a"; "b"; "a"]).
Proof.
  destruct (compute_aesthetics
              (new_layer data_xc [("x", PStr "x"); ("colour", PStr "c")]) plot0)
    as [[l' sc]|e] eqn:Hrun; [|by vm_compute in Hrun].
  exists l', sc. split; [done|]. split.
  - apply (column_reference_is_copied
      (new_layer data_xc [("x", PStr "x"); ("colour", PStr "c")]) plot0
      "x" "x" (ints [1; 2; 3]) l' sc); try done.
    apply (bool_decide_unpack _). by vm_compute.
  - apply (column_reference_is_copied
      (new_layer data_xc [("x", PStr "x"); ("colour", PStr "c")]) plot0
      "colour" "c" (strs ["a"; "b"; "a"]) l' sc); try done.
    apply (bool_decide_unpack _). by vm_compute.
Defined.

(** X14: a number is repeated down the rows; a vector of more than one item is
    stored as it is. Each is cast to float when it is int. *)
Theorem numbers_and_vectors_are_stored
    (self : layer) (plot : Plot) (ae : string) (col : pyvalue)
    (l' : layer) (sc : Scales) :
  NoDup (active_aesthetics self plot).*1 →
  aes_get ae (active_aesthetics self plot) = Some col →
  len (data self) ≠ 0%nat →
  ae ≠ "group" → ae ≠ "PANEL" →
  compute_aesthetics self plot = Ok (l', sc) →
  (∀ v, col = PScalar v →
     lookup_column ae (columns (data l'))
     = Some (widen (broadcast v (len (data self))))) ∧
  (∀ s, col = PList s ∨ col = PSeries s → length (values s) ≠ 1%nat →
     length (values s) = len (data self) ∧
     lookup_column ae (columns (data l')) = Some (widen s)).
Proof.
  intros Hnd Hget Hnz Hgroup Hpanel Hrun. split.
  - intros v ->.
    apply (resolved_column_kept self plot ae (PScalar v) l' sc); try done.
    intros st st' Hi. unfold resolve_aesthetic.
    change (is_list_like (PScalar v)) with false. cbv iota.
    destruct (is_number (PScalar v)) eqn:Hnum; [|done].
    rewrite setitem_scalar by (by destruct v). rewrite bind_Ok. injection 1 as <-. cbn [fst columns].
    rewrite lookup_store_column_eq. unfold len. by rewrite Hi.
  - intros s Hcol Hone.
    assert (∀ st st', index st.1 = index (data self) →
      resolve_aesthetic (environment plot) (data self) ae col st = Ok st' →
      length (values s) = len (data self) ∧
      lookup_column ae (columns st'.1) = Some s) as Hstep.
    { intros st st' Hi. unfold resolve_aesthetic.
      assert (index st.1 ≠ 0%nat) as Hnz' by (unfold len in Hnz; congruence).
      destruct Hcol as [->| ->].
      - change (is_list_like (PList s)) with true. cbv iota.
        change (list_len (PList s)) with (length (values s)).
        rewrite (bool_decide_eq_true_2 (len (data self) ≠ 0%nat)) by done.
        rewrite (bool_decide_eq_true_2 (length (values s) ≠ 1%nat)) by done.
        rewrite decide_False by done.
        destruct (decide (length (values s) = len (data self))) as [Hlen|Hlen].
        + rewrite bool_decide_eq_false_2 by (by intros []). cbn [andb].
          unfold setitem. rewrite decide_False by done.
          rewrite decide_True by (unfold len in Hlen; congruence).
          rewrite bind_Ok. injection 1 as <-. cbn [fst columns].
          by rewrite lookup_store_column_eq.
        + by rewrite bool_decide_eq_true_2.
      - change (is_list_like (PSeries s)) with true. cbv iota.
        change (list_len (PSeries s)) with (length (values s)).
        rewrite (bool_decide_eq_true_2 (len (data self) ≠ 0%nat)) by done.
        rewrite (bool_decide_eq_true_2 (length (values s) ≠ 1%nat)) by done.
        rewrite decide_False by done.
        destruct (decide (length (values s) = len (data self))) as [Hlen|Hlen].
        + rewrite bool_decide_eq_false_2 by (by intros []). cbn [andb].
          unfold setitem. rewrite decide_False by done.
          rewrite bind_Ok. injection 1 as <-. cbn [fst columns].
          rewrite lookup_store_column_eq. split; [done|]. f_equal.
          apply reindex_same. unfold len in Hlen. congruence.
        + by rewrite bool_decide_eq_true_2. }
    assert (length (values s) = len (data self)) as Hlen.
    { destruct (compute_aesthetics_inv _ _ _ _ Hrun) as (st & _ & Hloop & _).
      destruct (aes_get_split _ _ _ Hget) as (pre & post & Hactive).
      rewrite Hactive, resolve_aesthetics_app in Hloop.
      destruct (resolve_aesthetics _ _ pre _) as [st1|e] eqn:Hpre; [|done].
      rewrite bind_Ok in Hloop. cbn [resolve_aesthetics] in Hloop.
      destruct (resolve_aesthetic _ _ ae col st1) as [st2|e] eqn:Hst; [|done].
      destruct (resolve_aesthetics_with_rows _ _ _ (frame_with_index (data self), false) _
                  Hnz Hpre) as [Hi1 _].
      by destruct (Hstep _ _ Hi1 Hst). }
    split; [done|].
    apply (resolved_column_kept self plot ae col l' sc); try done.
    intros st st' Hi Hst. by destruct (Hstep _ _ Hi Hst).
Qed.

Lemma numbers_and_vectors_are_stored_witness :
  ∃ l' sc,
    compute_aesthetics
      (new_layer data_xc [("x", PStr "x"); ("size", PScalar (VInt 2));
                          ("alpha", PList (ints [7; 8; 9]))]) plot0 = Ok (l', sc) ∧
    lookup_column "size" (columns (data l')) = Some (floats [2; 2; 2]) ∧
    lookup_column "alpha" (columns (data l')) = Some (floats [7; 8; 9]).
Proof.
  destruct (compute_aesthetics
              (new_layer data_xc [("x", PStr "x"); ("size", PScalar (VInt 2));
                                  ("alpha", PList (ints [7; 8; 9]))]) plot0)
    as [[l' sc]|e] eqn:Hrun; [|by vm_compute in Hrun].
  exists l', sc. split; [done|]. split.
  - refine (proj1 (numbers_and_vectors_are_stored
      (new_layer data_xc [("x", PStr "x"); ("size", PScalar (VInt 2));
                          ("alpha", PList (ints [7; 8; 9]))]) plot0
      "size" (PScalar (VInt 2)) l' sc _ _ _ _ _ Hrun) (VInt 2) eq_refl); try done.
    apply (bool_decide_unpack _). by vm_compute.
  - refine (proj2 (proj2 (numbers_and_vectors_are_stored
      (new_layer data_xc [("x", PStr "x"); ("size", PScalar (VInt 2));
                          ("alpha", PList (ints [7; 8; 9]))]) plot0
      "alpha" (PList (ints [7; 8; 9])) l' sc _ _ _ _ _ Hrun) (ints [7; 8; 9]) _ _));
      try done; [apply (bool_decide_unpack _); by vm_compute | by left].
Defined.

(** X15: when the mapping resolves and the dataset has no PANEL column,
    [compute_aesthetics] raises [KeyError] for PANEL, unless the dataset has
    no row and an aesthetic is given as a vector. *)
Theorem missing_panel_column_raises
    (self : layer) (plot : Plot) (ev : DataFrame) (has : bool) :
  evaluate self plot = Ok (ev, has) →
  has_column (data self) "PANEL" = false →
  len (data self) ≠ 0%nat ∨
    existsb (λ kv, is_list_like kv.2) (active_aesthetics self plot) = false →
  compute_aesthetics self plot = Raise (KeyError "PANEL").
Proof.
  intros Hev Hpanel Hcase. unfold compute_aesthetics. rewrite Hev, bind_Ok.
  destruct (evaluate_ok _ _ _ _ Hev) as (_ & _ & _ & Hhas). cbn [fst snd].
  unfold set_panel.
  assert (bool_decide (len (data self) = 0%nat) && has = false) as ->.
  { destruct Hcase as [Hnz|Hno].
    - by rewrite bool_decide_eq_false_2.
    - rewrite Hhas, Hno. apply andb_false_r. }
  unfold getitem.
  destruct (lookup_column "PANEL" (columns (data self))) as [p|] eqn:Hp; [|done].
  by rewrite (lookup_has_column _ _ _ Hp) in Hpanel.
Qed.

Lemma missing_panel_column_raises_witness :
  compute_aesthetics
    (new_layer {| index := 2; columns := [("x", ints [1; 2])] |} [("x", PStr "x")]) plot0
  = Raise (KeyError "PANEL").
Proof.
  refine (missing_panel_column_raises
    (new_layer {| index := 2; columns := [("x", ints [1; 2])] |} [("x", PStr "x")]) plot0
    _ _ _ _ _).
  - by vm_compute.
  - by vm_compute.
  - left. by vm_compute.
Defined.

(** X16: an aesthetic mapped to an object that is neither a string nor a
    number and cannot be iterated, such as [None], makes
    [compute_aesthetics] raise; when the aesthetics that come before it
    resolve, the error names the aesthetic. *)
Theorem unsupported_aesthetic_raises
    (self : layer) (plot : Plot) (pre post : aes) (ae : string) (t : string) :
  active_aesthetics self plot = pre ++ (ae, PObject t) :: post →
  raises (compute_aesthetics self plot) ∧
  (∀ st, resolve_aesthetics (environment plot) (data self) pre
           (frame_with_index (data self), false) = Ok st →
         compute_aesthetics self plot = Raise (GgplotError (UNKNOWN_AESTHETIC ae))).
Proof.
  intros Hactive.
  assert (∀ st, resolve_aesthetics (environment plot) (data self) pre
             (frame_with_index (data self), false) = Ok st →
           compute_aesthetics self plot = Raise (GgplotError (UNKNOWN_AESTHETIC ae)))
    as Hpre.
  { intros st Hst. apply compute_aesthetics_loop_raises.
    by rewrite Hactive, (resolve_aesthetics_at _ _ _ _ _ _ _ st Hst). }
  split; [|done].
  destruct (resolve_aesthetics (environment plot) (data self) pre
              (frame_with_index (data self), false)) as [st|e] eqn:Hst.
  - by rewrite (Hpre st).
  - rewrite (compute_aesthetics_loop_raises _ _ e); [done|].
    by rewrite Hactive, resolve_aesthetics_app, Hst.
Qed.

Lemma unsupported_aesthetic_raises_witness :
  compute_aesthetics
    (new_layer data5 [("x", PStr "x"); ("shape", PObject "<class 'NoneType'>")]) plot0
  = Raise (GgplotError "Do not know how to deal with aesthetic 'shape'").
Proof.
  refine (proj2 (unsupported_aesthetic_raises
    (new_layer data5 [("x", PStr "x"); ("shape", PObject "<class 'NoneType'>")]) plot0
    [("x", PStr "x")] [] "shape" "<class 'NoneType'>" _) _ _).
  - by vm_compute.
  - by vm_compute.
Defined.

End resolved_cells.

(** ** map_statistic: the columns it adds *)

Section computed_statistics.
Import Exn Frame Utils Grouping Layer LayerDetails DataExamples.

Lemma elem_of_is_calculated_aes ae (m : list (string * pyvalue)) :
  ae ∈ is_calculated_aes m ↔ ∃ expr, (ae, PStr expr) ∈ m ∧ is_calculated expr = true.
Proof.
  unfold is_calculated_aes. rewrite list_elem_of_omap. split.
  - intros ([k v] & Hin & Hf). cbn [fst snd] in Hf. destruct v as [expr| | | |]; try done.
    destruct (is_calculated expr) eqn:Hexpr; [|done]. injection Hf as ->. by exists expr.
  - intros (expr & Hin & Hexpr). exists (ae, PStr expr). split; [done|].
    cbn [fst snd]. by rewrite Hexpr.
Qed.

Lemma is_calculated_aes_NoDup (m : list (string * pyvalue)) :
  NoDup m.*1 → NoDup (is_calculated_aes m).
Proof.
  induction m as [|[k v] m IH]; [constructor|].
  rewrite fmap_cons. cbn [fst]. intros [Hk Hm]%NoDup_cons.
  unfold is_calculated_aes. cbn [omap list_omap fst snd].
  assert (k ∉ is_calculated_aes m) as Hnew.
  { intros (expr & Hin & _)%elem_of_is_calculated_aes. apply Hk.
    apply list_elem_of_fmap. by exists (k, PStr expr). }
  destruct v as [expr| | | |]; try (by apply IH).
  destruct (is_calculated expr); [|by apply IH].
  apply NoDup_cons. split; [done | by apply IH].
Qed.

Lemma aes_get_of_elem k v (m : list (string * pyvalue)) :
  NoDup m.*1 → (k, v) ∈ m → aes_get k m = Some v.
Proof.
  induction m as [|[k' v'] m IH]; [by intros _ ?%elem_of_nil|].
  rewrite fmap_cons. cbn [fst aes_get]. intros [Hk Hm]%NoDup_cons Hin.
  apply elem_of_cons in Hin as [Heq|Hin].
  - injection Heq as -> ->. by rewrite decide_True.
  - rewrite decide_False; [by apply IH|]. intros ->. apply Hk.
    apply list_elem_of_fmap. by exists (k, v).
Qed.

Lemma statistic_aesthetics_NoDup self plot :
  NoDup (mapping self).*1 → NoDup (plot_mapping plot).*1 →
  NoDup (DEFAULT_AES (stat self)).*1 →
  NoDup (statistic_aesthetics self plot).*1.
Proof.
  intros Hl Hp Hs. unfold statistic_aesthetics. apply defaults_keys_NoDup; [|done].
  destruct (inherit_aes self); [by apply defaults_keys_NoDup | done].
Qed.

Lemma store_column_new col s (cols : list (string * Series)) :
  col ∉ cols.*1 → store_column col s cols = cols ++ [(col, s)].
Proof.
  induction cols as [|[c0 s0] cols IH]; [done|].
  rewrite fmap_cons. cbn [fst store_column]. intros [Hne Hnin]%not_elem_of_cons.
  rewrite decide_False by done. by rewrite IH.
Qed.

Lemma reindex_all_same n (cols : list (string * Series)) :
  Forall (λ c, length (values c.2) = n) cols → prod_map id (reindex n) <$> cols = cols.
Proof.
  induction 1 as [|[c s] cols Hs Hcols IH]; [done|].
  rewrite fmap_cons, IH. cbn in *. by rewrite reindex_same.
Qed.

(** The loop of [map_statistic], from any point on: it appends one pair per
    calculated aesthetic, and one column per calculated aesthetic that is
    mapped to a computed column of another name. *)
Lemma collect_statistics_run data (aesthetics : list (string * pyvalue)) calculated new sd :
  index data ≠ 0%nat → well_formed data → NoDup (names data) →
  (∀ ae, ae ∈ calculated →
     ∃ expr, aes_get ae aesthetics = Some (PStr expr) ∧
             (ae ≠ strip_dots expr → has_column data (strip_dots expr) = true)) →
  NoDup (names sd ++ calculated) →
  index sd = match columns sd with [] => 0%nat | _ :: _ => index data end →
  Forall (λ c, length (values c.2) = index data) (columns sd) →
  ∃ sd',
    collect_statistics data aesthetics calculated new sd
    = Ok (new ++ omap (statistic_pair aesthetics) calculated, sd') ∧
    columns sd' = columns sd ++ omap (statistic_column data aesthetics) calculated ∧
    index sd' = match columns sd' with [] => 0%nat | _ :: _ => index data end ∧
    Forall (λ c, length (values c.2) = index data) (columns sd').
Proof.
  intros Hrows Hwf Hdata. revert new sd.
  induction calculated as [|ae rest IH]; intros new sd Hpresent Hnd Hindex Hlens.
  - exists sd. cbn [collect_statistics omap list_omap]. by rewrite !app_nil_r.
  - destruct (Hpresent ae) as (expr & Hget & Hcol); [by left|].
    assert (∀ ae', ae' ∈ rest →
      ∃ expr, aes_get ae' aesthetics = Some (PStr expr) ∧
              (ae' ≠ strip_dots expr → has_column data (strip_dots expr) = true))
      as Hrest by (intros ae' Hin; apply Hpresent; by right).
    cbn [collect_statistics omap list_omap]. unfold statistic_pair at 1. rewrite Hget.
    unfold statistic_column at 1. rewrite Hget.
    destruct (decide (ae ≠ strip_dots expr)) as [Hne|Heq].
    + destruct (has_column_lookup _ _ (Hcol Hne)) as [c Hc].
      rewrite (getitem_ok _ _ _ Hdata Hc), bind_Ok, Hc. cbn [fmap option_fmap option_map].
      pose proof (well_formed_lookup _ _ _ Hwf Hc) as Hlen.
      assert (ae ∉ names sd) as Hnew.
      { apply NoDup_app in Hnd as (_ & Hnd & _). intros Hin. apply (Hnd _ Hin). by left. }
      assert (setitem sd ae (PSeries c)
              = Ok {| index := index data; columns := columns sd ++ [(ae, c)] |}) as ->.
      { unfold setitem, adopt_index. destruct (columns sd) as [|c0 cols] eqn:Hcols.
        - rewrite decide_True by done. by rewrite Hlen.
        - rewrite decide_False by congruence. rewrite Hindex.
          rewrite reindex_same by done. rewrite store_column_new; [done|].
          unfold names in Hnew. by rewrite Hcols in Hnew. }
      rewrite bind_Ok.
      destruct (IH (new ++ [(ae, strip_dots expr)])
                  {| index := index data; columns := columns sd ++ [(ae, c)] |})
        as (sd' & Hrun & Hcols' & Hindex' & Hlens'); try done.
      * unfold names. cbn [columns]. rewrite fmap_app, <- app_assoc. done.
      * cbn [columns index]. by destruct (columns sd).
      * cbn [columns]. apply Forall_app_2; [done|]. by apply Forall_cons_2.
      * cbn [columns] in Hcols'. rewrite <- app_assoc in Hcols'.
        exists sd'. rewrite Hrun, <- app_assoc. done.
    + destruct (IH (new ++ [(ae, strip_dots expr)]) sd)
        as (sd' & Hrun & Hcols' & Hindex' & Hlens'); try done.
      * apply NoDup_app in Hnd as (Hn1 & Hn2 & Hn3).
        apply NoDup_cons in Hn3 as [_ Hn3]. apply NoDup_app. split_and!; try done.
        intros x Hx Hin. apply (Hn2 _ Hx). by right.
      * exists sd'. rewrite Hrun, <- app_assoc. done.
Qed.

(** What the loop of [map_statistic] gives on a dataset with rows and
    distinct column labels, for mappings whose keys are distinct and whose
    calculated names, stripped, are columns of the data. *)
Lemma statistics_collected self plot :
  len (data self) ≠ 0%nat →
  well_formed (data self) →
  NoDup (names (data self)) →
  NoDup (mapping self).*1 →
  NoDup (plot_mapping plot).*1 →
  NoDup (DEFAULT_AES (stat self)).*1 →
  computed_columns_present (data self) (statistic_aesthetics self plot) →
  collect_statistics (data self) (statistic_aesthetics self plot)
    (is_calculated_aes (statistic_aesthetics self plot)) [] empty_frame
  = Ok (omap (statistic_pair (statistic_aesthetics self plot))
          (is_calculated_aes (statistic_aesthetics self plot)),
        statistic_frame (data self) (statistic_aesthetics self plot)
          (is_calculated_aes (statistic_aesthetics self plot))) ∧
  concat_columns (data self)
    (statistic_frame (data self) (statistic_aesthetics self plot)
       (is_calculated_aes (statistic_aesthetics self plot)))
  = {| index := index (data self);
       columns := columns (data self)
                  ++ omap (statistic_column (data self) (statistic_aesthetics self plot))
                       (is_calculated_aes (statistic_aesthetics self plot)) |} ∧
  (∀ ae, ae ∈ is_calculated_aes (statistic_aesthetics self plot) →
     is_Some (statistic_pair (statistic_aesthetics self plot) ae)).
Proof.
  intros Hrows Hwf Hdata Hl Hp Hs Hpresent.
  pose proof (statistic_aesthetics_NoDup self plot Hl Hp Hs) as Hnd.
  set (aesthetics := statistic_aesthetics self plot) in *.
  assert (∀ ae, ae ∈ is_calculated_aes aesthetics →
     ∃ expr, aes_get ae aesthetics = Some (PStr expr) ∧
             (ae ≠ strip_dots expr → has_column (data self) (strip_dots expr) = true))
    as Hcalc.
  { intros ae (expr & Hin & Hexpr)%elem_of_is_calculated_aes. exists expr.
    split; [by apply aes_get_of_elem|]. intros Hne. by apply (Hpresent ae expr). }
  destruct (collect_statistics_run (data self) aesthetics (is_calculated_aes aesthetics)
              [] empty_frame)
    as (sd & Hrun & Hcols & Hindex & Hlens); try done.
  { by apply is_calculated_aes_NoDup. }
  assert (sd = statistic_frame (data self) aesthetics (is_calculated_aes aesthetics))
    as Hsd.
  { destruct sd as [i cols]. cbn [columns index empty_frame app] in *.
    unfold statistic_frame. by rewrite Hindex, Hcols. }
  rewrite <- Hsd. split; [exact Hrun|]. split.
  - unfold concat_columns.
    assert ((index (data self) `max` index sd)%nat = index (data self)) as ->.
    { rewrite Hindex. destruct (columns sd); lia. }
    rewrite reindex_all_same by (by apply Forall_app_2). by rewrite Hcols.
  - intros ae (expr & Hget & _)%Hcalc. unfold statistic_pair. rewrite Hget. by eexists.
Qed.

(** X17: [map_statistic] on a dataset with rows and distinct column labels,
    for mappings whose keys are distinct and whose calculated names,
    stripped, are columns of the data:
    with no calculated aesthetic it returns the dataset and changes nothing;
    otherwise it keeps the rows and the columns of the dataset, appends a
    copy of the computed column for every calculated aesthetic mapped to a
    computed column of another name, in the order of the mapping, and
    registers every calculated aesthetic with its computed column. An
    aesthetic mapped to its own name, as y = '..y..', adds no column, and its
    column is not even looked up. *)
Theorem map_statistic_adds_computed_columns (self : layer) (plot : Plot) :
  len (data self) ≠ 0%nat →
  well_formed (data self) →
  NoDup (names (data self)) →
  NoDup (mapping self).*1 →
  NoDup (plot_mapping plot).*1 →
  NoDup (DEFAULT_AES (stat self)).*1 →
  computed_columns_present (data self) (statistic_aesthetics self plot) →
  match is_calculated_aes (statistic_aesthetics self plot) with
  | [] => map_statistic self plot = Ok (Some (data self), self, scales plot)
  | calculated =>
      let stat_data :=
        statistic_frame (data self) (statistic_aesthetics self plot) calculated in
      map_statistic self plot
      = Ok (None,
            set_data self
              (concat_columns (data self)
                 (if retransform (stat self) then transform_df (scales plot) stat_data
                  else stat_data)),
            add_defaults (scales plot) (data self)
              (omap (statistic_pair (statistic_aesthetics self plot)) calculated)) ∧
      concat_columns (data self) stat_data
      = {| index := index (data self);
           columns := columns (data self) ++ columns stat_data |}
  end.
Proof.
  intros Hrows Hwf Hdata Hl Hp Hs Hpresent.
  destruct (statistics_collected self plot Hrows Hwf Hdata Hl Hp Hs Hpresent)
    as (Hloop & Hconcat & Hpairs).
  unfold map_statistic. rewrite decide_False by done. rewrite Hloop, bind_Ok.
  cbn [fst snd].
  destruct (is_calculated_aes (statistic_aesthetics self plot)) as [|ae rest]; [done|].
  destruct (Hpairs ae) as [pair Hpair]; [by left|].
  cbn [omap list_omap] in *. rewrite Hpair. by cbv zeta.
Qed.

Lemma map_statistic_adds_computed_columns_witness :
  map_statistic (new_layer data_summary [("x", PStr "x"); ("fill", PStr "..y..")]) plot0
  = Ok (None,
        set_data (new_layer data_summary [("x", PStr "x"); ("fill", PStr "..y..")])
          {| index := 2;
             columns := columns data_summary ++ [("fill", floats [5; 6])] |},
        add_defaults scales0 data_summary [("fill", "y")]).
Proof.
  refine (proj1 (map_statistic_adds_computed_columns
    (new_layer data_summary [("x", PStr "x"); ("fill", PStr "..y..")]) plot0
    _ _ _ _ _ _ _)).
  - by vm_compute.
  - repeat constructor.
  - apply (bool_decide_unpack _). by vm_compute.
  - apply (bool_decide_unpack _). by vm_compute.
  - constructor.
  - constructor.
  - intros ae expr Hin Hexpr Hne.
    repeat (apply elem_of_cons in Hin as [Hin|Hin]; [injection Hin as -> ->|]);
      try done; by apply elem_of_nil in Hin.
Defined.

Lemma statistic_columns_names data (m : list (string * pyvalue)) calculated :
  (omap (statistic_column data m) calculated).*1
  = filter (λ ae, is_Some (statistic_column data m ae)) calculated.
Proof.
  induction calculated as [|ae rest IH]; [done|].
  cbn [omap list_omap]. rewrite filter_cons.
  destruct (statistic_column data m ae) as [p|] eqn:Hp.
  - rewrite decide_True by done. rewrite fmap_cons, IH. f_equal.
    revert Hp. unfold statistic_column.
    destruct (aes_get ae m) as [[expr| | | |]|]; try done.
    destruct (decide (ae ≠ strip_dots expr)); [|done].
    destruct (lookup_column _ _); [|done]. by injection 1 as <-.
  - rewrite decide_False; [done|]. by intros [? ?].
Qed.

(** X18: when [map_statistic] repeats a name. For a dataset with distinct column
    names and a stat that does not retransform, the dataset it leaves has
    distinct column names exactly when no calculated aesthetic that is
    mapped to a computed column of another name is itself a column of the
    dataset already: the guard against duplicates covers y = '..y..' and
    nothing else. *)
Theorem map_statistic_repeats_names_exactly (self : layer) (plot : Plot) :
  len (data self) ≠ 0%nat →
  well_formed (data self) →
  NoDup (mapping self).*1 →
  NoDup (plot_mapping plot).*1 →
  NoDup (DEFAULT_AES (stat self)).*1 →
  computed_columns_present (data self) (statistic_aesthetics self plot) →
  NoDup (names (data self)) →
  retransform (stat self) = false →
  is_calculated_aes (statistic_aesthetics self plot) ≠ [] →
  ∃ l' sc',
    map_statistic self plot = Ok (None, l', sc') ∧
    (NoDup (names (data l')) ↔
     ∀ ae expr,
       (ae, PStr expr) ∈ statistic_aesthetics self plot →
       is_calculated expr = true → ae ≠ strip_dots expr →
       has_column (data self) ae = false).
Proof.
  intros Hrows Hwf Hl Hp Hs Hpresent Hnames Hre Hsome.
  destruct (statistics_collected self plot Hrows Hwf Hnames Hl Hp Hs Hpresent)
    as (Hloop & Hconcat & Hpairs).
  pose proof (statistic_aesthetics_NoDup self plot Hl Hp Hs) as Hnd.
  pose proof (is_calculated_aes_NoDup _ Hnd) as Hcalc.
  set (aesthetics := statistic_aesthetics self plot) in *.
  assert (∃ pair pairs,
    omap (statistic_pair aesthetics) (is_calculated_aes aesthetics) = pair :: pairs)
    as (pair & pairs & Hnew).
  { destruct (is_calculated_aes aesthetics) as [|ae0 rest]; [done|].
    destruct (Hpairs ae0) as [pair Hpair]; [by left|].
    cbn [omap list_omap]. rewrite Hpair. by eexists _, _. }
  unfold map_statistic. rewrite decide_False by done. fold aesthetics.
  rewrite Hloop, bind_Ok. cbn [fst snd]. rewrite Hnew, Hre, Hconcat.
  eexists _, _. split; [done|]. cbn [data set_data].
  unfold names. cbn [columns]. rewrite fmap_app, statistic_columns_names.
  fold (names (data self)). split.
  - intros (_ & Hdisj & _)%NoDup_app ae expr Hin Hexpr Hne.
    apply bool_decide_eq_false. intros Hcol. apply (Hdisj _ Hcol).
    apply list_elem_of_filter. split.
    + unfold statistic_column. rewrite (aes_get_of_elem _ _ _ Hnd Hin).
      rewrite decide_True by done.
      destruct (has_column_lookup _ _ (Hpresent ae expr Hin Hexpr Hne)) as [c ->].
      by eexists.
    + apply elem_of_is_calculated_aes. by exists expr.
  - intros Hfree. apply NoDup_app. split_and!; [done | | by apply NoDup_filter].
    intros ae Hcol [Hadded Hin]%list_elem_of_filter.
    apply elem_of_is_calculated_aes in Hin as (expr & Hin & Hexpr).
    revert Hadded. unfold statistic_column. rewrite (aes_get_of_elem _ _ _ Hnd Hin).
    destruct (decide (ae ≠ strip_dots expr)) as [Hne|]; [|by intros [? ?]].
    intros _. specialize (Hfree ae expr Hin Hexpr Hne).
    apply bool_decide_eq_false in Hfree. done.
Qed.

Lemma map_statistic_repeats_names_exactly_witness :
  ∃ l' sc',
    map_statistic (new_layer data_summary [("x", PStr "x"); ("fill", PStr "..y..")]) plot0
    = Ok (None, l', sc') ∧
    NoDup (names (data l')).
Proof.
  destruct (map_statistic_repeats_names_exactly
    (new_layer data_summary [("x", PStr "x"); ("fill", PStr "..y..")]) plot0)
    as (l' & sc' & Hrun & Hiff).
  - by vm_compute.
  - repeat constructor.
  - apply (bool_decide_unpack _). by vm_compute.
  - constructor.
  - constructor.
  - intros ae expr Hin Hexpr Hne.
    repeat (apply elem_of_cons in Hin as [Hin|Hin]; [injection Hin as -> ->|]);
      try done; by apply elem_of_nil in Hin.
  - apply (bool_decide_unpack _). by vm_compute.
  - done.
  - by vm_compute.
  - exists l', sc'. split; [exact Hrun|]. apply Hiff.
    intros ae expr Hin Hexpr Hne.
    repeat (apply elem_of_cons in Hin as [Hin|Hin]; [injection Hin as -> ->|]);
      try done; by apply elem_of_nil in Hin.
Defined.

Lemma collect_statistics_app data (m : list (string * pyvalue)) pre rest new sd :
  collect_statistics data m (pre ++ rest) new sd
  = collect_statistics data m pre new sd ≫= λ st, collect_statistics data m rest st.1 st.2.
Proof.
  revert new sd. induction pre as [|ae pre IH]; intros new sd; [done|].
  cbn [app collect_statistics].
  destruct (aes_get ae m) as [[expr| | | |]|]; try done.
  destruct (decide (ae ≠ strip_dots expr)); [|apply IH].
  destruct (getitem data (strip_dots expr)) as [c|e]; [|done]. rewrite !bind_Ok.
  destruct (setitem sd ae (PSeries c)) as [sd'|e]; [|done]. rewrite !bind_Ok. apply IH.
Qed.

(** X19: on a dataset with distinct column labels, a calculated aesthetic
    mapped to a computed column that the dataset lacks makes [map_statistic]
    raise [KeyError] for that column, when the calculated aesthetics before
    it have theirs. *)
Theorem map_statistic_missing_column_raises
    (self : layer) (plot : Plot) (pre post : list string) (ae expr : string) :
  len (data self) ≠ 0%nat →
  well_formed (data self) →
  NoDup (names (data self)) →
  NoDup (mapping self).*1 →
  NoDup (plot_mapping plot).*1 →
  NoDup (DEFAULT_AES (stat self)).*1 →
  is_calculated_aes (statistic_aesthetics self plot) = pre ++ ae :: post →
  (ae, PStr expr) ∈ statistic_aesthetics self plot →
  ae ≠ strip_dots expr →
  has_column (data self) (strip_dots expr) = false →
  (∀ ae' expr', ae' ∈ pre → (ae', PStr expr') ∈ statistic_aesthetics self plot →
     ae' ≠ strip_dots expr' → has_column (data self) (strip_dots expr') = true) →
  map_statistic self plot = Raise (KeyError (strip_dots expr)).
Proof.
  intros Hrows Hwf Hdata Hl Hp Hs Hlist Hin Hne Hmissing Hpre.
  pose proof (statistic_aesthetics_NoDup self plot Hl Hp Hs) as Hnd.
  pose proof (is_calculated_aes_NoDup _ Hnd) as Hcalc.
  set (aesthetics := statistic_aesthetics self plot) in *.
  unfold map_statistic. rewrite decide_False by done. fold aesthetics.
  rewrite Hlist, collect_statistics_app.
  destruct (collect_statistics_run (data self) aesthetics pre [] empty_frame)
    as (sd & -> & _); try done.
  { intros ae' Hae'.
    assert (ae' ∈ is_calculated_aes aesthetics) as (expr' & Hin' & Hexpr')%elem_of_is_calculated_aes
      by (rewrite Hlist; apply elem_of_app; by left).
    exists expr'. split; [by apply aes_get_of_elem|]. intros Hne'. by apply (Hpre ae' expr'). }
  { rewrite Hlist in Hcalc. by apply NoDup_app in Hcalc as [? _]. }
  rewrite bind_Ok. cbn [fst snd collect_statistics].
  rewrite (aes_get_of_elem _ _ _ Hnd Hin). rewrite decide_True by done.
  unfold getitem.
  destruct (lookup_column (strip_dots expr) (columns (data self))) as [c|] eqn:Hc; [|done].
  by rewrite (lookup_has_column _ _ _ Hc) in Hmissing.
Qed.

Lemma map_statistic_missing_column_raises_witness :
  map_statistic (new_layer data_summary [("x", PStr "x"); ("fill", PStr "..count..")]) plot0
  = Raise (KeyError "count").
Proof.
  refine (map_statistic_missing_column_raises
    (new_layer data_summary [("x", PStr "x"); ("fill", PStr "..count..")]) plot0
    [] [] "fill" "..count.." _ _ _ _ _ _ _ _ _ _ _).
  - by vm_compute.
  - repeat constructor.
  - apply (bool_decide_unpack _). by vm_compute.
  - apply (bool_decide_unpack _). by vm_compute.
  - constructor.
  - constructor.
  - by vm_compute.
  - right. left.
  - by vm_compute.
  - by vm_compute.
  - by intros ae' expr' ?%elem_of_nil.
Defined.

End computed_statistics.

(** ** discrete_columns and add_group *)

Section grouping_further.
Import Exn Frame Utils Grouping Layer LayerDetails DataExamples.

Lemma candidate_test ignore col s :
  bool_decide (kind (dtype_of s) ∈ DISCRETE_KINDS) && bool_decide (col ∉ ignore) = true
  ↔ candidate ignore (col, s).
Proof.
  unfold candidate. cbn [fst snd].
  by rewrite andb_true_iff, !bool_decide_eq_true.
Qed.

Lemma discrete_columns_from_spec df cols ignore disc :
  discrete_columns_from df cols ignore = Ok disc →
  disc `sublist_of` cols.*1 ∧
  ∀ col, col ∈ disc ↔
         ∃ s v, (col, s) ∈ cols ∧ candidate ignore (col, s) ∧
                head (values s) = Some v ∧ hashable v = true.
Proof.
  revert disc. induction cols as [|[c s] rest IH]; intros disc.
  - injection 1 as <-. split; [constructor|]. intros col. split.
    + by intros ?%elem_of_nil.
    + by intros (? & ? & ?%elem_of_nil & _).
  - cbn [discrete_columns_from]. rewrite fmap_cons. cbn [fst].
    destruct (decide (count_label df c = 1%nat)) as [Hone|]; [|done].
    assert (∀ disc, discrete_columns_from df rest ignore = Ok disc →
      (¬ ∃ v, candidate ignore (c, s) ∧ head (values s) = Some v ∧ hashable v = true) →
      disc `sublist_of` c :: rest.*1 ∧
      ∀ col, col ∈ disc ↔
             ∃ s0 v, (col, s0) ∈ (c, s) :: rest ∧ candidate ignore (col, s0) ∧
                     head (values s0) = Some v ∧ hashable v = true) as Hskip.
    { intros disc' Hrest Hno. destruct (IH _ Hrest) as [Hsub Hiff].
      split; [by apply sublist_cons|]. intros col. rewrite Hiff. split.
      - intros (s0 & v & Hin & Hrest'). exists s0, v. split; [by right | done].
      - intros (s0 & v & Hin & Hcand & Hhead & Hhash).
        apply elem_of_cons in Hin as [Heq|Hin]; [|by exists s0, v].
        injection Heq as -> ->. destruct Hno. by exists v. }
    destruct (bool_decide _ && bool_decide _) eqn:Hcond.
    + apply candidate_test in Hcond. destruct (values s) as [|v vs] eqn:Hvals; [done|].
      destruct (hashable v) eqn:Hhash.
      * destruct (discrete_columns_from df rest ignore) as [lst|e] eqn:Hrest; [|done].
        rewrite bind_Ok. injection 1 as <-. destruct (IH _ eq_refl) as [Hsub Hiff].
        split; [by apply sublist_skip|]. intros col. rewrite elem_of_cons, Hiff. split.
        -- intros [->|(s0 & v0 & Hin & Hrest')].
           ++ exists s, v. rewrite Hvals. split; [by left | done].
           ++ exists s0, v0. split; [by right | done].
        -- intros (s0 & v0 & Hin & Hrest').
           apply elem_of_cons in Hin as [Heq|Hin]; [injection Heq as -> ->; by left|].
           right. by exists s0, v0.
      * intros Hrest. apply Hskip; [done|]. intros (v0 & _ & Hhead & Hhash0).
        rewrite ?Hvals in Hhead. injection Hhead as <-. congruence.
    + intros Hrest. apply Hskip; [done|]. intros (v0 & Hcand%candidate_test & _).
      congruence.
Qed.

(** X20: on a frame with rows and distinct column labels, [discrete_columns]
    returns, in the order of the frame, the columns of a discrete kind that
    are not ignored and whose first cell can be hashed. *)
Theorem discrete_columns_with_rows (df : DataFrame) (ignore : list string) :
  well_formed df →
  NoDup (names df) →
  len df ≠ 0%nat →
  ∃ disc,
    discrete_columns df ignore = Ok disc ∧
    disc `sublist_of` names df ∧
    ∀ col, col ∈ disc ↔
           ∃ s v, (col, s) ∈ columns df ∧ candidate ignore (col, s) ∧
                  head (values s) = Some v ∧ hashable v = true.
Proof.
  intros Hwf Hnd Hrows.
  destruct (discrete_columns_ok df ignore Hwf Hnd Hrows) as [disc Hdisc].
  exists disc. split; [done|]. by apply (discrete_columns_from_spec df).
Qed.

Lemma discrete_columns_with_rows_witness :
  ∃ disc,
    discrete_columns data_xc ["label"] = Ok disc ∧
    disc `sublist_of` names data_xc ∧
    ("c" ∈ disc).
Proof.
  destruct (discrete_columns_with_rows data_xc ["label"]) as (disc & Hrun & Hsub & Hiff).
  - repeat constructor.
  - apply (bool_decide_unpack _). by vm_compute.
  - by vm_compute.
  - exists disc. split; [done|]. split; [done|].
    apply Hiff. exists (strs ["a"; "b"; "a"]), (VStr "a").
    split; [by right; left|]. split; [|done].
    split; [by left | by intros [?|?%elem_of_nil]%elem_of_cons].
Defined.

Lemma discrete_columns_from_without_rows df cols ignore :
  Forall (λ c, values c.2 = [] ∧ count_label df c.1 = 1%nat) cols →
  discrete_columns_from df cols ignore
  = if decide (Exists (candidate ignore) cols)
    then Raise (IndexError "single positional indexer is out-of-bounds")
    else Ok [].
Proof.
  induction 1 as [|[c s] rest [Hs Hone] Hrest IH]; cbn [discrete_columns_from].
  - rewrite decide_False; [done|]. by intros ?%Exists_nil.
  - cbn [fst snd] in Hs, Hone. rewrite (decide_True _ _ Hone), Hs.
    destruct (bool_decide _ && bool_decide _) eqn:Hcond.
    + apply candidate_test in Hcond. rewrite decide_True; [done | by left].
    + rewrite IH. destruct (decide (Exists (candidate ignore) rest)) as [Hex|Hno].
      * rewrite decide_True; [done | by right].
      * rewrite decide_False; [done|]. intros [Hcand%candidate_test|?]%Exists_cons; [|done].
        congruence.
Qed.

(** X21: on a frame without rows and with distinct column labels,
    [discrete_columns] raises [IndexError] as soon as one column is of a
    discrete kind and not ignored: there is no first cell to hash.
    [add_group] tests for rows first and hands such a frame back. *)
Theorem discrete_columns_without_rows (df : DataFrame) (ignore : list string) :
  well_formed df →
  NoDup (names df) →
  len df = 0%nat →
  discrete_columns df ignore
  = (if decide (Exists (candidate ignore) (columns df))
     then Raise (IndexError "single positional indexer is out-of-bounds")
     else Ok []) ∧
  add_group df = Ok df.
Proof.
  intros Hwf Hnd Hrows. split; [|unfold add_group; by rewrite decide_True].
  apply discrete_columns_from_without_rows.
  unfold well_formed, len in *. rewrite Hrows in Hwf.
  apply Forall_forall. intros c Hin. rewrite Forall_forall in Hwf. split.
  - by apply length_zero_iff_nil, Hwf.
  - apply count_label_NoDup; [done|]. unfold names. apply list_elem_of_fmap. by exists c.
Qed.

Lemma discrete_columns_without_rows_witness :
  discrete_columns {| index := 0; columns := [("x", ints []); ("c", strs [])] |} ["label"]
  = Raise (IndexError "single positional indexer is out-of-bounds").
Proof.
  refine (proj1 (discrete_columns_without_rows
    {| index := 0; columns := [("x", ints []); ("c", strs [])] |} ["label"] _ _ _)).
  - repeat constructor.
  - apply (bool_decide_unpack _). by vm_compute.
  - done.
Defined.

(** What [add_group] stores on a dataset with rows. *)
Lemma add_group_stores_ids d d' :
  len d ≠ 0%nat → add_group d = Ok d' →
  ∃ ids, length ids = len d ∧
         d' = {| index := index d;
                 columns := store_column "group"
                              {| dtype_of := int64; values := VInt <$> ids |}
                              (columns d) |}.
Proof.
  intros Hrows. unfold add_group. rewrite decide_False by done.
  assert (∀ cols, setitem d "group" (id_list (ninteraction (select d cols))) = Ok d' →
    ∃ ids, length ids = len d ∧
           d' = {| index := index d;
                   columns := store_column "group"
                                {| dtype_of := int64; values := VInt <$> ids |}
                                (columns d) |}) as Hids.
  { intros cols. rewrite setitem_ids by (done || apply length_ninteraction_select).
    injection 1 as <-. eexists. split; [apply length_ninteraction_select | done]. }
  destruct (negb (has_column d "group")); [|apply Hids].
  destruct (discrete_columns d ["label"]) as [[|c disc]|e]; [|apply Hids|done].
  rewrite bind_Ok, setitem_scalar by done. injection 1 as <-.
  exists (replicate (len d) NO_GROUP). split; [apply length_replicate|].
  unfold broadcast, len. cbn [value_dtype]. by rewrite fmap_replicate.
Qed.

(** X22: grouping a grouped dataset again keeps the groups, on a dataset with
    rows and distinct column labels: two rows have the same id after the
    second pass exactly when they had the same id after the first. The ids
    of the second pass are all positive, so NO_GROUP does not survive it. *)
Theorem add_group_again_keeps_groups (d : DataFrame) :
  well_formed d →
  NoDup (names d) →
  len d ≠ 0%nat →
  ∃ d' d'' ids' ids'',
    add_group d = Ok d' ∧
    add_group d' = Ok d'' ∧
    group_ids d' = Some ids' ∧
    group_ids d'' = Some ids'' ∧
    length ids'' = len d ∧
    (∀ (i j : nat) a b a' b',
       ids' !! i = Some a → ids' !! j = Some b →
       ids'' !! i = Some a' → ids'' !! j = Some b' →
       (a' = b' ↔ a = b)) ∧
    (∀ z : Z, z ∈ ids'' → (1 ≤ z)%Z) ∧
    (∀ col, col ≠ "group" →
       lookup_column col (columns d'') = lookup_column col (columns d)).
Proof.
  intros Hwf Hnd Hrows.
  destruct (add_group_succeeds d Hwf Hnd) as (d' & Hrun & Hwf').
  destruct (add_group_stores_ids d d' Hrows Hrun) as (ids' & Hlen' & Hd').
  assert (len d' = len d) as Hsame by (by rewrite Hd').
  assert (len d' ≠ 0%nat) as Hrows' by congruence.
  assert (lookup_column "group" (columns d')
          = Some {| dtype_of := int64; values := VInt <$> ids' |}) as Hg.
  { rewrite Hd'. cbn [columns]. apply lookup_store_column_eq. }
  set (ids'' := ninteraction (select d' ["group"])).
  assert (add_group d'
          = Ok {| index := index d';
                  columns := store_column "group"
                               {| dtype_of := int64; values := VInt <$> ids'' |}
                               (columns d') |}) as Hrun'.
  { unfold add_group. rewrite decide_False by done.
    rewrite (lookup_has_column _ _ _ Hg). cbn [negb].
    by rewrite setitem_ids by (done || apply length_ninteraction_select). }
  eexists d', _, ids', ids''. split; [done|]. split; [exact Hrun'|].
  split; [rewrite Hd'; apply group_ids_store|]. split; [apply group_ids_store|].
  destruct (ninteraction_codes_rows (select d' ["group"])) as (Hlen'' & Hequal & Hrange).
  fold ids'' in Hlen'', Hequal, Hrange.
  split; [by rewrite Hlen''|]. split; [|split].
  - intros i j a b a' b' Hi Hj Hi' Hj'. rewrite (Hequal i j a' b' Hi' Hj').
    unfold row, select. cbn [columns omap list_omap]. rewrite Hg.
    cbn [fmap option_fmap option_map list_fmap snd values].
    rewrite !list_lookup_fmap, Hi, Hj. cbn. split; [by injection 1 as -> | by intros ->].
  - intros z Hz. apply Hrange in Hz. lia.
  - intros col Hne. cbn [columns]. rewrite lookup_store_column_ne by done.
    rewrite Hd'. cbn [columns]. by rewrite lookup_store_column_ne.
Qed.

Lemma add_group_again_keeps_groups_witness :
  ∃ d' d'',
    add_group data5 = Ok d' ∧ add_group d' = Ok d'' ∧
    group_ids d' = Some [-1; -1; -1; -1; -1]%Z ∧
    group_ids d'' = Some [1; 1; 1; 1; 1]%Z.
Proof.
  destruct (add_group_again_keeps_groups data5) as (d' & d'' & ids' & ids'' & H1 & H2 & _).
  - repeat constructor.
  - apply (bool_decide_unpack _). by vm_compute.
  - by vm_compute.
  - exists d', d''. split; [exact H1|]. split; [exact H2|].
    vm_compute in H1. injection H1 as <-.
    vm_compute in H2. injection H2 as <-. by vm_compute.
Defined.

End grouping_further.

(** ** The stages over a list of layers *)

Section stages_over_layers.
Import Exn Frame Utils Grouping Layer LayerDetails DataExamples.
Import LayersStages (for_each, with_scales).

Lemma compute_aesthetics_registered self plot l' sc :
  NoDup (active_aesthetics self plot).*1 →
  Layer.compute_aesthetics self plot = Ok (l', sc) →
  registered sc
  = registered (scales plot) ++ ((λ c, (c, c)) <$> (active_aesthetics self plot).*1) ∧
  transform_df sc = transform_df (scales plot).
Proof.
  intros Hnd (st & ev2 & Hloop & _ & _ & _ & ->)%compute_aesthetics_inv.
  pose proof (resolve_aesthetics_names _ _ _ (frame_with_index (data self), false) _
                Hloop Hnd) as Hnames.
  change (names (frame_with_index (data self), false).1) with (@nil string) in Hnames.
  rewrite app_nil_l in Hnames.
  cbn [add_defaults registered transform_df]. by rewrite widen_ints_names, Hnames.
Qed.

(** X24: [Layers.compute_aesthetics] hands the scales from layer to layer: the
    scales it leaves have been given the aesthetics of every layer, layer
    after layer in the order of the list, each layer's in the order of its
    mapping. *)
Theorem scales_see_layers_in_order
    (layers layers' : list layer) (plot : Plot) (sc : Scales) :
  Forall (λ l, NoDup (active_aesthetics l plot).*1) layers →
  LayersStages.compute_aesthetics layers plot = Ok (sc, layers') →
  registered sc
  = registered (scales plot)
    ++ concat ((λ l, (λ c, (c, c)) <$> (active_aesthetics l plot).*1) <$> layers) ∧
  transform_df sc = transform_df (scales plot).
Proof.
  unfold LayersStages.compute_aesthetics. intros Hnd.
  generalize (scales plot) as sc0. revert sc layers'.
  induction Hnd as [|l rest Hl Hrest IH]; intros sc layers' sc0; cbn [for_each].
  - injection 1 as <- <-. by rewrite app_nil_r.
  - destruct (Layer.compute_aesthetics l (with_scales plot sc0)) as [[l1 sc1]|e] eqn:Hrun;
      [|done].
    rewrite !bind_Ok. cbn [fst snd].
    destruct (for_each _ sc1 rest) as [[sc2 rest']|e] eqn:Hfor; [|done].
    rewrite bind_Ok. injection 1 as <- <-.
    destruct (compute_aesthetics_registered l (with_scales plot sc0) _ _ Hl Hrun)
      as [Hreg1 Htr1].
    cbn [scales with_scales] in Hreg1, Htr1.
    destruct (IH _ _ _ Hfor) as [Hreg2 Htr2].
    rewrite fmap_cons, concat_cons, Hreg2, Hreg1, Htr2, Htr1.
    by rewrite <- app_assoc.
Qed.

Lemma scales_see_layers_in_order_witness :
  ∃ sc layers',
    LayersStages.compute_aesthetics
      [new_layer data_xc [("x", PStr "x"); ("colour", PStr "c")];
       new_layer data5 [("y", PStr "x")]] plot0 = Ok (sc, layers') ∧
    registered sc = [("x", "x"); ("colour", "colour"); ("y", "y")].
Proof.
  destruct (LayersStages.compute_aesthetics
              [new_layer data_xc [("x", PStr "x"); ("colour", PStr "c")];
               new_layer data5 [("y", PStr "x")]] plot0)
    as [[sc layers']|e] eqn:Hrun; [|by vm_compute in Hrun].
  exists sc, layers'. split; [done|].
  refine (proj1 (scales_see_layers_in_order _ _ _ _ _ Hrun)).
  repeat apply Forall_cons_2; try apply Forall_nil_2;
    apply (bool_decide_unpack _); by vm_compute.
Defined.

End stages_over_layers.

(** ** The parameters of draw *)

Section drawing.
Import Exn Frame Utils Grouping Layer LayerDetails DataExamples.

Lemma aes_get_update k (d other : list (string * pyvalue)) :
  NoDup other.*1 →
  aes_get k (update d other)
  = match aes_get k other with Some v => Some v | None => aes_get k d end.
Proof.
  revert d. induction other as [|[k0 v0] rest IH]; intros d; [done|].
  rewrite fmap_cons. cbn [fst update aes_get]. intros [Hk0 Hrest]%NoDup_cons.
  rewrite IH by done. destruct (decide (k0 = k)) as [->|Hne].
  - rewrite (proj2 (aes_get_None k rest)) by done. apply aes_get_set_eq.
  - by rewrite aes_get_set_ne.
Qed.

(** X25: the keyword arguments that [draw] hands to the geom: [zorder] is always
    the zorder of the layer, whatever the geom or the stat say; any other
    parameter is the stat's when the stat has it, and the geom's
    otherwise. *)
Theorem draw_params_precedence
    (geom_params stat_params : params) (self : layer) (k : string) :
  NoDup stat_params.*1 →
  aes_get k (draw_params geom_params stat_params self)
  = if decide (k = "zorder") then Some (PScalar (VInt (zorder self)))
    else match aes_get k stat_params with
         | Some v => Some v
         | None => aes_get k geom_params
         end.
Proof.
  intros Hnd. unfold draw_params. destruct (decide (k = "zorder")) as [->|Hne].
  - apply aes_get_set_eq.
  - rewrite aes_get_set_ne by done. by apply aes_get_update.
Qed.

Lemma draw_params_precedence_witness :
  aes_get "zorder"
    (draw_params [("zorder", PScalar (VInt 9)); ("na_rm", PScalar (VBool false))]
       [("na_rm", PScalar (VBool true))] (new_layer data5 []))
  = Some (PScalar (VInt 0)).
Proof.
  refine (draw_params_precedence
    [("zorder", PScalar (VInt 9)); ("na_rm", PScalar (VBool false))]
    [("na_rm", PScalar (VBool true))] (new_layer data5 []) "zorder" _).
  apply (bool_decide_unpack _). by vm_compute.
Defined.

End drawing.

(** ** compute_aesthetics on a dataset without rows, and on evaluated values *)

Section without_data.
Import Exn Frame Utils Grouping Layer LayerDetails DataExamples.

(** Without rows in the data, a vector of [n] items, [n] other than one, is
    stored as it is, and gives the frame its [n] rows. *)
Lemma resolve_vector_step env d ae col s st n :
  len d = 0%nat → n ≠ 1%nat →
  col = PList s ∨ col = PSeries s →
  length (values s) = n →
  index st.1 = n ∨ index st.1 = 0%nat →
  Forall (λ c, length (values c.2) = n) (columns st.1) →
  resolve_aesthetic env d ae col st
  = Ok ({| index := n; columns := store_column ae s (columns st.1) |}, true).
Proof.
  intros Hd Hone Hcol Hlen Hindex Hcols. unfold resolve_aesthetic.
  assert (setitem st.1 ae col
          = Ok {| index := n; columns := store_column ae s (columns st.1) |}) as Hset.
  { unfold setitem, adopt_index.
    destruct Hcol as [-> | ->]; destruct (decide (index st.1 = 0%nat)) as [Hz|Hnz].
    - rewrite Hlen. by rewrite reindex_all_same.
    - destruct Hindex as [Hi|Hi]; [|done]. rewrite Hi, Hlen. by rewrite decide_True.
    - rewrite Hlen. by rewrite reindex_all_same.
    - destruct Hindex as [Hi|Hi]; [|done]. rewrite Hi. by rewrite reindex_same. }
  destruct Hcol as [-> | ->].
  - change (is_list_like (PList s)) with true. cbv iota.
    change (list_len (PList s)) with (length (values s)).
    rewrite (bool_decide_eq_false_2 (len d ≠ 0%nat)) by (by intros []). cbn [andb].
    rewrite decide_False by congruence. by rewrite Hset.
  - change (is_list_like (PSeries s)) with true. cbv iota.
    change (list_len (PSeries s)) with (length (values s)).
    rewrite (bool_decide_eq_false_2 (len d ≠ 0%nat)) by (by intros []). cbn [andb].
    rewrite decide_False by congruence. by rewrite Hset.
Qed.

Lemma resolve_vectors env d (aesthetics : list (string * pyvalue)) st n :
  len d = 0%nat → n ≠ 1%nat →
  Forall (λ kv, ∃ s, (kv.2 = PList s ∨ kv.2 = PSeries s) ∧ length (values s) = n)
    aesthetics →
  NoDup aesthetics.*1 →
  index st.1 = n ∨ index st.1 = 0%nat →
  Forall (λ c, length (values c.2) = n) (columns st.1) →
  ∃ st',
    resolve_aesthetics env d aesthetics st = Ok st' ∧
    (aesthetics ≠ [] → index st'.1 = n ∧ st'.2 = true) ∧
    Forall (λ c, length (values c.2) = n) (columns st'.1) ∧
    (∀ ae s, (ae, PList s) ∈ aesthetics ∨ (ae, PSeries s) ∈ aesthetics →
       lookup_column ae (columns st'.1) = Some s) ∧
    (∀ col, col ∉ aesthetics.*1 →
       lookup_column col (columns st'.1) = lookup_column col (columns st.1)).
Proof.
  intros Hd Hone Hall. revert st.
  induction Hall as [|[ae col] rest (s & Hcol & Hlen) Hrest IH]; intros st Hnd Hindex Hcols.
  - exists st. split_and!; try done. intros ae s [?%elem_of_nil|?%elem_of_nil]; done.
  - rewrite fmap_cons in Hnd. cbn [fst snd] in *. apply NoDup_cons in Hnd as [Hae Hnd].
    cbn [resolve_aesthetics].
    rewrite (resolve_vector_step env d ae col s st n) by done. rewrite bind_Ok.
    destruct (IH ({| index := n; columns := store_column ae s (columns st.1) |}, true))
      as (st' & Hrun & Hlast & Hcols' & Hvec & Hother); [done | by left | |].
    { cbn [fst columns]. by apply store_column_Forall. }
    exists st'. split; [done|]. cbn [fst snd columns index] in *.
    assert (index st'.1 = n ∧ st'.2 = true) as Hend.
    { destruct rest as [|kv rest]; [|by apply Hlast].
      cbn [resolve_aesthetics] in Hrun. by injection Hrun as <-. }
    split; [done|]. split; [done|]. split.
    + intros ae' s' Hin.
      assert ((ae', PList s') ∈ rest ∨ (ae', PSeries s') ∈ rest
              ∨ (ae' = ae ∧ s' = s)) as [Hin'|[Hin'|[-> ->]]].
      { destruct Hin as [Hin|Hin]; apply elem_of_cons in Hin as [Heq|Hin]; auto.
        - injection Heq as -> <-.
          destruct Hcol as [Hcol|Hcol]; [injection Hcol as ->; auto | done].
        - injection Heq as -> <-.
          destruct Hcol as [Hcol|Hcol]; [done | injection Hcol as ->; auto]. }
      * apply Hvec. by left.
      * apply Hvec. by right.
      * rewrite Hother by done. apply lookup_store_column_eq.
    + intros col' Hnin. rewrite fmap_cons in Hnin. cbn [fst] in Hnin.
      apply not_elem_of_cons in Hnin as [Hne Hnin]. rewrite Hother by done.
      apply lookup_store_column_ne. congruence.
Qed.

(** X26: plotting without data: on a dataset without rows, a mapping of vectors
    that all have [n] items, [n] other than one, gives a dataset of [n] rows
    that holds every vector (cast to float when it is int) and the PANEL 1
    in every row. *)
Theorem vectors_without_data (self : layer) (plot : Plot) (n : nat) :
  len (data self) = 0%nat →
  n ≠ 1%nat →
  active_aesthetics self plot ≠ [] →
  NoDup (active_aesthetics self plot).*1 →
  Forall (λ kv, ∃ s, (kv.2 = PList s ∨ kv.2 = PSeries s) ∧ length (values s) = n)
    (active_aesthetics self plot) →
  ∃ l' sc,
    compute_aesthetics self plot = Ok (l', sc) ∧
    len (data l') = n ∧
    lookup_column "PANEL" (columns (data l')) = Some (broadcast (VInt 1) n) ∧
    ∀ ae s,
      (ae, PList s) ∈ active_aesthetics self plot
      ∨ (ae, PSeries s) ∈ active_aesthetics self plot →
      ae ≠ "group" → ae ≠ "PANEL" →
      lookup_column ae (columns (data l')) = Some (widen s).
Proof.
  intros Hd Hone Hsome Hnd Hall.
  destruct (resolve_vectors (environment plot) (data self) (active_aesthetics self plot)
              (frame_with_index (data self), false) n)
    as (st & Hloop & Hlast & Hcols & Hvec & _);
    [done | done | done | done | by right | by apply Forall_nil_2 |].
  destruct (Hlast Hsome) as [Hindex Hflag].
  unfold compute_aesthetics, evaluate. rewrite Hloop, !bind_Ok. cbn [fst snd].
  unfold set_panel. rewrite bool_decide_eq_true_2 by done. rewrite Hflag. cbn [andb].
  rewrite setitem_scalar by done. rewrite bind_Ok. cbn [index widen_ints].
  set (ev2 := {| index := index st.1;
                 columns := store_column "PANEL" (broadcast (VInt 1) (index st.1))
                              (columns (widen_ints st.1)) |}).
  assert (well_formed ev2) as Hwf.
  { unfold well_formed, ev2. cbn [columns index]. apply store_column_Forall.
    - cbn [snd]. apply length_replicate.
    - apply (widen_ints_well_formed st.1). unfold well_formed. by rewrite Hindex. }
  assert (NoDup (names ev2)) as Hnd2.
  { apply (setitem_NoDup (widen_ints st.1) "PANEL" (PScalar (VInt 1)));
      [|by rewrite setitem_scalar].
    rewrite widen_ints_names.
    pose proof (resolve_aesthetics_names _ _ _ (frame_with_index (data self), false) _
                  Hloop Hnd) as Hnames.
    change (names (frame_with_index (data self), false).1) with (@nil string) in Hnames.
    rewrite app_nil_l in Hnames. by rewrite Hnames. }
  destruct (add_group_succeeds ev2 Hwf Hnd2) as (g & Hg & _). rewrite Hg, bind_Ok.
  destruct (add_group_keeps _ _ Hg) as [Hgi Hgc].
  eexists _, _. split; [done|]. cbn [data set_data]. unfold len.
  split; [by rewrite Hgi|]. split.
  - rewrite Hgc by done. unfold ev2. cbn [columns]. rewrite lookup_store_column_eq.
    by rewrite Hindex.
  - intros ae s Hin Hgroup Hpanel. rewrite Hgc by done. unfold ev2. cbn [columns].
    rewrite lookup_store_column_ne by congruence.
    rewrite lookup_widen_ints, (Hvec ae s Hin). done.
Qed.

Lemma vectors_without_data_witness :
  ∃ l' sc,
    compute_aesthetics
      (new_layer empty_frame [("x", PList (ints [1; 2; 3])); ("y", PList (floats [4; 5; 6]))])
      plot0 = Ok (l', sc) ∧
    len (data l') = 3%nat ∧
    lookup_column "PANEL" (columns (data l')) = Some (ints [1; 1; 1]).
Proof.
  destruct (vectors_without_data
    (new_layer empty_frame [("x", PList (ints [1; 2; 3])); ("y", PList (floats [4; 5; 6]))])
    plot0 3) as (l' & sc & Hrun & Hlen & Hpanel & _).
  - done.
  - done.
  - by vm_compute.
  - apply (bool_decide_unpack _). by vm_compute.
  - repeat apply Forall_cons_2; try apply Forall_nil_2; eexists; (split; [by left | done]).
  - by exists l', sc.
Defined.

(** X27: without rows in the data the lengths of the vectors are not compared:
    a list whose length differs from that of the vectors before it makes
    pandas raise [ValueError], and that is what [compute_aesthetics]
    raises, not its own length-mismatch error. *)
Theorem vector_lengths_unchecked_without_data
    (self : layer) (plot : Plot) (pre post : aes) (ae : string) (s : Series)
    (st : DataFrame * bool) :
  len (data self) = 0%nat →
  active_aesthetics self plot = pre ++ (ae, PList s) :: post →
  resolve_aesthetics (environment plot) (data self) pre
    (frame_with_index (data self), false) = Ok st →
  index st.1 ≠ 0%nat →
  length (values s) ≠ index st.1 →
  length (values s) ≠ 1%nat →
  ∃ msg, compute_aesthetics self plot = Raise (ValueError msg).
Proof.
  intros Hd Hactive Hpre Hrows Hlen Hone.
  eexists. apply compute_aesthetics_loop_raises.
  rewrite Hactive, (resolve_aesthetics_at _ _ _ _ _ _ _ st Hpre).
  unfold resolve_aesthetic. change (is_list_like (PList s)) with true. cbv iota.
  change (list_len (PList s)) with (length (values s)).
  rewrite (bool_decide_eq_false_2 (len (data self) ≠ 0%nat)) by (by intros []).
  cbn [andb]. rewrite decide_False by done.
  unfold setitem. by rewrite !decide_False.
Qed.

Lemma vector_lengths_unchecked_without_data_witness :
  ∃ msg,
    compute_aesthetics
      (new_layer empty_frame [("x", PList (ints [1; 2])); ("y", PList (ints [4; 5; 6]))])
      plot0
    = Raise (ValueError msg).
Proof.
  refine (vector_lengths_unchecked_without_data
    (new_layer empty_frame [("x", PList (ints [1; 2])); ("y", PList (ints [4; 5; 6]))])
    plot0 [("x", PList (ints [1; 2]))] [] "y" (ints [4; 5; 6]) _ _ _ _ _ _ _).
  - done.
  - by vm_compute.
  - by vm_compute.
  - by vm_compute.
  - by vm_compute.
  - by vm_compute.
Defined.

(** X28: an expression that evaluates to a list is stored without the test and
    the unwrapping that a vector given in the mapping gets: over [N > 0]
    rows, a list of any other length, one included, is reported as a value
    of a bad type, with the error of pandas as the original error. *)
Theorem evaluated_list_of_other_length_raises
    (self : layer) (plot : Plot) (pre post : aes) (ae expr : string) (s : Series)
    (st : DataFrame * bool) :
  len (data self) ≠ 0%nat →
  active_aesthetics self plot = pre ++ (ae, PStr expr) :: post →
  resolve_aesthetics (environment plot) (data self) pre
    (frame_with_index (data self), false) = Ok st →
  has_column (data self) expr = false →
  environment plot expr (data self) = Ok (PList s) →
  length (values s) ≠ len (data self) →
  ∃ e,
    compute_aesthetics self plot
    = Raise (GgplotError (_TPL_BAD_EVAL_TYPE ae expr "<class 'list'>" (str e))).
Proof.
  intros Hrows Hactive Hpre Hcol Heval Hlen.
  exists (ValueError "Length of values does not match length of index").
  apply compute_aesthetics_loop_raises.
  rewrite Hactive, (resolve_aesthetics_at _ _ _ _ _ _ _ st Hpre).
  destruct (resolve_aesthetics_with_rows _ _ _ (frame_with_index (data self), false) _
              Hrows Hpre) as [Hi _].
  cbn [fst frame_with_index index] in Hi.
  unfold resolve_aesthetic. rewrite Hcol, Heval.
  unfold setitem. unfold len in *. by rewrite !decide_False by congruence.
Qed.

Lemma evaluated_list_of_other_length_raises_witness :
  ∃ e,
    compute_aesthetics (new_layer data5 [("x", PStr "x"); ("y", PStr "[7]")])
      {| plot_mapping := []; scales := scales0;
         environment := λ _ _, Ok (PList (ints [7])) |}
    = Raise (GgplotError
        ("The 'y' mapping: '[7]' produced a value of type '<class 'list'>',but only single items and lists/arrays can be used. (original error: "
         +:+ str e +:+ ")")).
Proof.
  refine (evaluated_list_of_other_length_raises
    (new_layer data5 [("x", PStr "x"); ("y", PStr "[7]")])
    {| plot_mapping := []; scales := scales0;
       environment := λ _ _, Ok (PList (ints [7])) |}
    [("x", PStr "x")] [] "y" "[7]" (ints [7]) _ _ _ _ _ _ _).
  - by vm_compute.
  - by vm_compute.
  - by vm_compute.
  - by vm_compute.
  - done.
  - by vm_compute.
Defined.

End without_data.

(** ** setup_data and the required aesthetics *)

Section required_aesthetics.
Import Exn Frame Utils Grouping Layer LayerDetails DataExamples.

Lemma none_missing (required present : list string) :
  filter (λ ae, ae ∉ present) required = [] ↔ Forall (λ ae, ae ∈ present) required.
Proof.
  induction required as [|ae rest IH]; [by split; [constructor|]|].
  rewrite filter_cons, Forall_cons. destruct (decide (ae ∉ present)) as [Hnin|Hin].
  - split; [done | by intros [? _]].
  - apply dec_stable in Hin. rewrite IH. split; [done | by intros [_ ?]].
Qed.

(** X29: on a dataset with rows, [setup_data] looks for the required aesthetics
    of the geom among the columns of the dataset that the geom's own
    [setup_data] returns and the aesthetics fixed on the geom. When they are
    all there, that dataset becomes the data of the layer; otherwise the
    call raises and the layer keeps its data. *)
Theorem setup_data_checks_required_aesthetics (self : layer) (d : DataFrame) :
  len (data self) ≠ 0%nat →
  geom_setup_data (geom self) (data self) = Ok d →
  if decide (Forall (λ ae, ae ∈ names d ++ (aes_params (geom self)).*1)
               (REQUIRED_AES (geom self)))
  then setup_data self = Ok (None, set_data self d)
  else ∃ msg, setup_data self = Raise (GgplotError msg).
Proof.
  intros Hrows Hgeom.
  destruct (decide (Forall _ _)) as [Hall|Hmissing];
    unfold setup_data, check_required_aesthetics;
    rewrite decide_False by done; rewrite Hgeom, bind_Ok.
  - apply none_missing in Hall. by rewrite Hall.
  - destruct (filter _ _) as [|ae missing] eqn:Hfilter; [|by eexists].
    by apply none_missing in Hfilter.
Qed.

Lemma setup_data_checks_required_aesthetics_witness :
  ∃ msg, setup_data (new_layer data5 [("x", PStr "x")]) = Raise (GgplotError msg).
Proof.
  refine (setup_data_checks_required_aesthetics (new_layer data5 [("x", PStr "x")]) data5 _ _).
  - by vm_compute.
  - done.
Defined.

End required_aesthetics.
